(** * Stock API V2: indicator engine, signal detector, trade simulator
      and result filtering / sorting

    A shallow embedding of the services of [app/services]:
    - [technical_analysis.py]  (MACD and KDJ series),
    - [signal_detector.py]     (per-bar and last-bar signals),
    - [trading_simulator.py]   (deferred-execution paper trading),
    - [market_scanner.py]      (exclude rules and multi-key sorting, the
                                scan with its batches and retries),
    - [stock_fetcher.py]       (market-cap classes and the stock lists),
    and of the endpoint [api/v1/endpoints/trading_signals.py].

    Numbers.  A Python / numpy [float] is modelled as [option Qc]: an exact
    rational, or [None] for NaN.  Arithmetic is exact, so binary rounding
    error, overflow and the infinities are outside the model; NaN propagation
    and the "every comparison with NaN is false" rule are kept.  A division
    by zero yields NaN here.

    Data frames.  A [DataFrame] is the list of its rows in index order; a
    pandas [Series] is the list of its values.  Row labels (timestamps) are
    assumed unique, so the label based accesses of the source coincide with
    positional ones.

    The outside world.  What yfinance, the cache file and the thread pool
    do is a parameter of the functions that use them: the outcome of each
    call of [ticker.history] or [ticker.info], the content of the cache
    file, and the futures of a batch in the order in which they complete.
    [time.sleep] is recorded in the trace of a single-stock scan and is
    otherwise left out; printing is left out. *)

From Stdlib Require Import ZArith QArith Qcanon String Ascii List Lia.
From Stdlib Require Import Permutation Sorted Lqa.
From stdpp Require Import base numbers list strings pretty gmap.

Local Open Scope Qc_scope.

(** ** Python values *)

Module Py.

(** Exceptions the modelled code can raise. *)
Inductive exn := IndexError | TypeError | ZeroDivisionError.

Inductive result (A : Type) :=
| Ok (a : A)
| Raise (e : exn).
Arguments Ok {A} a.
Arguments Raise {A} e.

Definition bind {A B} (r : result A) (k : A -> result B) : result B :=
  match r with
  | Ok a => k a
  | Raise e => Raise e
  end.

Definition of_option {A} (e : exn) (o : option A) : result A :=
  match o with
  | Some a => Ok a
  | None => Raise e
  end.

(** [float]: a rational, or NaN. *)
Definition float := option Qc.
Definition NaN : float := None.

Definition qz (z : Z) : Qc := Q2Qc (inject_Z z).
Definition qd (n : Z) (d : positive) : Qc := Q2Qc (n # d).
Definition fz (z : Z) : float := Some (qz z).
Definition fd (n : Z) (d : positive) : float := Some (qd n d).

Definition lift2 (f : Qc -> Qc -> Qc) (x y : float) : float :=
  match x, y with
  | Some a, Some b => Some (f a b)
  | _, _ => None
  end.

Definition fadd : float -> float -> float := lift2 Qcplus.
Definition fsub : float -> float -> float := lift2 Qcminus.
Definition fmul : float -> float -> float := lift2 Qcmult.
Definition fneg (x : float) : float := Qcopp <$> x.
Definition fdiv (x y : float) : float :=
  match x, y with
  | Some a, Some b => if decide (b = 0) then None else Some (a / b)
  | _, _ => None
  end.

(** Comparisons: false as soon as one side is NaN, except [!=]. *)
Definition fltb (x y : float) : bool :=
  match x, y with
  | Some a, Some b => bool_decide (a < b)
  | _, _ => false
  end.
Definition fleb (x y : float) : bool :=
  match x, y with
  | Some a, Some b => bool_decide (a <= b)
  | _, _ => false
  end.
Definition fgtb (x y : float) : bool := fltb y x.
Definition fgeb (x y : float) : bool := fleb y x.
Definition feqb (x y : float) : bool :=
  match x, y with
  | Some a, Some b => bool_decide (a = b)
  | _, _ => false
  end.
Definition fneb (x y : float) : bool := negb (feqb x y).

(** [pd.isna] / [pd.notna] on a scalar. *)
Definition isna (x : float) : bool :=
  match x with
  | None => true
  | Some _ => false
  end.
Definition notna (x : float) : bool := negb (isna x).

(** Nearest integer, ties to the even one. *)
Definition round_half_even (q : Qc) : Z :=
  let n := Qnum q in
  let d := Z.pos (Qden q) in
  let f := (n / d)%Z in
  match (2 * (n mod d) ?= d)%Z with
  | Lt => f
  | Gt => (f + 1)%Z
  | Eq => if Z.even f then f else (f + 1)%Z
  end.

(** [round(x, ndigits)]; NaN stays NaN. *)
Definition round_q (q : Qc) (ndigits : nat) : Qc :=
  let s := qz (10 ^ Z.of_nat ndigits) in
  qz (round_half_even (q * s)) / s.
Definition round (x : float) (ndigits : nat) : float :=
  (fun q => round_q q ndigits) <$> x.

(** [str.lower] on ASCII text. *)
Definition lower_ascii (c : ascii) : ascii :=
  let n := nat_of_ascii c in
  if (65 <=? n)%nat && (n <=? 90)%nat then ascii_of_nat (n + 32) else c.
Fixpoint lower (s : string) : string :=
  match s with
  | EmptyString => EmptyString
  | String c r => String (lower_ascii c) (lower r)
  end.

End Py.

Export Py.

Global Instance result_ret : MRet result := fun A a => Ok a.
Global Instance result_bind : MBind result := fun A B k r => Py.bind r k.

(** ** The pandas operations the services use *)

Module Pandas.

Abbreviation Series := (list float).

(** [s.iloc[i]] for [i >= 0]. *)
Definition iloc (s : Series) (i : nat) : result float :=
  of_option IndexError (s !! i).

(** [s.iloc[-n]] for [n >= 1]. *)
Definition iloc_neg (s : Series) (n : nat) : result float :=
  if (length s <? n)%nat then Raise IndexError
  else of_option IndexError (s !! (length s - n)%nat).

(** [pd.Series([np.nan] * n)]. *)
Definition nan_series (n : nat) : Series := replicate n NaN.

(** Element-wise arithmetic of aligned series. *)
Definition sub (a b : Series) : Series := zip_with fsub a b.
Definition div (a b : Series) : Series := zip_with fdiv a b.
Definition scale_l (c : float) (a : Series) : Series := fmul c <$> a.
Definition scale_r (a : Series) (c : float) : Series := (fun x => fmul x c) <$> a.

(** The defined values of a window. *)
Definition observations (w : list float) : list Qc := omap id w.

Definition qmin (a b : Qc) : Qc := if decide (a <= b) then a else b.
Definition qmax (a b : Qc) : Qc := if decide (a <= b) then b else a.

Definition reduce (f : Qc -> Qc -> Qc) (l : list Qc) : float :=
  match l with
  | [] => NaN
  | x :: r => Some (foldl f x r)
  end.

(** The rows [i - window + 1 .. i] that exist. *)
Definition trailing {A} (window : nat) (l : list A) (i : nat) : list A :=
  drop (S i - window) (take (S i) l).

(** [s.rolling(window, min_periods=1).min()] and [.max()]: the extremum
    of the defined values among the trailing [window] rows, NaN when
    there is none. *)
Definition rolling_min (window : nat) (s : Series) : Series :=
  (fun i => reduce qmin (observations (trailing window s i))) <$> seq 0 (length s).
Definition rolling_max (window : nat) (s : Series) : Series :=
  (fun i => reduce qmax (observations (trailing window s i))) <$> seq 0 (length s).

(** [s.replace(0, 1)]. *)
Definition replace_0_1 (s : Series) : Series :=
  (fun x => if feqb x (fz 0) then fz 1 else x) <$> s.

(** Position of [s.first_valid_index()]. *)
Fixpoint first_valid_index (s : Series) : option nat :=
  match s with
  | [] => None
  | x :: r => if isna x then S <$> first_valid_index r else Some 0%nat
  end.

(** [s.ewm(span=span).mean()] with the library defaults [adjust=True],
    [ignore_na=False], [min_periods=0].  pandas is a library the services
    call, not part of the repository; this is the online loop it runs: a
    running mean [weighted], the weight [old_wt] it carries and the count
    [nobs] of observations, [com = (span - 1) / 2], [alpha = 1 / (1 + com)],
    and at least one observation before a value is put out. *)
Record ewm_state := { weighted : float; old_wt : Qc; nobs : nat }.

Definition ewm_alpha (span : positive) : Qc :=
  let com := (qz (Z.pos span) - 1) / qz 2 in
  1 / (1 + com).

Definition ewm_step (alpha : Qc) (st : ewm_state) (cur : float) : ewm_state :=
  let old_wt_factor := 1 - alpha in
  let new_wt := 1 in
  let nobs' := (nobs st + (if isna cur then 0 else 1))%nat in
  match weighted st with
  | Some w =>
      let ow := old_wt st * old_wt_factor in
      match cur with
      | Some c =>
          let w' := if decide (w = c) then w
                    else (ow * w + new_wt * c) / (ow + new_wt) in
          {| weighted := Some w'; old_wt := ow + new_wt; nobs := nobs' |}
      | None => {| weighted := Some w; old_wt := ow; nobs := nobs' |}
      end
  | None =>
      {| weighted := cur; old_wt := old_wt st; nobs := nobs' |}
  end.

Definition ewm_out (minp : nat) (st : ewm_state) : float :=
  if (minp <=? nobs st)%nat then weighted st else NaN.

Fixpoint ewm_loop (alpha : Qc) (minp : nat) (st : ewm_state) (vals : list float)
  : list float :=
  match vals with
  | [] => []
  | cur :: rest =>
      let st' := ewm_step alpha st cur in
      ewm_out minp st' :: ewm_loop alpha minp st' rest
  end.

Definition ewm_mean (span : positive) (vals : Series) : Series :=
  match vals with
  | [] => []
  | v0 :: rest =>
      let st0 := {| weighted := v0; old_wt := 1;
                    nobs := if isna v0 then 0 else 1 |} in
      ewm_out 1 st0 :: ewm_loop (ewm_alpha span) 1 st0 rest
  end.

End Pandas.

(** ** Bars *)

(** Row labels are timestamps, counted in seconds. *)
Definition Timestamp := Z.

Record Bar := {
  Date : Timestamp;
  Open : float;
  High : float;
  Low : float;
  Close : float;
  Volume : float
}.

Abbreviation DataFrame := (list Bar).

(** A dictionary that is either [{"error": msg}] or a regular result. *)
Inductive outcome (A : Type) :=
| Error (msg : string)
| Result (a : A).
Arguments Error {A} msg.
Arguments Result {A} a.

(** [df.empty]. *)
Definition empty (df : DataFrame) : bool :=
  match df with
  | [] => true
  | _ :: _ => false
  end.

Definition is_error {A} (o : outcome A) : bool :=
  match o with
  | Error _ => true
  | Result _ => false
  end.

(** ** technical_analysis.py *)

Module TechnicalAnalysis.
Import Pandas.

Definition column (f : Bar -> float) (df : DataFrame) : Series := f <$> df.

(** [round(float(s.iloc[-1]), n) if pd.notna(s.iloc[-1]) else None]; the
    series is never empty where this is used. *)
Definition latest (s : Series) (ndigits : nat) : float :=
  round (default NaN (last s)) ndigits.

Record MACD := {
  fast_period : positive;
  slow_period : positive;
  signal_period : positive;
  macd_line : Series;
  signal_line : Series;
  histogram : Series;
  macd_latest : float * float * float
}.

Definition calculate_macd (df : DataFrame) (fast slow signal : positive)
  : outcome MACD :=
  if empty df || (length df <? Pos.to_nat slow)%nat then
    Error "Insufficient data for MACD calculation"
  else
    let ema_fast := ewm_mean fast (column Close df) in
    let ema_slow := ewm_mean slow (column Close df) in
    let macd := sub ema_fast ema_slow in
    let sig := ewm_mean signal macd in
    let hist := sub macd sig in
    Result {| fast_period := fast; slow_period := slow; signal_period := signal;
              macd_line := macd; signal_line := sig; histogram := hist;
              macd_latest := (latest macd 4, latest sig 4, latest hist 4) |}.

Record KDJ := {
  k_period : positive;
  d_period : positive;
  j_period : positive;
  kdj_k : Series;
  kdj_d : Series;
  kdj_j : Series;
  kdj_latest : float * float * float
}.

(** The raw stochastic value of every row. *)
Definition rsv_series (df : DataFrame) (k_period : positive) : Series :=
  let low_min := rolling_min (Pos.to_nat k_period) (column Low df) in
  let high_max := rolling_max (Pos.to_nat k_period) (column High df) in
  let denominator := replace_0_1 (sub high_max low_min) in
  scale_r (div (sub (column Close df) low_min) denominator) (fz 100).

(** One round of the smoothing loop: rows [i] of K and D are overwritten
    from rows [i - 1]. *)
Definition smooth (rsv : Series) (kd : Series * Series) (i : nat)
  : Series * Series :=
  let k_values := kd.1 in
  let d_values := kd.2 in
  let k_values' :=
    <[i := fadd (fmul (fd 2 3) (k_values !!! (i - 1)%nat))
                (fmul (fd 1 3) (rsv !!! i))]> k_values in
  let d_values' :=
    <[i := fadd (fmul (fd 2 3) (d_values !!! (i - 1)%nat))
                (fmul (fd 1 3) (k_values' !!! i))]> d_values in
  (k_values', d_values').

Definition kd_series (rsv : Series) : Series * Series :=
  let k_values := replicate (length rsv) (fz 0) in
  let d_values := replicate (length rsv) (fz 0) in
  match first_valid_index rsv with
  | Some first_valid =>
      foldl (smooth rsv)
            (<[first_valid := fz 50]> k_values, <[first_valid := fz 50]> d_values)
            (seq (S first_valid) (length rsv - S first_valid))
  | None => (k_values, d_values)
  end.

Definition calculate_kdj (df : DataFrame) (k_period d_period j_period : positive)
  : outcome KDJ :=
  if empty df || (length df <? Pos.to_nat k_period)%nat then
    Error "Insufficient data for KDJ calculation"
  else
    let rsv := rsv_series df k_period in
    let kd := kd_series rsv in
    let j_values := sub (scale_l (fz 3) kd.1) (scale_l (fz 2) kd.2) in
    Result {| k_period := k_period; d_period := d_period; j_period := j_period;
              kdj_k := kd.1; kdj_d := kd.2; kdj_j := j_values;
              kdj_latest := (latest kd.1 2, latest kd.2 2, latest j_values 2) |}.

Definition calculate_all (df : DataFrame)
  : outcome (outcome MACD * outcome KDJ) :=
  if empty df then Error "No data provided for analysis"
  else Result (calculate_macd df 12 26 9, calculate_kdj df 9 3 3).

Definition get_macd_histogram_series (df : DataFrame) : option Series :=
  match calculate_macd df 12 26 9 with
  | Error _ => None
  | Result r => Some (histogram r)
  end.

Definition get_kdj_series (df : DataFrame) : option (Series * Series * Series) :=
  match calculate_kdj df 9 3 3 with
  | Error _ => None
  | Result r => Some (kdj_k r, kdj_d r, kdj_j r)
  end.

End TechnicalAnalysis.

(** ** signal_detector.py *)

Module SignalDetector.
Import Pandas.

Inductive SignalType := BUY | SELL | HOLD.

Record t := {
  kdj_buy_threshold : Z;
  kdj_sell_threshold : Z
}.

Definition init : t := {| kdj_buy_threshold := 20; kdj_sell_threshold := 80 |}.

(** [threshold if threshold is not None else default]. *)
Definition threshold_or (threshold : option float) (dflt : Z) : float :=
  match threshold with
  | Some th => th
  | None => fz dflt
  end.

Definition _check_buy_signal (self : t) (index : nat) (indicator : string)
    (macd_histogram kdj_k kdj_d : Series) (threshold : option float)
  : result bool :=
  if decide (lower indicator = "macd") then
    if (index <? 1)%nat then mret false
    else
      yesterday ← iloc macd_histogram (index - 1);
      today ← iloc macd_histogram index;
      if isna yesterday || isna today then mret false
      else mret (fltb yesterday (fz 0) && fgtb today (fz 0))
  else if decide (lower indicator = "kdj") then
    k_val ← iloc kdj_k index;
    d_val ← iloc kdj_d index;
    if isna k_val || isna d_val then mret false
    else
      let thresh := threshold_or threshold (kdj_buy_threshold self) in
      mret (fltb k_val thresh && fltb d_val thresh)
  else mret false.

Definition _check_sell_signal (self : t) (index : nat) (indicator : string)
    (macd_histogram kdj_k kdj_d : Series) (threshold : option float)
  : result bool :=
  if decide (lower indicator = "macd") then
    if (index <? 2)%nat then mret false
    else
      day_before_yesterday ← iloc macd_histogram (index - 2);
      yesterday ← iloc macd_histogram (index - 1);
      today ← iloc macd_histogram index;
      if isna day_before_yesterday || isna yesterday || isna today then mret false
      else
        let was_rising := fltb day_before_yesterday yesterday in
        let now_declining := fgtb yesterday today in
        let in_positive_territory := fgtb yesterday (fz 0) in
        mret (was_rising && now_declining && in_positive_territory)
  else if decide (lower indicator = "kdj") then
    k_val ← iloc kdj_k index;
    d_val ← iloc kdj_d index;
    if isna k_val || isna d_val then mret false
    else
      let thresh := threshold_or threshold (kdj_sell_threshold self) in
      mret (fgtb k_val thresh && fgtb d_val thresh)
  else mret false.

(** The loop of [generate_signals] over the row positions. *)
Fixpoint signal_loop (self : t) (buy_indicator sell_indicator : string)
    (macd_histogram kdj_k kdj_d : Series)
    (buy_threshold sell_threshold : option float)
    (rows : list nat) (buy_signals sell_signals : list Z)
  : result (list Z * list Z) :=
  match rows with
  | [] => mret (buy_signals, sell_signals)
  | i :: rest =>
      buy_signal ← _check_buy_signal self i buy_indicator
                      macd_histogram kdj_k kdj_d buy_threshold;
      sell_signal ← _check_sell_signal self i sell_indicator
                      macd_histogram kdj_k kdj_d sell_threshold;
      signal_loop self buy_indicator sell_indicator macd_histogram kdj_k kdj_d
        buy_threshold sell_threshold rest
        (buy_signals ++ [if buy_signal : bool then 1 else 0]%Z)
        (sell_signals ++ [if sell_signal : bool then 1 else 0]%Z)
  end.

Definition generate_signals (self : t) (df : DataFrame)
    (buy_indicator sell_indicator : string)
    (buy_threshold sell_threshold : option float)
  : result (list Z * list Z) :=
  let kd :=
    match TechnicalAnalysis.get_kdj_series df with
    | None => (nan_series (length df), nan_series (length df))
    | Some (k, d, _) => (k, d)
    end in
  let macd_histogram :=
    match TechnicalAnalysis.get_macd_histogram_series df with
    | None => nan_series (length df)
    | Some h => h
    end in
  signal_loop self buy_indicator sell_indicator macd_histogram kd.1 kd.2
    buy_threshold sell_threshold (seq 0 (length df)) [] [].

Section Reasoning.
(** Python's [str] of a float and of an int. *)
Context (str_float : Qc -> string) (str_int : Z -> string).

(** A slot of an f-string filled from [values.get(key, "N/A")]. *)
Definition slot (values : gmap string float) (key : string) : string :=
  match values !! key with
  | None => "N/A"
  | Some None => "None"
  | Some (Some q) => str_float q
  end.

Definition str_threshold (threshold : option float) (dflt : Z) : string :=
  match threshold with
  | Some (Some q) => str_float q
  | Some None => "nan"
  | None => str_int dflt
  end.

Definition _build_buy_reasoning (self : t) (indicator : string)
    (values : gmap string float) (threshold : option float) : string :=
  if decide (lower indicator = "macd") then
    "MACD golden cross: histogram crossed above zero (yesterday: "
      +:+ slot values "macd_histogram_yesterday" +:+ ", today: "
      +:+ slot values "macd_histogram_today" +:+ ")"
  else if decide (lower indicator = "kdj") then
    "KDJ oversold: K=" +:+ slot values "kdj_k" +:+ ", D="
      +:+ slot values "kdj_d" +:+ " (both below "
      +:+ str_threshold threshold (kdj_buy_threshold self) +:+ ")"
  else "Buy signal detected".

Definition _build_sell_reasoning (self : t) (indicator : string)
    (values : gmap string float) (threshold : option float) : string :=
  if decide (lower indicator = "macd") then
    "MACD peak detected: histogram peaked and declining (day before: "
      +:+ slot values "macd_histogram_day_before" +:+ ", yesterday: "
      +:+ slot values "macd_histogram_yesterday" +:+ ", today: "
      +:+ slot values "macd_histogram_today" +:+ ")"
  else if decide (lower indicator = "kdj") then
    "KDJ overbought: K=" +:+ slot values "kdj_k" +:+ ", D="
      +:+ slot values "kdj_d" +:+ " (both above "
      +:+ str_threshold threshold (kdj_sell_threshold self) +:+ ")"
  else "Sell signal detected".

(** [", ".join(parts)]. *)
Fixpoint join (sep : string) (parts : list string) : string :=
  match parts with
  | [] => ""
  | [p] => p
  | p :: rest => p +:+ sep +:+ join sep rest
  end.

Definition _build_hold_reasoning (buy_ind sell_ind : string)
    (values : gmap string float) : string :=
  let macd_part :=
    if bool_decide (lower buy_ind = "macd") || bool_decide (lower sell_ind = "macd")
    then ["MACD histogram: yesterday=" +:+ slot values "macd_histogram_yesterday"
            +:+ ", today=" +:+ slot values "macd_histogram_today"]
    else [] in
  let kdj_part :=
    if bool_decide (lower buy_ind = "kdj") || bool_decide (lower sell_ind = "kdj")
    then ["KDJ: K=" +:+ slot values "kdj_k" +:+ ", D=" +:+ slot values "kdj_d"]
    else [] in
  "No clear signal. " +:+ join ", " (macd_part ++ kdj_part).

Definition get_current_signal (self : t) (df : DataFrame)
    (buy_indicator sell_indicator : string)
    (buy_threshold sell_threshold : option float)
  : result (SignalType * string * gmap string float) :=
  if (length df <? 3)%nat then
    mret (HOLD, "Insufficient data for signal detection", ∅)
  else
    match TechnicalAnalysis.calculate_macd df 12 26 9,
          TechnicalAnalysis.calculate_kdj df 9 3 3 with
    | Result macd_result, Result kdj_result =>
        let macd_histogram := TechnicalAnalysis.histogram macd_result in
        let kdj_k := TechnicalAnalysis.kdj_k kdj_result in
        let kdj_d := TechnicalAnalysis.kdj_d kdj_result in
        let last_idx := (length df - 1)%nat in
        is_buy ← _check_buy_signal self last_idx buy_indicator
                   macd_histogram kdj_k kdj_d buy_threshold;
        is_sell ← _check_sell_signal self last_idx sell_indicator
                   macd_histogram kdj_k kdj_d sell_threshold;
        h_today ← iloc_neg macd_histogram 1;
        h_yesterday ← iloc_neg macd_histogram 2;
        k_last ← iloc_neg kdj_k 1;
        d_last ← iloc_neg kdj_d 1;
        let indicator_values : gmap string float :=
          <["kdj_d" := round d_last 2]>
          (<["kdj_k" := round k_last 2]>
          (<["macd_histogram_yesterday" := round h_yesterday 4]>
          (<["macd_histogram_today" := round h_today 4]> ∅))) in
        indicator_values ←
          (if (3 <=? length macd_histogram)%nat then
             h_before ← iloc_neg macd_histogram 3;
             mret (<["macd_histogram_day_before" := round h_before 4]>
                     indicator_values)
           else mret indicator_values);
        if (is_buy : bool) && (is_sell : bool) then
          mret (HOLD, "Conflicting signals from buy and sell indicators",
                indicator_values)
        else if is_buy then
          mret (BUY, _build_buy_reasoning self buy_indicator indicator_values
                       buy_threshold, indicator_values)
        else if is_sell then
          mret (SELL, _build_sell_reasoning self sell_indicator indicator_values
                        sell_threshold, indicator_values)
        else
          mret (HOLD, _build_hold_reasoning buy_indicator sell_indicator
                        indicator_values, indicator_values)
    | _, _ => mret (HOLD, "Error calculating indicators", ∅)
    end.
End Reasoning.

End SignalDetector.

(** ** core/config.py *)

Module settings.
Definition initial_balance : float := fz 10000.
Definition commission_rate : float := fd 1 1000.
Definition rate_limit_delay : float := fd 1 10.
Definition max_workers : Z := 20.
Definition batch_size : positive := 50.
End settings.

(** ** trading_simulator.py *)

Module TradingSimulator.

Record t := {
  initial_balance : float;
  commission_rate : float;
  signal_detector : SignalDetector.t
}.

Definition init : t :=
  {| initial_balance := settings.initial_balance;
     commission_rate := settings.commission_rate;
     signal_detector := SignalDetector.init |}.

(** The text stored under ["signal_date"].  [_format_date] is injective on
    timestamps, so the formatted text is represented by the timestamp it
    was made from. *)
Inductive DateText :=
| Formatted (d : Timestamp)
| NoneText
| EndOfPeriod.

Definition _format_date (date : option Timestamp) : DateText :=
  match date with
  | Some d => Formatted d
  | None => NoneText
  end.

(** The keys every trade dictionary has. *)
Record Fill := {
  signal_date : DateText;
  execution_date : Timestamp;
  signal_price : float;
  execution_price : float;
  shares : float;
  commission : float;
  balance_after : float
}.

(** The keys only a SELL has. *)
Record Closing := {
  proceeds : float;
  net_proceeds : float;
  profit_loss : float;
  profit_loss_percentage : float;
  hold_days : Z
}.

Inductive Trade :=
| Buy (f : Fill)
| Sell (f : Fill) (c : Closing).

Definition fill (tr : Trade) : Fill :=
  match tr with
  | Buy f => f
  | Sell f _ => f
  end.

Definition is_buy (tr : Trade) : bool :=
  match tr with
  | Buy _ => true
  | Sell _ _ => false
  end.
Definition is_sell (tr : Trade) : bool := negb (is_buy tr).

(** The local variables of [_execute_trades]; [held] is the source's
    [shares] and [signal_day] its [signal_date], the names the trade
    dictionaries already use for their keys. *)
Record State := {
  trades : list Trade;
  balance : float;
  held : float;
  position_open : bool;
  buy_price : float;
  buy_date : option Timestamp;
  pending_buy : bool;
  pending_sell : bool;
  signal_day : option Timestamp
}.

Definition start (self : t) : State :=
  {| trades := []; balance := initial_balance self; held := fz 0;
     position_open := false; buy_price := fz 0; buy_date := None;
     pending_buy := false; pending_sell := false; signal_day := None |}.

(** [(a - b).days] of two timestamps. *)
Definition days (a b : Timestamp) : Z := ((a - b) / 86400)%Z.

Definition days_since (current : Timestamp) (since : option Timestamp) : result Z :=
  match since with
  | Some d => Ok (days current d)
  | None => Raise TypeError
  end.

(** [trades[-1]["commission"]]. *)
Definition last_commission (trades : list Trade) : result float :=
  match last trades with
  | Some tr => Ok (commission (fill tr))
  | None => Raise IndexError
  end.

(** The SELL record of closing the position [st] at [price]. *)
Definition closing (self : t) (st : State) (current_date : Timestamp)
    (price : float) : result (float * Closing * float) :=
  let sell_value := fmul (held st) price in
  let fee := fmul sell_value (commission_rate self) in
  let net := fsub sell_value fee in
  buy_fee ← last_commission (trades st);
  let cost_basis := fadd (fmul (held st) (buy_price st)) buy_fee in
  let pl := fsub net cost_basis in
  let pl_pct := if fgtb cost_basis (fz 0)
                then fmul (fdiv pl cost_basis) (fz 100) else fz 0 in
  held_days ← days_since current_date (buy_date st);
  mret (fee,
        {| proceeds := round sell_value 2; net_proceeds := round net 2;
           profit_loss := round pl 2; profit_loss_percentage := round pl_pct 2;
           hold_days := held_days |},
        net).

(** The body of the loop at row [i]. *)
Definition step (self : t) (df : DataFrame) (buy_signals sell_signals : list Z)
    (st : State) (i : nat) : result State :=
  row ← of_option IndexError (df !! i);
  let current_date := Date row in
  b ← of_option IndexError (buy_signals !! i);
  if bool_decide (b = 1%Z) && negb (position_open st) && negb (pending_buy st) then
    mret {| trades := trades st; balance := balance st; held := held st;
            position_open := position_open st; buy_price := buy_price st;
            buy_date := buy_date st; pending_buy := true;
            pending_sell := pending_sell st; signal_day := Some current_date |}
  else
    s ← of_option IndexError (sell_signals !! i);
    if bool_decide (s = 1%Z) && position_open st && negb (pending_sell st) then
      mret {| trades := trades st; balance := balance st; held := held st;
              position_open := position_open st; buy_price := buy_price st;
              buy_date := buy_date st; pending_buy := pending_buy st;
              pending_sell := true; signal_day := Some current_date |}
    else if pending_buy st && (0 <? i)%nat then
      let price := Open row in
      let fee := fmul (balance st) (commission_rate self) in
      let bought := fdiv (fsub (balance st) fee) price in
      previous ← of_option IndexError (df !! (i - 1)%nat);
      mret {| trades := trades st ++
                [Buy {| signal_date := _format_date (signal_day st);
                        execution_date := current_date;
                        signal_price := round (Close previous) 2;
                        execution_price := round price 2;
                        shares := round bought 4;
                        commission := round fee 2;
                        balance_after := round (fsub (balance st) fee) 2 |}];
              balance := balance st; held := bought;
              position_open := true; buy_price := price;
              buy_date := Some current_date; pending_buy := false;
              pending_sell := pending_sell st; signal_day := signal_day st |}
    else if pending_sell st && (0 <? i)%nat then
      let price := Open row in
      '(fee, c, net) ← closing self st current_date price;
      previous ← of_option IndexError (df !! (i - 1)%nat);
      mret {| trades := trades st ++
                [Sell {| signal_date := _format_date (signal_day st);
                         execution_date := current_date;
                         signal_price := round (Close previous) 2;
                         execution_price := round price 2;
                         shares := round (held st) 4;
                         commission := round fee 2;
                         balance_after := round net 2 |} c];
              balance := net; held := fz 0;
              position_open := false; buy_price := buy_price st;
              buy_date := buy_date st; pending_buy := pending_buy st;
              pending_sell := false; signal_day := signal_day st |}
    else mret st.

(** The [for] loop over the given row positions. *)
Fixpoint loop (self : t) (df : DataFrame) (buy_signals sell_signals : list Z)
    (st : State) (rows : list nat) : result State :=
  match rows with
  | [] => mret st
  | i :: rest =>
      st' ← step self df buy_signals sell_signals st i;
      loop self df buy_signals sell_signals st' rest
  end.

(** "Close any remaining position at end of period". *)
Definition close_remaining (self : t) (df : DataFrame) (st : State)
  : result (list Trade * float) :=
  if position_open st then
    row ← of_option IndexError (last df);
    let current_price := Close row in
    let current_date := Date row in
    '(fee, c, net) ← closing self st current_date current_price;
    mret (trades st ++
            [Sell {| signal_date := EndOfPeriod;
                     execution_date := current_date;
                     signal_price := round current_price 2;
                     execution_price := round current_price 2;
                     shares := round (held st) 4;
                     commission := round fee 2;
                     balance_after := round net 2 |} c],
          net)
  else mret (trades st, balance st).

Definition _execute_trades (self : t) (df : DataFrame)
    (buy_signals sell_signals : list Z) : result (list Trade * float) :=
  st ← loop self df buy_signals sell_signals (start self) (seq 0 (length df));
  close_remaining self df st.

Record Statistics := {
  success_rate : float;
  avg_trade_frequency : float;
  total_profit : float;
  total_loss : float;
  avg_profit : float;
  avg_loss : float;
  max_profit : float;
  max_loss : float;
  avg_hold_days : float
}.

Definition _empty_statistics : Statistics :=
  {| success_rate := fz 0; avg_trade_frequency := fz 0; total_profit := fz 0;
     total_loss := fz 0; avg_profit := fz 0; avg_loss := fz 0;
     max_profit := fz 0; max_loss := fz 0; avg_hold_days := fz 0 |}.

(** The SELL entries of a log, as their two records. *)
Definition sell_trades (log : list Trade) : list (Fill * Closing) :=
  omap (fun tr => match tr with
                  | Sell f c => Some (f, c)
                  | Buy _ => None
                  end) log.

Definition fsum (l : list float) : float := foldl fadd (fz 0) l.
Definition flen {A} (l : list A) : float := fz (Z.of_nat (length l)).

(** [max(l)] and [min(l)] of a non-empty list of numbers. *)
Definition fmax (l : list float) : float :=
  match l with
  | [] => NaN
  | x :: r => foldl (fun a b => if fgtb b a then b else a) x r
  end.
Definition fmin (l : list float) : float :=
  match l with
  | [] => NaN
  | x :: r => foldl (fun a b => if fltb b a then b else a) x r
  end.

Definition _calculate_statistics (log : list Trade) (final_balance : float)
  : Statistics :=
  match log with
  | [] => _empty_statistics
  | first :: _ =>
      let sells := sell_trades log in
      match sells with
      | [] => _empty_statistics
      | _ :: _ =>
          let pls := (fun fc => profit_loss fc.2) <$> sells in
          let profits := filter (fun x => fgtb x (fz 0) = true) pls in
          let losses := filter (fun x => fltb x (fz 0) = true) pls in
          let rate := fmul (fdiv (flen profits) (flen sells)) (fz 100) in
          let frequency :=
            if (2 <=? length log)%nat then
              let first_date := execution_date (fill first) in
              let last_date := execution_date (fill (default first (last log))) in
              fdiv (fz (days last_date first_date)) (flen sells)
            else fz 0 in
          let held_for :=
            filter (fun n => (0 < n)%Z) ((fun fc => hold_days fc.2) <$> sells) in
          let avg_held :=
            match held_for with
            | [] => fz 0
            | _ => fdiv (fz (foldl Z.add 0%Z held_for)) (flen held_for)
            end in
          let or_zero (l : list float) (v : float) : float :=
            match l with [] => fz 0 | _ => v end in
          {| success_rate := round rate 2;
             avg_trade_frequency := round frequency 2;
             total_profit := round (fsum profits) 2;
             total_loss := round (fsum losses) 2;
             avg_profit := or_zero profits (round (fdiv (fsum profits) (flen profits)) 2);
             avg_loss := or_zero losses (round (fdiv (fsum losses) (flen losses)) 2);
             max_profit := or_zero profits (round (fmax profits) 2);
             max_loss := or_zero losses (round (fmin losses) 2);
             avg_hold_days := round avg_held 1 |}
      end
  end.

Record Summary := {
  summary_initial_balance : float;
  final_balance : float;
  total_return : float;
  return_percentage : float;
  total_trades : nat;
  summary_success_rate : float;
  avg_days_between_trades : float;
  buy_indicator : string;
  sell_indicator : string
}.

Record Simulation := {
  trading_summary : Summary;
  trade_log : list Trade;
  statistics : Statistics
}.

(** [gain / self.initial_balance].  The balance is a plain Python float
    as long as no trade touched it, and dividing such a float by zero
    raises; once a trade is made the figures are numpy scalars. *)
Definition gain_ratio (log : list Trade) (gain initial : float) : result float :=
  match log with
  | [] => if feqb initial (fz 0) then Raise ZeroDivisionError
          else Ok (fdiv gain initial)
  | _ :: _ => Ok (fdiv gain initial)
  end.

(** [simulate] returns the simulator object next to its answer, so that
    what the call does to the object can be stated. *)
Definition simulate (self : t) (df : DataFrame)
    (buy_indicator sell_indicator : string)
    (buy_threshold sell_threshold : option float)
  : result (t * outcome Simulation) :=
  if empty df || (length df <? 50)%nat then
    mret (self, Error "Insufficient data for trading simulation (need >= 50 data points)")
  else
    '(buy_signals, sell_signals) ←
      SignalDetector.generate_signals (signal_detector self) df
        buy_indicator sell_indicator buy_threshold sell_threshold;
    '(log, final) ← _execute_trades self df buy_signals sell_signals;
    let stats := _calculate_statistics log final in
    let gain := fsub final (initial_balance self) in
    ratio ← gain_ratio log gain (initial_balance self);
    mret (self, Result
      {| trading_summary :=
           {| summary_initial_balance := initial_balance self;
              final_balance := round final 2;
              total_return := round gain 2;
              return_percentage :=
                round (fmul ratio (fz 100)) 2;
              total_trades := length log;
              summary_success_rate := success_rate stats;
              avg_days_between_trades := avg_trade_frequency stats;
              buy_indicator := buy_indicator;
              sell_indicator := sell_indicator |};
         trade_log := log;
         statistics := stats |}).

End TradingSimulator.

(** ** market_scanner.py: exclude rules and sorting *)

Module MarketScanner.

(** The values found in result and rule dictionaries: [None], a number
    (an int, or a float other than NaN), a text, and the float NaN, which
    a simulation hands out for a figure computed from a missing price. *)
Inductive pyval :=
| PNone
| PNum (q : Qc)
| PStr (s : string)
| PNaN.

(** [bool(v)]. *)
Definition truthy (v : pyval) : bool :=
  match v with
  | PNone => false
  | PNum q => negb (bool_decide (q = 0))
  | PStr s => negb (bool_decide (s = ""))
  | PNaN => true
  end.

(** [a or b]. *)
Definition py_or (a b : pyval) : pyval := if truthy a then a else b.

(** [d.get(key)] and [d.get(key, dflt)] for string-keyed [d]. *)
Definition get (d : gmap string pyval) (key : pyval) : pyval :=
  match key with
  | PStr s => default PNone (d !! s)
  | _ => PNone
  end.
Definition get_or (d : gmap string pyval) (key : string) (dflt : pyval) : pyval :=
  default dflt (d !! key).

(** [a < b] and [a <= b]; numbers with numbers, text with text.  A
    comparison with NaN is false. *)
Definition py_lt (a b : pyval) : result bool :=
  match a, b with
  | PNum x, PNum y => Ok (bool_decide (x < y))
  | PNum _, PNaN | PNaN, PNum _ | PNaN, PNaN => Ok false
  | PStr s, PStr u => Ok (String.ltb s u)
  | _, _ => Raise TypeError
  end.
Definition py_le (a b : pyval) : result bool :=
  match a, b with
  | PNum x, PNum y => Ok (bool_decide (x <= y))
  | PNum _, PNaN | PNaN, PNum _ | PNaN, PNaN => Ok false
  | PStr s, PStr u => Ok (String.leb s u)
  | _, _ => Raise TypeError
  end.
(** [a == b]; NaN equals nothing, not even itself. *)
Definition py_eq (a b : pyval) : bool :=
  match a, b with
  | PNone, PNone => true
  | PNum x, PNum y => bool_decide (x = y)
  | PStr s, PStr u => bool_decide (s = u)
  | _, _ => false
  end.

Record ScanResult := {
  stock : string;
  trading_summary : option (gmap string pyval);
  statistics : option (gmap string pyval)
}.

(** [result.get(key, {})]. *)
Definition section (d : option (gmap string pyval)) : gmap string pyval :=
  default ∅ d.

Definition _evaluate_condition (field_value operator value : pyval) : bool :=
  let answer :=
    if py_eq operator (PStr "<") then py_lt field_value value
    else if py_eq operator (PStr ">") then py_lt value field_value
    else if py_eq operator (PStr "<=") then py_le field_value value
    else if py_eq operator (PStr ">=") then py_le value field_value
    else if py_eq operator (PStr "==") then Ok (py_eq field_value value)
    else if py_eq operator (PStr "!=") then Ok (negb (py_eq field_value value))
    else Ok false in
  match answer with
  | Ok b => b
  | Raise _ => false
  end.

(** The inner loop over the rules: [true] when it leaves through
    [exclude = True; break]. *)
Fixpoint excluded (summary stats : gmap string pyval)
    (rules : list (gmap string pyval)) : bool :=
  match rules with
  | [] => false
  | rule :: rest =>
      let field := get_or rule "field" (PStr "") in
      let operator := get_or rule "operator" (PStr "") in
      let value := get_or rule "value" (PNum 0) in
      let field_value := py_or (get summary field) (get stats field) in
      match field_value with
      | PNone => excluded summary stats rest
      | _ =>
          if _evaluate_condition field_value operator value then true
          else excluded summary stats rest
      end
  end.

Definition _apply_exclude_rules (results : list ScanResult)
    (rules : list (gmap string pyval)) : list ScanResult :=
  List.filter
    (fun r => negb (excluded (section (trading_summary r))
                             (section (statistics r)) rules))
    results.

(** A sort rule is a [Dict[str, str]]. *)
Definition default_sort_rules : list (gmap string string) :=
  [ <["field" := "return_percentage"]> (<["order" := "desc"]> ∅) ].

Definition negate (v : pyval) : pyval :=
  match v with
  | PNum q => PNum (- q)
  | _ => v
  end.

Definition get_sort_key (sort_rules : list (gmap string string))
    (item : ScanResult) : list pyval :=
  let summary := section (trading_summary item) in
  let stats := section (statistics item) in
  (fun rule : gmap string string =>
     let field := default "" (rule !! "field") in
     let order := lower (default "desc" (rule !! "order")) in
     let value := py_or (py_or (get summary (PStr field)) (get stats (PStr field)))
                        (PNum 0) in
     if decide (order = "desc") then negate value else value) <$> sort_rules.

(** [a < b] on tuples: decided at the first position where they differ.
    (CPython takes an object for equal to itself without asking [==];
    this shows on NaN only, and the keys of two results are different
    objects.) *)
Fixpoint tuple_lt (a b : list pyval) : result bool :=
  match a, b with
  | [], [] => Ok false
  | [], _ :: _ => Ok true
  | _ :: _, [] => Ok false
  | x :: a', y :: b' => if py_eq x y then tuple_lt a' b' else py_lt x y
  end.

(** [sorted(items, key=...)]: the stable sort, as insertion of every item
    in front of the first one that is not smaller.  The order in which
    the library compares pairs is not modelled; a comparison that raises
    makes the whole sort raise.  Where [<] is a strict weak order on the
    keys, as it is on tuples of numbers, every stable sort returns this
    list.  With NaN in a key it is not, what the library returns then
    depends on the pairs it compares, and nothing is stated about it:
    the statements on sorting ask for keys made of numbers. *)
Fixpoint insert_sorted {A} (x : list pyval * A) (l : list (list pyval * A))
  : result (list (list pyval * A)) :=
  match l with
  | [] => Ok [x]
  | y :: rest =>
      smaller ← tuple_lt y.1 x.1;
      if smaller : bool then
        rest' ← insert_sorted x rest;
        mret (y :: rest')
      else mret (x :: l)
  end.

Fixpoint sort_keyed {A} (l : list (list pyval * A))
  : result (list (list pyval * A)) :=
  match l with
  | [] => Ok []
  | x :: rest =>
      rest' ← sort_keyed rest;
      insert_sorted x rest'
  end.

Definition sorted {A} (items : list A) (key : A -> list pyval) : result (list A) :=
  l ← sort_keyed ((fun x => (key x, x)) <$> items);
  mret (snd <$> (l : list (list pyval * A))).

Definition _apply_sorting (results : list ScanResult)
    (sort_rules : option (list (gmap string string))) : result (list ScanResult) :=
  match results with
  | [] => mret results
  | _ :: _ =>
      let sort_rules :=
        match sort_rules with
        | None | Some [] => default_sort_rules
        | Some rules => rules
        end in
      sorted results (get_sort_key sort_rules)
  end.

End MarketScanner.

(** ** stock_fetcher.py *)

Module StockFetcher.

Definition get_market_cap_category (market_cap : float) : string :=
  if fgeb market_cap (fz 200000000000) then "mega_cap"
  else if fgeb market_cap (fz 10000000000) then "large_cap"
  else if fgeb market_cap (fz 2000000000) then "mid_cap"
  else if fgeb market_cap (fz 300000000) then "small_cap"
  else "micro_cap".

(** The keys of [ticker.info] that are read: [None] for a key that is
    missing, [Some None] for a key that holds [None]. *)
Record TickerInfo := {
  marketCap : option (option float);
  longName : option (option string);
  info_sector : option (option string);
  info_industry : option (option string)
}.

(** The dictionary of a checked stock; a text key holds [None] when the
    key of [ticker.info] it is read from does. *)
Record CapInfo := {
  symbol : string;
  market_cap : float;
  category : string;
  name : option string;
  sector : option string;
  industry : option string
}.

(** [bool(x)] of a number. *)
Definition nonzero (x : float) : bool := negb (feqb x (fz 0)).

(** [info] is what [yf.Ticker(symbol).info] gave, [None] when it raised. *)
Definition check_market_cap (symbol : string) (info : option TickerInfo)
  : option CapInfo :=
  match info with
  | None => None
  | Some info =>
      match default (Some (fz 0)) (marketCap info) with
      | None => None
      | Some market_cap =>
          if nonzero market_cap && fgtb market_cap (fz 0) then
            Some {| symbol := symbol;
                    market_cap := market_cap;
                    category := get_market_cap_category market_cap;
                    name := default (Some symbol) (longName info);
                    sector := default (Some "N/A") (info_sector info);
                    industry := default (Some "N/A") (info_industry info) |}
          else None
      end
  end.

(** An element of a category list: the dictionary of a checked stock,
    [{"symbol": symbol}], or anything else a cache file may hold. *)
Inductive entry :=
| Checked (result : CapInfo)
| Unchecked (symbol : string)
| Other.

Record Summary := {
  total_stocks : nat;
  successful_checks : nat;
  failed_checks : nat;
  categories : gmap string nat
}.

Record Data := {
  summary : Summary;
  stocks : gmap string (list entry);
  last_updated : string
}.

(** [categorized[key].append(x)]; [None] stands for the [KeyError] of a
    missing key. *)
Definition append (key : string) (x : entry) (categorized : gmap string (list entry))
  : option (gmap string (list entry)) :=
  l ← categorized !! key;
  Some (<[key := l ++ [x]]> categorized).

(** The body of the loop over the completed futures, for the future of
    [symbol] whose task saw [info]: the [try] block, then the handler. *)
Definition record_future
    (st : gmap string (list entry) * nat * nat)
    (job : string * option TickerInfo)
  : option (gmap string (list entry) * nat * nat) :=
  let '(categorized, successful, failed) := st in
  let symbol := job.1 in
  let tried :=
    match check_market_cap symbol job.2 with
    | Some result =>
        categorized' ← append (category result) (Checked result) categorized;
        Some (categorized', S successful, failed)
    | None =>
        categorized' ← append "uncategorized" (Unchecked symbol) categorized;
        Some (categorized', successful, S failed)
    end in
  match tried with
  | Some st' => Some st'
  | None =>
      categorized' ← append "uncategorized" (Unchecked symbol) categorized;
      Some (categorized', successful, S failed)
  end.

Fixpoint record_futures
    (st : gmap string (list entry) * nat * nat)
    (completed : list (string * option TickerInfo))
  : option (gmap string (list entry) * nat * nat) :=
  match completed with
  | [] => Some st
  | job :: rest => st' ← record_future st job; record_futures st' rest
  end.

Definition no_stocks : gmap string (list entry) :=
  <["mega_cap" := []]> (<["large_cap" := []]> (<["mid_cap" := []]>
  (<["small_cap" := []]> (<["micro_cap" := []]> (<["uncategorized" := []]> ∅))))).

(** [completed] lists the futures in the order in which they complete,
    each with its symbol and what its task saw; [now] is the formatted
    current time. *)
Definition categorize_stocks (symbols : list string)
    (completed : list (string * option TickerInfo)) (now : string)
  : option Data :=
  '(categorized, successful, failed) ← record_futures (no_stocks, 0%nat, 0%nat) completed;
  Some {| summary := {| total_stocks := length symbols;
                        successful_checks := successful;
                        failed_checks := failed;
                        categories := length <$> categorized |};
          stocks := categorized;
          last_updated := now |}.

Definition required_categories : list string :=
  ["mega_cap"; "large_cap"; "mid_cap"; "small_cap"; "micro_cap"].

(** On a document that is a dictionary with the keys "summary" and
    "stocks". *)
Definition _validate_data (data : Data) : bool :=
  forallb (fun cat => bool_decide (is_Some (stocks data !! cat)))
          required_categories.

(** [[s["symbol"] for s in stocks if isinstance(s, dict) and "symbol" in s]]. *)
Definition symbol_of (s : entry) : option string :=
  match s with
  | Checked result => Some (symbol result)
  | Unchecked symbol => Some symbol
  | Other => None
  end.
Definition symbols_of (stocks : list entry) : list string := omap symbol_of stocks.

Section Cache.
(** What [load_from_json] returns while the cache file is left alone, and
    what [update_stocks_database] returns when there is no usable cache. *)
Context (load_from_json : option Data) (update_stocks_database : outcome Data).

(** The data after the [if not data] block; [None] for [return []]. *)
Definition database : option Data :=
  match load_from_json with
  | Some data => Some data
  | None =>
      match update_stocks_database with
      | Error _ => None
      | Result data => Some data
      end
  end.

Definition get_stocks_by_category (category : string) : list string :=
  match database with
  | None => []
  | Some data => symbols_of (default [] (stocks data !! category))
  end.

Definition get_all_stocks : list string :=
  match database with
  | None => []
  | Some data =>
      foldl (fun all_symbols category =>
               all_symbols ++ symbols_of (default [] (stocks data !! category)))
            [] required_categories
  end.

Definition get_large_cap_stocks : list string :=
  get_stocks_by_category "mega_cap" ++ get_stocks_by_category "large_cap".

(** The symbols one entry of [categories] stands for. *)
Definition symbols_for (category : string) : list string :=
  if decide (category = "all") then get_all_stocks
  else if decide (category = "large_cap") then get_large_cap_stocks
  else get_stocks_by_category category.

(** The inner loop: [symbol] is added unless it was seen. *)
Definition add_unseen (acc : list string * gset string) (symbol : string)
  : list string * gset string :=
  let '(all_symbols, seen) := acc in
  if decide (symbol ∈ seen) then acc
  else (all_symbols ++ [symbol], {[symbol]} ∪ seen).

Definition get_stocks_by_categories (categories : list string) : list string :=
  (foldl (fun acc category => foldl add_unseen acc (symbols_for category))
         ([], ∅) categories).1.
End Cache.

End StockFetcher.

(** ** yfinance, as seen by the services *)

(** What a call of [ticker.history] does: it returns a data frame, or
    raises an exception whose [str] is [message]. *)
Inductive fetched :=
| Frame (df : DataFrame)
| Throws (message : string).

(** ** market_scanner.py: the scan *)

Module Scan.
Import MarketScanner.

Record t := {
  trading_simulator : TradingSimulator.t;
  max_workers : Z;
  batch_size : positive;
  rate_limit_delay : float;
  timeout : Z;
  max_retries : nat;
  retry_delay : float
}.

Definition init : t :=
  {| trading_simulator := TradingSimulator.init;
     max_workers := settings.max_workers;
     batch_size := settings.batch_size;
     rate_limit_delay := settings.rate_limit_delay;
     timeout := 30;
     max_retries := 3;
     retry_delay := fz 2 |}.

Definition _adjust_rate_limiting (self : t) (num_stocks : nat) : t :=
  if (1000 <? num_stocks)%nat then
    {| trading_simulator := trading_simulator self;
       max_workers := 10; batch_size := 25; rate_limit_delay := fd 2 10;
       timeout := timeout self; max_retries := max_retries self;
       retry_delay := retry_delay self |}
  else if (500 <? num_stocks)%nat then
    {| trading_simulator := trading_simulator self;
       max_workers := 15; batch_size := 35; rate_limit_delay := fd 15 100;
       timeout := timeout self; max_retries := max_retries self;
       retry_delay := retry_delay self |}
  else
    {| trading_simulator := trading_simulator self;
       max_workers := settings.max_workers;
       batch_size := settings.batch_size;
       rate_limit_delay := settings.rate_limit_delay;
       timeout := timeout self; max_retries := max_retries self;
       retry_delay := retry_delay self |}.

(** *** One stock *)

(** [str.upper] on ASCII text. *)
Definition upper_ascii (c : ascii) : ascii :=
  let n := nat_of_ascii c in
  if (97 <=? n)%nat && (n <=? 122)%nat then ascii_of_nat (n - 32) else c.
Fixpoint upper (s : string) : string :=
  match s with
  | EmptyString => EmptyString
  | String c r => String (upper_ascii c) (upper r)
  end.

(** [needle in text]. *)
Definition contains (needle text : string) : bool :=
  match String.index 0 needle text with
  | Some _ => true
  | None => false
  end.

(** What a scan of one stock does to the outside. *)
Inductive event :=
| Sleep (seconds : float)
| History (symbol : string).

(** The dictionary of a scanned stock: the simulation without its
    trades, with the symbol. *)
Record Scanned := {
  scanned_stock : string;
  scanned_summary : TradingSimulator.Summary;
  scanned_statistics : TradingSimulator.Statistics
}.

Section Single.
(** [str(e)] of an exception of the simulator, and what [ticker.history]
    does at each attempt. *)
Context (str_exn : exn -> string) (history : nat -> fetched).

(** The [try] block of one attempt: the value it returns, or the [str]
    of the exception it raises. *)
Definition attempt_once (self : t) (symbol buy_indicator sell_indicator : string)
    (buy_threshold sell_threshold : option float) (attempt : nat)
  : string + outcome Scanned :=
  match history attempt with
  | Throws message => inl message
  | Frame df =>
      if empty df || (length df <? 50)%nat then
        inr (Error ("Insufficient data for " +:+ symbol))
      else
        match TradingSimulator.simulate (trading_simulator self) df
                buy_indicator sell_indicator buy_threshold sell_threshold with
        | Raise e => inl (str_exn e)
        | Ok (_, Error msg) => inr (Error msg)
        | Ok (_, Result result) =>
            inr (Result
                   {| scanned_stock := upper symbol;
                      scanned_summary := TradingSimulator.trading_summary result;
                      scanned_statistics := TradingSimulator.statistics result |})
        end
  end.

(** The [for attempt in range(self.max_retries)] loop over the attempts
    that are left; [trace] is what happened so far. *)
Fixpoint retry (self : t) (symbol buy_indicator sell_indicator : string)
    (buy_threshold sell_threshold : option float)
    (attempts : list nat) (trace : list event)
  : list event * outcome Scanned :=
  match attempts with
  | [] =>
      (trace,
       Error ("Failed to scan " +:+ symbol +:+ " after "
                +:+ pretty (max_retries self) +:+ " attempts"))
  | attempt :: rest =>
      let trace := trace ++ [Sleep (rate_limit_delay self); History symbol] in
      match attempt_once self symbol buy_indicator sell_indicator
              buy_threshold sell_threshold attempt with
      | inr answer => (trace, answer)
      | inl message =>
          let error_msg := lower message in
          if (contains "rate limit" error_msg
              || contains "too many requests" error_msg)
             && (attempt <? max_retries self - 1)%nat
          then
            retry self symbol buy_indicator sell_indicator
              buy_threshold sell_threshold rest
              (trace ++ [Sleep (retry_delay self)])
          else
            (trace, Error ("Error scanning " +:+ symbol +:+ ": " +:+ message))
      end
  end.

Definition _scan_single_stock (self : t) (symbol buy_indicator sell_indicator : string)
    (buy_threshold sell_threshold : option float)
  : list event * outcome Scanned :=
  retry self symbol buy_indicator sell_indicator buy_threshold sell_threshold
    (seq 0 (max_retries self)) [].
End Single.

(** *** Batches *)

(** What [future.result] gives for a completed future: the value the
    task returned ([None] for [None] or an empty dictionary), or an
    exception. *)
Inductive future :=
| Returned (result : option (outcome ScanResult))
| Raised.

(** [result["trading_summary"]["total_trades"] >= min_trades]; [None]
    when a key is missing or the comparison raises. *)
Definition enough_trades (result : ScanResult) (min_trades : Z) : option bool :=
  summary ← trading_summary result;
  total ← summary !! "total_trades";
  match py_le (PNum (qz min_trades)) total with
  | Ok b => Some b
  | Raise _ => None
  end.

(** The body of the loop over the completed futures. *)
Definition collect (min_trades : Z) (acc : list ScanResult * nat * nat)
    (finished : string * future) : list ScanResult * nat * nat :=
  let '(results, successful, failed) := acc in
  match finished.2 with
  | Returned (Some (Result result)) =>
      match enough_trades result min_trades with
      | Some true => (results ++ [result], S successful, failed)
      | Some false => (results, successful, S failed)
      | None => (results, successful, S failed)
      end
  | Returned (Some (Error _)) => (results, successful, S failed)
  | Returned None => (results, successful, S failed)
  | Raised => (results, successful, S failed)
  end.

(** [completed] lists the futures of the batch in the order in which
    they complete, each with its symbol. *)
Definition _scan_batch (self : t) (completed : list (string * future))
    (min_trades : Z) : list ScanResult * nat * nat :=
  foldl (collect min_trades) ([], 0%nat, 0%nat) completed.

(** [range(0, stop, step)]. *)
Definition range_by (stop : nat) (step : positive) : list nat :=
  (fun j => j * Pos.to_nat step)%nat
    <$> seq 0 ((stop + Pos.to_nat step - 1) / Pos.to_nat step).

(** [l[i:i + n]]. *)
Definition slice {A} (l : list A) (i n : nat) : list A := take n (drop i l).

(** The answer of a scan. *)
Record ScanSummary := {
  total_stocks_scanned : nat;
  successful_scans : nat;
  failed_scans : nat;
  stocks_after_filters : nat;
  criteria_buy_indicator : string;
  criteria_sell_indicator : string;
  criteria_period : string;
  criteria_interval : string;
  criteria_min_trades : Z
}.

Record Report := {
  scan_summary : ScanSummary;
  top_stocks : list string;
  top_results : list ScanResult
}.

Section Executor.
(** The completed futures of the batch that starts at a given position. *)
Context (completed : nat -> list string -> list (string * future)).

Definition _scan_stocks (self : t) (stocks : list string) (min_trades : Z)
  : list ScanResult * nat * nat :=
  if (Pos.to_nat (batch_size self) <? length stocks)%nat then
    foldl (fun acc i =>
             let '(results, successful, failed) := acc in
             let batch := slice stocks i (Pos.to_nat (batch_size self)) in
             let '(batch_results, batch_success, batch_failed) :=
               _scan_batch self (completed i batch) min_trades in
             (results ++ batch_results,
              (successful + batch_success)%nat,
              (failed + batch_failed)%nat))
          ([], 0%nat, 0%nat)
          (range_by (length stocks) (batch_size self))
  else _scan_batch self (completed 0%nat stocks) min_trades.

(** *** The scan *)

Context (load_from_json : option StockFetcher.Data)
        (update_stocks_database : outcome StockFetcher.Data).

Definition _get_stocks_to_scan (stock_list market_cap : option (list string))
  : list string :=
  match stock_list with
  | Some (s :: l) => s :: l
  | _ =>
      match market_cap with
      | Some (c :: l) =>
          StockFetcher.get_stocks_by_categories load_from_json
            update_stocks_database (c :: l)
      | _ =>
          StockFetcher.get_large_cap_stocks load_from_json update_stocks_database
      end
  end.

Definition valid_indicators : list string := ["macd"; "kdj"].

(** [scan] returns the scanner object next to its answer. *)
Definition scan (self : t) (buy_indicator sell_indicator period interval : string)
    (buy_threshold sell_threshold : option float) (min_trades : Z)
    (stock_list market_cap : option (list string)) (top_n : Z)
    (exclude_rules : option (list (gmap string pyval)))
    (sort_rules : option (list (gmap string string)))
  : result (t * outcome Report) :=
  if negb (bool_decide (lower buy_indicator ∈ valid_indicators)) then
    mret (self, Error "Invalid buy indicator. Must be one of: ['macd', 'kdj']")
  else if negb (bool_decide (lower sell_indicator ∈ valid_indicators)) then
    mret (self, Error "Invalid sell indicator. Must be one of: ['macd', 'kdj']")
  else
    let stocks_to_scan := _get_stocks_to_scan stock_list market_cap in
    match stocks_to_scan with
    | [] => mret (self, Error "No stocks to scan")
    | _ :: _ =>
        let self := _adjust_rate_limiting self (length stocks_to_scan) in
        let '(results, successful, failed) :=
          _scan_stocks self stocks_to_scan min_trades in
        let results :=
          match exclude_rules with
          | Some (rule :: rules) => _apply_exclude_rules results (rule :: rules)
          | _ => results
          end in
        results ← _apply_sorting results sort_rules;
        let results :=
          if (0 <? top_n)%Z then take (Z.to_nat top_n) results else results in
        let top_stocks := stock <$> results in
        mret (self, Result
          {| scan_summary :=
               {| total_stocks_scanned := length stocks_to_scan;
                  successful_scans := successful;
                  failed_scans := failed;
                  stocks_after_filters := length results;
                  criteria_buy_indicator := buy_indicator;
                  criteria_sell_indicator := sell_indicator;
                  criteria_period := period;
                  criteria_interval := interval;
                  criteria_min_trades := min_trades |};
             top_stocks := top_stocks;
             top_results := results |})
    end.
End Executor.

End Scan.

(** ** api/v1/endpoints/trading_signals.py *)

Module TradingSignals.
Import Pandas SignalDetector.

(** [SignalType.value]. *)
Definition value (s : SignalType) : string :=
  match s with
  | BUY => "BUY"
  | SELL => "SELL"
  | HOLD => "HOLD"
  end.

Record TradingSignalsRequest := {
  stocks : list string;
  buy_indicator : string;
  sell_indicator : string;
  buy_threshold : option float;
  sell_threshold : option float;
  period : string
}.

(** An element of ["signals"]; [error] and [last_updated] are keys only
    some of the dictionaries have, [current_price] is [None] in the
    dictionary of a failed analysis. *)
Record SignalData := {
  stock : string;
  signal : string;
  error : option string;
  current_price : option float;
  indicators : gmap string float;
  reasoning : string;
  last_updated : option Timestamp
}.

Record SignalsSummary := {
  total_stocks : nat;
  buy_signals : nat;
  sell_signals : nat;
  hold_signals : nat;
  failed_analyses : nat
}.

Record Signals := {
  timestamp : string;
  signals_buy_indicator : string;
  signals_sell_indicator : string;
  signals_buy_threshold : option float;
  signals_sell_threshold : option float;
  signals_period : string;
  signals : list SignalData;
  summary : SignalsSummary
}.

Section Endpoint.
(** Python's [str] of a float, of an int and of an exception of the
    detector; the module-level detector; what [ticker.history] does for
    the stock at a position of the request. *)
Context (str_float : Qc -> string) (str_int : Z -> string)
        (str_exn : exn -> string)
        (signal_detector : SignalDetector.t)
        (history : nat -> string -> fetched).

(** The value [_analyze_stock] returns, or the [str] of the exception it
    raises; [position] is the place of the stock in the request. *)
Definition _analyze_stock (position : nat) (stock buy_indicator sell_indicator : string)
    (buy_threshold sell_threshold : option float) (period : string)
  : string + SignalData :=
  match history position stock with
  | Throws message => inl message
  | Frame df =>
      if empty df then inl ("No data available for " +:+ stock)
      else
        match iloc_neg (TechnicalAnalysis.column Close df) 1 with
        | Raise e => inl (str_exn e)
        | Ok price =>
            match get_current_signal str_float str_int signal_detector df
                    buy_indicator sell_indicator buy_threshold sell_threshold with
            | Raise e => inl (str_exn e)
            | Ok (signal_type, reasoning, indicators) =>
                inr {| stock := stock;
                       signal := value signal_type;
                       error := None;
                       current_price := Some (round price 2);
                       indicators := indicators;
                       reasoning := reasoning;
                       last_updated := Date <$> last df |}
            end
        end
  end.

(** The body of the loop over [request.stocks]. *)
Definition analyze (request : TradingSignalsRequest)
    (results : list SignalData * SignalsSummary) (job : nat * string)
  : list SignalData * SignalsSummary :=
  let '(signals, summary) := results in
  let stock := job.2 in
  match _analyze_stock job.1 stock (buy_indicator request) (sell_indicator request)
          (buy_threshold request) (sell_threshold request) (period request) with
  | inr signal_data =>
      (signals ++ [signal_data],
       if decide (signal signal_data = "BUY") then
         {| total_stocks := total_stocks summary;
            buy_signals := S (buy_signals summary);
            sell_signals := sell_signals summary;
            hold_signals := hold_signals summary;
            failed_analyses := failed_analyses summary |}
       else if decide (signal signal_data = "SELL") then
         {| total_stocks := total_stocks summary;
            buy_signals := buy_signals summary;
            sell_signals := S (sell_signals summary);
            hold_signals := hold_signals summary;
            failed_analyses := failed_analyses summary |}
       else if decide (signal signal_data = "HOLD") then
         {| total_stocks := total_stocks summary;
            buy_signals := buy_signals summary;
            sell_signals := sell_signals summary;
            hold_signals := S (hold_signals summary);
            failed_analyses := failed_analyses summary |}
       else
         {| total_stocks := total_stocks summary;
            buy_signals := buy_signals summary;
            sell_signals := sell_signals summary;
            hold_signals := hold_signals summary;
            failed_analyses := S (failed_analyses summary) |})
  | inl message =>
      (signals ++
         [{| stock := stock;
             signal := "ERROR";
             error := Some message;
             current_price := None;
             indicators := ∅;
             reasoning := "Failed to analyze " +:+ stock +:+ ": " +:+ message;
             last_updated := None |}],
       {| total_stocks := total_stocks summary;
          buy_signals := buy_signals summary;
          sell_signals := sell_signals summary;
          hold_signals := hold_signals summary;
          failed_analyses := S (failed_analyses summary) |})
  end.

(** [now] is [datetime.now().isoformat()]. *)
Definition get_current_trading_signals (request : TradingSignalsRequest)
    (now : string) : Signals :=
  let results :=
    foldl (analyze request)
      ([], {| total_stocks := length (stocks request);
              buy_signals := 0; sell_signals := 0; hold_signals := 0;
              failed_analyses := 0 |})
      (imap (fun position stock => (position, stock)) (stocks request)) in
  {| timestamp := now;
     signals_buy_indicator := buy_indicator request;
     signals_sell_indicator := sell_indicator request;
     signals_buy_threshold := buy_threshold request;
     signals_sell_threshold := sell_threshold request;
     signals_period := period request;
     signals := results.1;
     summary := results.2 |}.
End Endpoint.

(** The number of entries of a given kind. *)
Definition count (kind : string) (signals : list SignalData) : nat :=
  length (filter (fun s => signal s = kind) signals).

End TradingSignals.

(** ** Vocabulary of the trade-log statements *)

Module TradeLog.
Import TradingSimulator.

Section Run.
Context (self : t) (df : DataFrame) (buy_signals sell_signals : list Z).

(** The loop state once the first [n] rows have been processed. *)
Definition run (n : nat) : result State :=
  loop self df buy_signals sell_signals (start self) (seq 0 n).

(** Buying with the whole balance of [st] at [price]: what the entry
    [tr] records and the state [st'] it leaves. *)
Definition bought_at (st : State) (price : float) (tr : Trade) (st' : State)
  : Prop :=
  let fee := fmul (balance st) (commission_rate self) in
  let bought := fdiv (fsub (balance st) fee) price in
  is_buy tr = true
  /\ shares (fill tr) = round bought 4
  /\ commission (fill tr) = round fee 2
  /\ balance_after (fill tr) = round (fsub (balance st) fee) 2
  /\ held st' = bought /\ buy_price st' = price /\ balance st' = balance st.

(** Selling the shares held in [st] at [price]: what the entry [tr]
    records and the balance [net] it leaves. *)
Definition sold_at (st : State) (price : float) (tr : Trade) (net : float)
  : Prop :=
  let sell_value := fmul (held st) price in
  let fee := fmul sell_value (commission_rate self) in
  exists f c buy_fee,
    tr = Sell f c
    /\ net = fsub sell_value fee
    /\ shares f = round (held st) 4
    /\ commission f = round fee 2
    /\ balance_after f = round net 2
    /\ proceeds c = round sell_value 2
    /\ net_proceeds c = round net 2
    /\ last_commission (trades st) = Ok buy_fee
    /\ profit_loss c
       = round (fsub net (fadd (fmul (held st) (buy_price st)) buy_fee)) 2.

(** [tr] is the fill of an order raised at row [i]: it is made at row
    [i + 1], at the open price of that row, and its entry records that
    price rounded to two decimals. *)
Definition filled_after (i : nat) (tr : Trade) : Prop :=
  exists sig_row ex_row,
    df !! i = Some sig_row /\ df !! S i = Some ex_row /\
    signal_date (fill tr) = Formatted (Date sig_row) /\
    execution_date (fill tr) = Date ex_row /\
    execution_price (fill tr) = round (Open ex_row) 2 /\
    exists st st',
      run (S i) = Ok st /\ run (S (S i)) = Ok st' /\
      trades st' = trades st ++ [tr] /\
      (bought_at st (Open ex_row) tr st'
       \/ sold_at st (Open ex_row) tr (balance st')).

(** A BUY that answers a buy signal raised while flat, no buy pending. *)
Definition signalled_buy (tr : Trade) : Prop :=
  exists i st,
    is_buy tr = true /\ run i = Ok st /\
    buy_signals !! i = Some 1%Z /\
    position_open st = false /\ pending_buy st = false /\
    filled_after i tr.

(** A SELL that answers a sell signal raised while a position is open. *)
Definition signalled_sell (tr : Trade) : Prop :=
  exists i st,
    is_sell tr = true /\ run i = Ok st /\
    sell_signals !! i = Some 1%Z /\
    position_open st = true /\ pending_sell st = false /\
    filled_after i tr.

(** The SELL that closes, at the close price of the last row, a position
    still open when the rows are exhausted; it answers no signal. *)
Definition forced_close (tr : Trade) : Prop :=
  exists st last_row,
    is_sell tr = true /\ run (length df) = Ok st /\
    position_open st = true /\ last df = Some last_row /\
    signal_date (fill tr) = EndOfPeriod /\
    execution_date (fill tr) = Date last_row /\
    execution_price (fill tr) = round (Close last_row) 2 /\
    exists final,
      _execute_trades self df buy_signals sell_signals
        = Ok (trades st ++ [tr], final)
      /\ sold_at st (Close last_row) tr final.
End Run.

(** BUY entries minus SELL entries. *)
Definition net_position (log : list Trade) : Z :=
  (Z.of_nat (length (List.filter is_buy log))
   - Z.of_nat (length (List.filter is_sell log)))%Z.

(** What the loop maintains after [n] rows. *)
Record invariant (self : t) (df : DataFrame) (buy_signals sell_signals : list Z)
    (n : nat) (st : State) : Prop := {
  inv_sell_needs_position : pending_sell st = true -> position_open st = true;
  inv_buy_needs_flat : pending_buy st = true -> position_open st = false;
  inv_entry :
    position_open st = true ->
    (exists d, buy_date st = Some d) /\ (exists tr, last (trades st) = Some tr);
  inv_net :
    net_position (trades st) = if position_open st then 1%Z else 0%Z;
  inv_prefix :
    forall m, net_position (take m (trades st)) = 0%Z
              \/ net_position (take m (trades st)) = 1%Z;
  inv_origin :
    Forall (fun tr => signalled_buy self df buy_signals sell_signals tr
                      \/ signalled_sell self df buy_signals sell_signals tr)
           (trades st);
  inv_pending_buy :
    pending_buy st = true ->
    exists i st0 row,
      n = S i /\ run self df buy_signals sell_signals i = Ok st0 /\
      df !! i = Some row /\ signal_day st = Some (Date row) /\
      buy_signals !! i = Some 1%Z /\
      position_open st0 = false /\ pending_buy st0 = false;
  inv_pending_sell :
    pending_sell st = true ->
    exists i st0 row,
      n = S i /\ run self df buy_signals sell_signals i = Ok st0 /\
      df !! i = Some row /\ signal_day st = Some (Date row) /\
      sell_signals !! i = Some 1%Z /\
      position_open st0 = true /\ pending_sell st0 = false
}.

End TradeLog.

(** ** Vocabulary of the indicator statements *)

Module Ewm.

(** [f 0 + ... + f (n - 1)]. *)
Fixpoint qsum (f : nat -> Qc) (n : nat) : Qc :=
  match n with
  | O => 0
  | S n' => qsum f n' + f n'
  end.

(** The smoothing factor [2 / (span + 1)]. *)
Definition smoothing (span : positive) : Qc := qz 2 / (qz (Z.pos span) + 1).

(** The weight of the observation [i] rows back. *)
Definition weight (alpha : Qc) (i : nat) : Qc := (1 - alpha) ^ i.

(** The exponentially weighted mean of [xs[0..t]]:
    [(x_t + (1-a) x_(t-1) + ... + (1-a)^t x_0) / (1 + (1-a) + ... + (1-a)^t)]. *)
Definition weighted_mean (alpha : Qc) (xs : list Qc) (t : nat) : Qc :=
  qsum (fun i => weight alpha i * nth (t - i) xs 0) (S t)
  / qsum (weight alpha) (S t).

Definition mean_series (alpha : Qc) (xs : list Qc) : list Qc :=
  weighted_mean alpha xs <$> seq 0 (length xs).

(** The recurrence [y_0 = x_0], [y_t = (1 - a) y_(t-1) + a x_t]. *)
Fixpoint recurrence_from (alpha : Qc) (prev : Qc) (xs : list Qc) : list Qc :=
  match xs with
  | [] => []
  | x :: rest =>
      let y := (1 - alpha) * prev + alpha * x in
      y :: recurrence_from alpha y rest
  end.
Definition recurrence (alpha : Qc) (xs : list Qc) : list Qc :=
  match xs with
  | [] => []
  | x0 :: rest => x0 :: recurrence_from alpha x0 rest
  end.

(** MACD line, signal line and histogram built from a given moving
    average [ema span xs]. *)
Definition macd_from (ema : positive -> list Qc -> list Qc)
    (fast slow signal : positive) (closes : list Qc)
  : list Qc * list Qc * list Qc :=
  let line := zip_with Qcminus (ema fast closes) (ema slow closes) in
  let sig := ema signal line in
  (line, sig, zip_with Qcminus line sig).

End Ewm.

Module Kdj.

(** [m] is the least (greatest) defined value of the window [w], or NaN
    when the window has no defined value. *)
Definition least_of (w : list float) (m : float) : Prop :=
  match m with
  | Some q => In (Some q) w /\ forall x, In (Some x) w -> q <= x
  | None => forall x, ~ In (Some x) w
  end.
Definition greatest_of (w : list float) (m : float) : Prop :=
  match m with
  | Some q => In (Some q) w /\ forall x, In (Some x) w -> x <= q
  | None => forall x, ~ In (Some x) w
  end.

(** A denominator, 1 in place of 0. *)
Definition clamp (x : float) : float := if feqb x (fz 0) then fz 1 else x.

(** [(close - lo) / clamp (hi - lo) * 100]. *)
Definition rsv_of (close lo hi : float) : float :=
  fmul (fdiv (fsub close lo) (clamp (fsub hi lo))) (fz 100).

(** One step of the 2/3 - 1/3 smoothing. *)
Definition smoothed (previous current : float) : float :=
  fadd (fmul (fd 2 3) previous) (fmul (fd 1 3) current).

End Kdj.

(** ** Vocabulary of the filtering and sorting statements *)

Module Ranking.
Import MarketScanner.

(** Modelled from the spec: a field of a result is looked up in the
    summary, then in the statistics, and is 0 when both lack it. *)
Definition field_value (r : ScanResult) (field : string) : pyval :=
  match section (trading_summary r) !! field with
  | Some v => v
  | None => default (PNum 0) (section (statistics r) !! field)
  end.

Definition number (v : pyval) : Qc :=
  match v with
  | PNum q => q
  | _ => 0
  end.


(** The number a result is ranked by on a field, as the key function
    reads it: the entry of the summary unless that is missing or zero,
    else the entry of the statistics, and 0 when that is missing too. *)
Definition rank_value (r : ScanResult) (field : string) : Qc :=
  let x := number (default (PNum 0) (section (trading_summary r) !! field)) in
  if decide (x = 0)
  then number (default (PNum 0) (section (statistics r) !! field))
  else x.

Definition rule_field (rule : gmap string string) : string :=
  default "" (rule !! "field").

Definition descending (rule : gmap string string) : bool :=
  bool_decide (lower (default "desc" (rule !! "order")) = "desc").

(** The rules in force when [sort_rules] is what the caller passed. *)
Definition rules_in_force (sort_rules : option (list (gmap string string)))
  : list (gmap string string) :=
  match sort_rules with
  | None | Some [] => default_sort_rules
  | Some rules => rules
  end.

(** [a] may stand before [b] when fields are valued by [value]: the first
    rule on which they differ puts [a] first. *)
Fixpoint precedes_by (value : ScanResult -> string -> Qc)
    (rules : list (gmap string string)) (a b : ScanResult) : Prop :=
  match rules with
  | [] => True
  | rule :: rest =>
      let x := value a (rule_field rule) in
      let y := value b (rule_field rule) in
      (if descending rule then y < x else x < y)
      \/ (x = y /\ precedes_by value rest a b)
  end.

(** The order of the key function, and the order of the spec. *)
Definition precedes : list (gmap string string) -> ScanResult -> ScanResult -> Prop :=
  precedes_by rank_value.

(** The results that can be compared: a field the rules name holds a
    number (not NaN, not a text, not [None]) wherever it is present. *)
Definition numeric_at (r : ScanResult) (field : string) : Prop :=
  (forall v, section (trading_summary r) !! field = Some v -> exists q, v = PNum q)
  /\ (forall v, section (statistics r) !! field = Some v -> exists q, v = PNum q).

Definition sortable (rules : list (gmap string string)) (r : ScanResult) : Prop :=
  forall rule, In rule rules -> numeric_at r (rule_field rule).


(** The numbers the items are compared by, one per rule. *)
Definition ranks (rules : list (gmap string string)) (r : ScanResult) : list Qc :=
  (fun rule => let x := rank_value r (rule_field rule) in
               if descending rule then - x else x) <$> rules.

(** Lexicographic [<] on lists of numbers. *)
Fixpoint lex_lt (a b : list Qc) : bool :=
  match a, b with
  | [], [] => false
  | [], _ :: _ => true
  | _ :: _, [] => false
  | x :: a', y :: b' => if decide (x = y) then lex_lt a' b' else bool_decide (x < y)
  end.

(** [a] does not come after [b]. *)
Definition not_after (a b : list Qc) : Prop := lex_lt b a = false.

Definition sort_rule (field order : string) : gmap string string :=
  <["field" := field]> (<["order" := order]> ∅).

Definition exclude_rule (field operator : string) (value : Qc)
  : gmap string pyval :=
  <["field" := PStr field]>
    (<["operator" := PStr operator]> (<["value" := PNum value]> ∅)).

End Ranking.

(** ** Vocabulary of the signal statements *)

Module Signals.
Import Pandas SignalDetector.

(** The list entry [1 if signal else 0]. *)
Definition flag (b : bool) : Z := if b then 1%Z else 0%Z.

(** The series [generate_signals] hands to the per-row checks: those of
    the indicator engine, or NaN in every row when it reports an error. *)
Definition histogram_input (df : DataFrame) : Series :=
  match TechnicalAnalysis.get_macd_histogram_series df with
  | None => nan_series (length df)
  | Some h => h
  end.
Definition kd_input (df : DataFrame) : Series * Series :=
  match TechnicalAnalysis.get_kdj_series df with
  | None => (nan_series (length df), nan_series (length df))
  | Some (k, d, _) => (k, d)
  end.

(** The two per-row checks on these series. *)
Definition buy_at (self : t) (df : DataFrame) (indicator : string)
    (threshold : option float) (i : nat) : result bool :=
  _check_buy_signal self i indicator (histogram_input df)
    (kd_input df).1 (kd_input df).2 threshold.
Definition sell_at (self : t) (df : DataFrame) (indicator : string)
    (threshold : option float) (i : nat) : result bool :=
  _check_sell_signal self i indicator (histogram_input df)
    (kd_input df).1 (kd_input df).2 threshold.

End Signals.

(** ** Vocabulary of the range statements *)

Module Bars.

(** A bar whose low, close and high are defined and in this order. *)
Definition well_formed (row : Bar) : Prop :=
  exists lo c hi : Qc,
    Low row = Some lo /\ Close row = Some c /\ High row = Some hi
    /\ lo <= c /\ c <= hi.

(** [x] is defined and lies in [[lo, hi]]. *)
Definition within (lo hi : Z) (x : float) : Prop :=
  exists q : Qc, x = Some q /\ qz lo <= q /\ q <= qz hi.

End Bars.

(** ** Vocabulary of the ledger statements *)

Module Ledger.
Import TradingSimulator.

(** How the cash variable of the loop relates to the log: untouched as
    long as nothing was sold, and after a SELL the net proceeds that the
    SELL records (rounded) as its balance. *)
Definition settled (self : t) (log : list Trade) (cash : float) : Prop :=
  match last log with
  | None => cash = initial_balance self
  | Some (Buy _) => False
  | Some (Sell f c) =>
      balance_after f = round cash 2 /\ net_proceeds c = round cash 2
  end.

(** The state of the loop between two rows: flat and settled, or holding
    a position that the last log entry, a BUY, opened. *)
Definition consistent (self : t) (st : State) : Prop :=
  if position_open st then
    exists f, last (trades st) = Some (Buy f)
  else settled self (trades st) (balance st).

End Ledger.

(** ** Vocabulary of the exclusion statements *)

Module Filtering.
Import MarketScanner.

(** The value a rule is evaluated on: the one of the summary unless it
    is missing, zero or empty, else the one of the statistics. *)
Definition seen (r : ScanResult) (field : pyval) : pyval :=
  py_or (get (section (trading_summary r)) field)
        (get (section (statistics r)) field).

(** The rule applies to the result and its condition holds. *)
Definition fires (rule : gmap string pyval) (r : ScanResult) : bool :=
  match seen r (get_or rule "field" (PStr "")) with
  | PNone => false
  | field_value =>
      _evaluate_condition field_value (get_or rule "operator" (PStr ""))
        (get_or rule "value" (PNum 0))
  end.

(** The comparison an operator stands for. *)
Definition compares (operator : string) (x v : Qc) : Prop :=
  (operator = "<" /\ x < v) \/ (operator = ">" /\ v < x)
  \/ (operator = "<=" /\ x <= v) \/ (operator = ">=" /\ v <= x)
  \/ (operator = "==" /\ x = v) \/ (operator = "!=" /\ x <> v).

End Filtering.

(** ** Vocabulary of the stock-list statements *)

Module Buckets.
Import StockFetcher.

(** The keys of the ["stocks"] dictionary. *)
Definition all_categories : list string :=
  required_categories ++ ["uncategorized"].

Definition bucket (stocks : gmap string (list entry)) (category : string)
  : list entry :=
  default [] (stocks !! category).

(** Everything filed under the given categories, category by category. *)
Definition filed (stocks : gmap string (list entry)) (categories : list string)
  : list entry :=
  concat (bucket stocks <$> categories).

(** The size class a category name stands for. *)
Definition size_class (category : string) : nat :=
  if decide (category = "mega_cap") then 4
  else if decide (category = "large_cap") then 3
  else if decide (category = "mid_cap") then 2
  else if decide (category = "small_cap") then 1
  else 0.

(** A list without the repetitions of its elements: each element stays
    where it occurs first. *)
Fixpoint first_occurrences (l : list string) : list string :=
  match l with
  | [] => []
  | x :: rest => x :: filter (fun y => y <> x) (first_occurrences rest)
  end.

(** Where the future of a job is filed, and as what: under the category
    of the market cap when the check gave a result, under
    "uncategorized" with the bare symbol otherwise. *)
Definition filed_as (job : string * option TickerInfo) : string * entry :=
  match check_market_cap job.1 job.2 with
  | Some result => (get_market_cap_category (market_cap result), Checked result)
  | None => ("uncategorized", Unchecked job.1)
  end.

(** The entries of the jobs filed under [category], in the order of the
    jobs. *)
Definition placed (category : string) (jobs : list (string * option TickerInfo))
  : list entry :=
  omap (fun job => if decide ((filed_as job).1 = category)
                   then Some (filed_as job).2 else None) jobs.

(** What the loop over the futures maintains once the jobs [processed]
    are done. *)
Record filing (c : gmap string (list entry)) (successful failed : nat)
    (processed : list (string * option TickerInfo)) : Prop := {
  filing_keys : forall k, is_Some (c !! k) <-> k ∈ all_categories;
  filing_symbols :
    symbols_of (filed c all_categories) ≡ₚ fst <$> processed;
  filing_successful : successful = length (filed c required_categories);
  filing_failed : failed = length (bucket c "uncategorized");
  filing_checked :
    forall k e, k ∈ required_categories -> e ∈ bucket c k ->
      exists r, e = Checked r /\ category r = k
                /\ category r = get_market_cap_category (market_cap r)
                /\ fgtb (market_cap r) (fz 0) = true;
  filing_unchecked :
    forall e, e ∈ bucket c "uncategorized" -> exists s, e = Unchecked s;
  filing_placed : forall k, bucket c k = placed k processed
}.

End Buckets.

(** ** Vocabulary of the scan statements *)

Module Batches.
Import MarketScanner Scan.

(** The batches [_scan_stocks] goes through, each with the position it
    starts at. *)
Definition batches (self : t) (stocks : list string) : list (nat * list string) :=
  if (Pos.to_nat (batch_size self) <? length stocks)%nat then
    (fun i => (i, slice stocks i (Pos.to_nat (batch_size self))))
      <$> range_by (length stocks) (batch_size self)
  else [(0%nat, stocks)].

(** A future that counts as a successful scan: it returned a result
    without error that has at least [min_trades] trades. *)
Definition accepted (min_trades : Z) (f : future) : option ScanResult :=
  match f with
  | Returned (Some (Result result)) =>
      match enough_trades result min_trades with
      | Some true => Some result
      | _ => None
      end
  | _ => None
  end.

(** The results a batch contributes, in the order in which its futures
    complete. *)
Definition kept (completed : nat -> list string -> list (string * future))
    (min_trades : Z) (ib : nat * list string) : list ScanResult :=
  omap (fun d => accepted min_trades d.2) (completed ib.1 ib.2).

(** The number of [History] events of a trace. *)
Definition is_fetch (e : event) : bool :=
  match e with
  | History _ => true
  | Sleep _ => false
  end.
Definition fetches (trace : list event) : nat :=
  length (List.filter is_fetch trace).

(** The message is one the scanner takes for throttling. *)
Definition throttled (message : string) : bool :=
  contains "rate limit" (lower message)
  || contains "too many requests" (lower message).

End Batches.

(** ** Sample data *)

Module Samples.
Import MarketScanner Ranking.

Definition day (i : nat) : Timestamp := (Z.of_nat i * 86400)%Z.

(** Daily quotes with three decimals. *)
Definition quote (i : nat) : Bar :=
  let z := Z.of_nat i in
  {| Date := day i;
     Open := fd (10123 + 7 * z) 1000;
     High := fd (11000 + 2 * z) 1000;
     Low := fd (9000 + z) 1000;
     Close := fd (10000 + (13 * z * z) mod 370) 1000;
     Volume := fz 1000 |}.

Definition quotes (n : nat) : DataFrame := quote <$> seq 0 n.

(** The same quotes, the low of the first day missing. *)
Definition gapped_quotes (n : nat) : DataFrame :=
  match quotes n with
  | [] => []
  | first :: rest =>
      {| Date := Date first; Open := Open first; High := High first;
         Low := NaN; Close := Close first; Volume := Volume first |} :: rest
  end.

(** [n] flags, raised at the given rows. *)
Definition flags (n : nat) (rows : list nat) : list Z :=
  (fun i => if bool_decide (i ∈ rows) then 1%Z else 0%Z) <$> seq 0 n.

(** Fifty days; buy signals on days 1 and 20, a sell signal on day 5. *)
Definition fifty_days : DataFrame := quotes 50.
Definition buy_flags : list Z := flags 50 [1%nat; 20%nat].
Definition sell_flags : list Z := flags 50 [5%nat].

(** A single buy signal, on the last of the fifty days. *)
Definition late_buy_flags : list Z := flags 50 [49%nat].
Definition no_flags : list Z := flags 50 [].

(** A textual form of numbers, for the explanations. *)
Definition show_float (q : Qc) : string :=
  pretty (Qnum q) +:+ "/" +:+ pretty (Z.pos (Qden q)).
Definition show_int (z : Z) : string := pretty z.

Definition scan_result (name : string) (gain rate : Qc) : ScanResult :=
  {| stock := name;
     trading_summary :=
       Some (<["return_percentage" := PNum gain]>
               (<["success_rate" := PNum rate]>
                  (<["total_trades" := PNum (qz 4)]> ∅)));
     statistics :=
       Some (<["success_rate" := PNum rate]>
               (<["avg_profit" := PNum (qz 12)]> ∅)) |}.

Definition losing : ScanResult := scan_result "AAA" (qd (-31) 10) (qz 25).
Definition flat : ScanResult := scan_result "BBB" (qz 0) (qz 50).
Definition modest : ScanResult := scan_result "CCC" (qd 52 10) (qz 50).
Definition winning : ScanResult := scan_result "DDD" (qz 15) (qz 75).


End Samples.

(** ** More sample data *)

Module Cases.
Import MarketScanner Samples.

(** A day on which the price did not move. *)
Definition quiet_day (i : nat) : Bar :=
  {| Date := day i; Open := fz 10; High := fz 10; Low := fz 10;
     Close := fz 10; Volume := fz 1000 |}.
Definition quiet_days (n : nat) : DataFrame := quiet_day <$> seq 0 n.

(** Three days, none of them with a buy signal. *)
Definition three_days : DataFrame := quotes 3.
Definition three_zeros : list Z := [0; 0; 0]%Z.
Definition sell_on_day_one : list Z := [0; 1; 0]%Z.

(** Histories: one that is always throttled, one that arrives. *)
Definition throttling (attempt : nat) : fetched :=
  Throws "429 Client Error: Too Many Requests".
Definition delivering (attempt : nat) : fetched := Frame fifty_days.
Definition delivering_to (position : nat) (stock : string) : fetched :=
  Frame (quotes 10).

(** A text for the exceptions. *)
Definition exn_text (e : exn) : string :=
  match e with
  | IndexError => "single positional indexer is out-of-bounds"
  | TypeError => "unsupported operand type(s)"
  | ZeroDivisionError => "float division by zero"
  end.

(** Every task completes and returns a result with four trades. *)
Definition returning (i : nat) (batch : list string)
  : list (string * Scan.future) :=
  (fun s => (s, Scan.Returned (Some (Result (scan_result s (qz 5) (qz 50))))))
    <$> batch.

(** A result whose summary names the indicator it was made with. *)
Definition macd_trader : ScanResult :=
  {| stock := "EEE";
     trading_summary :=
       Some (<["return_percentage" := PNum (qz 5)]>
               (<["total_trades" := PNum (qz 4)]>
                  (<["buy_indicator" := PStr "macd"]> ∅)));
     statistics := Some ∅ |}.

Definition two_stocks : list string := ["AAA"; "BBB"].

(** What the checks of two stocks saw, the second one completing first:
    a cap of 50 billion, and an exception. *)
Definition two_checks : list (string * option StockFetcher.TickerInfo) :=
  [("BBB", None);
   ("AAA", Some {| StockFetcher.marketCap := Some (Some (fz 50000000000));
                   StockFetcher.longName := Some (Some "Triple A");
                   StockFetcher.info_sector := None;
                   StockFetcher.info_industry := Some None |})].

Definition two_requested : TradingSignals.TradingSignalsRequest :=
  {| TradingSignals.stocks := two_stocks;
     TradingSignals.buy_indicator := "macd";
     TradingSignals.sell_indicator := "macd";
     TradingSignals.buy_threshold := None;
     TradingSignals.sell_threshold := None;
     TradingSignals.period := "1mo" |}.

End Cases.

(** * Moving averages *)

Module PandasFacts.
Import Pandas.

Lemma ewm_loop_length (alpha : Qc) (minp : nat) (st : ewm_state) (vals : list float) :
  length (ewm_loop alpha minp st vals) = length vals.
Proof.
  revert st. induction vals as [|v vals IH]; intros st; simpl; [done|].
  by rewrite IH.
Qed.

Lemma ewm_mean_length (span : positive) (vals : list float) :
  length (ewm_mean span vals) = length vals.
Proof.
  destruct vals as [|v vals]; simpl; [done|]. by rewrite ewm_loop_length.
Qed.

Lemma sub_length (a b : list float) :
  length a = length b -> length (sub a b) = length a.
Proof. intros H. unfold sub. rewrite length_zip_with. lia. Qed.

(** The guard [df.empty or len(df) < n] lets [n > 0] rows through. *)
Lemma enough_rows (df : DataFrame) (n : nat) :
  (0 < n)%nat -> (n <= length df)%nat ->
  empty df || (length df <? n)%nat = false.
Proof.
  intros Hpos Hlen. apply orb_false_iff. split.
  - destruct df; [simpl in Hlen; lia | done].
  - apply Nat.ltb_ge. lia.
Qed.

Lemma too_few_rows (df : DataFrame) (n : nat) :
  (length df < n)%nat -> empty df || (length df <? n)%nat = true.
Proof. intros Hlen. apply orb_true_iff. right. by apply Nat.ltb_lt. Qed.

Lemma rolling_min_length (w : nat) (s : list float) :
  length (rolling_min w s) = length s.
Proof. unfold rolling_min. by rewrite length_fmap, length_seq. Qed.

Lemma rolling_max_length (w : nat) (s : list float) :
  length (rolling_max w s) = length s.
Proof. unfold rolling_max. by rewrite length_fmap, length_seq. Qed.

End PandasFacts.

Module EwmFacts.
Import Pandas Ewm.

Lemma qsum_ext (f g : nat -> Qc) (n : nat) :
  (forall i, (i < n)%nat -> f i = g i) -> qsum f n = qsum g n.
Proof.
  induction n as [|n IH]; intros H; simpl; [done|].
  rewrite IH by (intros; apply H; lia). rewrite H by lia. done.
Qed.

Lemma qsum_shift (f : nat -> Qc) (n : nat) :
  qsum f (S n) = f O + qsum (fun i => f (S i)) n.
Proof.
  induction n as [|n IH]; [simpl; ring|].
  change (qsum f (S (S n))) with (qsum f (S n) + f (S n)).
  rewrite IH. simpl. ring.
Qed.

Lemma qsum_scale (c : Qc) (f : nat -> Qc) (n : nat) :
  qsum (fun i => c * f i) n = c * qsum f n.
Proof. induction n as [|n IH]; simpl; [ring|]. rewrite IH. ring. Qed.

Section Weights.
Context (alpha : Qc) (xs : list Qc).
Let r := 1 - alpha.
Let num (t : nat) := qsum (fun i => weight alpha i * nth (t - i) xs 0) (S t).
Let den (t : nat) := qsum (weight alpha) (S t).

Lemma weight_S (i : nat) : weight alpha (S i) = r * weight alpha i.
Proof. unfold weight. simpl. done. Qed.

Lemma den_S (t : nat) : den (S t) = r * den t + 1.
Proof.
  unfold den. rewrite (qsum_shift _ (S t)).
  rewrite (qsum_ext (fun i => weight alpha (S i)) (fun i => r * weight alpha i))
    by (intros; apply weight_S).
  rewrite qsum_scale. unfold weight at 1. simpl. ring.
Qed.

Lemma num_S (t : nat) : num (S t) = r * num t + nth (S t) xs 0.
Proof.
  unfold num. rewrite (qsum_shift _ (S t)).
  rewrite (qsum_ext (fun i => weight alpha (S i) * nth (S t - S i) xs 0)
                    (fun i => r * (weight alpha i * nth (t - i) xs 0))).
  2:{ intros i _. rewrite weight_S. simpl. ring. }
  rewrite qsum_scale. unfold weight at 1. simpl. ring.
Qed.

Hypothesis r_nonneg : 0 <= r.

Lemma den_pos (t : nat) : 0 < den t.
Proof.
  induction t as [|t IH].
  - unfold den. simpl. unfold weight. simpl. by vm_compute.
  - rewrite den_S. apply Qcplus_nonneg_pos; [|by vm_compute].
    rewrite <- (Qcmult_0_l (den t)).
    apply Qcmult_le_compat_r; [done|]. by apply Qclt_le_weak.
Qed.

(** One round of the online loop keeps the running mean and weight. *)
Lemma ewm_step_mean (t : nat) (st : ewm_state) :
  weighted st = Some (num t / den t) ->
  old_wt st = den t ->
  (1 <= nobs st)%nat ->
  let st' := ewm_step alpha st (Some (nth (S t) xs 0)) in
  weighted st' = Some (num (S t) / den (S t))
  /\ old_wt st' = den (S t) /\ (1 <= nobs st')%nat.
Proof.
  intros Hw Ho Hn. unfold ewm_step. rewrite Hw, Ho. simpl.
  pose proof (den_pos t) as Hd. pose proof (den_pos (S t)) as Hd'.
  assert (den t <> 0) by (intros E; rewrite E in Hd; by vm_compute in Hd).
  assert (den (S t) <> 0) by (intros E; rewrite E in Hd'; by vm_compute in Hd').
  assert (Hden : den t * (1 - alpha) + 1 = den (S t))
    by (rewrite den_S; unfold r; ring).
  split; [|split; [done | lia]].
  f_equal. rewrite Hden.
  case_decide as Heq.
  - rewrite num_S, <- Heq. rewrite den_S in *. unfold r in *. field. done.
  - rewrite num_S. rewrite den_S in *. unfold r in *. field. done.
Qed.

Lemma ewm_loop_mean (ys : list Qc) (t : nat) (st : ewm_state) :
  drop (S t) xs = ys ->
  weighted st = Some (num t / den t) ->
  old_wt st = den t ->
  (1 <= nobs st)%nat ->
  ewm_loop alpha 1 st (Some <$> ys)
  = (fun j => Some (num j / den j)) <$> seq (S t) (length ys).
Proof.
  revert t st. induction ys as [|y ys IH]; intros t st Hdrop Hw Ho Hn; [done|].
  assert (Hy : nth (S t) xs 0 = y).
  { rewrite <- (take_drop (S t) xs) at 1. rewrite Hdrop.
    assert (length xs = (S t + length (y :: ys))%nat).
    { rewrite <- Hdrop, length_drop.
      assert (length (drop (S t) xs) > 0)%nat by (rewrite Hdrop; simpl; lia).
      rewrite length_drop in *. lia. }
    rewrite app_nth2; rewrite length_take; [|lia].
    replace (S t - S t `min` length xs)%nat with 0%nat by lia. done. }
  destruct (ewm_step_mean t st Hw Ho Hn) as (Hw' & Ho' & Hn').
  rewrite Hy in *.
  simpl. f_equal.
  - unfold ewm_out. destruct (ewm_step alpha st (Some y)) as [w o n]; simpl in *.
    destruct n; [lia|]. simpl. done.
  - apply IH; try done.
    replace (S (S t)) with (S t + 1)%nat by lia.
    rewrite <- drop_drop, Hdrop. done.
Qed.

End Weights.

Lemma qz_pos_ge_1 (p : positive) : 1 <= qz (Z.pos p).
Proof.
  unfold Qcle, qz. simpl. rewrite inject_Z_Qred. unfold Qle. simpl. lia.
Qed.

Lemma ewm_alpha_eq (span : positive) : ewm_alpha span = smoothing span.
Proof.
  unfold ewm_alpha, smoothing. pose proof (qz_pos_ge_1 span) as Hge.
  set (a := qz (Z.pos span)) in *.
  assert (Hpos : 0 < a + 1).
  { apply Qcplus_pos_pos; [|by vm_compute].
    apply Qclt_le_trans with (y := 1); [by vm_compute | done]. }
  assert (a + 1 <> 0) by (intros E; rewrite E in Hpos; by vm_compute in Hpos).
  assert (Htwo : qz 2 = 1 + 1) by (apply Qc_is_canon; reflexivity).
  rewrite Htwo. field. split; [exact H | done].
Qed.

Lemma decay_nonneg (span : positive) : 0 <= 1 - ewm_alpha span.
Proof.
  rewrite ewm_alpha_eq. unfold smoothing. pose proof (qz_pos_ge_1 span) as Hge.
  set (a := qz (Z.pos span)) in *.
  assert (Hpos : 0 < a + 1).
  { apply Qcplus_pos_pos; [|by vm_compute].
    apply Qclt_le_trans with (y := 1); [by vm_compute | done]. }
  assert (a + 1 <> 0) by (intros E; rewrite E in Hpos; by vm_compute in Hpos).
  assert (Htwo : qz 2 = 1 + 1) by (apply Qc_is_canon; reflexivity).
  assert (E : 1 - qz 2 / (a + 1) = (a + - 1) * / (a + 1)) by (rewrite Htwo; by field).
  rewrite E. apply Qcmult_nonneg_nonneg.
  - apply (proj1 (Qcle_minus_iff 1 a)). exact Hge.
  - apply Qclt_le_weak. by apply Qcinv_pos.
Qed.

Lemma weighted_mean_0 (alpha x0 : Qc) (rest : list Qc) :
  weighted_mean alpha (x0 :: rest) 0 = x0.
Proof. unfold weighted_mean, weight. simpl. field. by vm_compute. Qed.

(** On defined values, [ewm(span).mean()] is the weighted mean. *)
Lemma ewm_mean_defined (span : positive) (xs : list Qc) :
  ewm_mean span (Some <$> xs) = Some <$> mean_series (smoothing span) xs.
Proof.
  unfold mean_series. rewrite <- list_fmap_compose, <- ewm_alpha_eq.
  change (Some ∘ weighted_mean (ewm_alpha span) xs)
    with (fun t => Some (weighted_mean (ewm_alpha span) xs t)).
  destruct xs as [|x0 rest]; [done|].
  unfold ewm_mean. rewrite fmap_cons.
  change (length (x0 :: rest)) with (S (length rest)).
  rewrite <- cons_seq, fmap_cons. f_equal.
  - unfold ewm_out. simpl. by rewrite weighted_mean_0.
  - rewrite (ewm_loop_mean (ewm_alpha span) (x0 :: rest) (decay_nonneg span) rest 0);
      try done.
    cbn [weighted]. f_equal. symmetry. apply (weighted_mean_0 (ewm_alpha span) x0 rest).
Qed.
End EwmFacts.

(** * KDJ *)

Module KdjFacts.
Import Pandas TechnicalAnalysis Kdj PandasFacts.

Lemma foldl_qmin_spec (x : Qc) (r : list Qc) :
  (foldl qmin x r = x \/ In (foldl qmin x r) r)
  /\ foldl qmin x r <= x /\ forall y, In y r -> foldl qmin x r <= y.
Proof.
  revert x. induction r as [|z r IH]; intros x; simpl.
  - split; [by left|]. split; [apply Qcle_refl | done].
  - destruct (IH (qmin x z)) as (Hin & Hle & Hall).
    assert (Hx : qmin x z <= x /\ qmin x z <= z /\ (qmin x z = x \/ qmin x z = z)).
    { unfold qmin. case_decide as E.
      - split; [apply Qcle_refl|]. split; [done | by left].
      - split; [|split; [apply Qcle_refl | by right]].
        apply Qclt_le_weak. by apply Qcnot_le_lt. }
    destruct Hx as (Hx & Hz & Hor).
    split; [|split].
    + destruct Hin as [-> | Hin]; [|by right; right].
      destruct Hor as [-> | ->]; [by left | by right; left].
    + by apply Qcle_trans with (y := qmin x z).
    + intros y [<- | Hy]; [by apply Qcle_trans with (y := qmin x z) | by apply Hall].
Qed.

Lemma foldl_qmax_spec (x : Qc) (r : list Qc) :
  (foldl qmax x r = x \/ In (foldl qmax x r) r)
  /\ x <= foldl qmax x r /\ forall y, In y r -> y <= foldl qmax x r.
Proof.
  revert x. induction r as [|z r IH]; intros x; simpl.
  - split; [by left|]. split; [apply Qcle_refl | done].
  - destruct (IH (qmax x z)) as (Hin & Hle & Hall).
    assert (Hx : x <= qmax x z /\ z <= qmax x z /\ (qmax x z = x \/ qmax x z = z)).
    { unfold qmax. case_decide as E.
      - split; [done|]. split; [apply Qcle_refl | by right].
      - split; [apply Qcle_refl|]. split; [|by left].
        apply Qclt_le_weak. by apply Qcnot_le_lt. }
    destruct Hx as (Hx & Hz & Hor).
    split; [|split].
    + destruct Hin as [-> | Hin]; [|by right; right].
      destruct Hor as [-> | ->]; [by left | by right; left].
    + by apply Qcle_trans with (y := qmax x z).
    + intros y [<- | Hy]; [by apply Qcle_trans with (y := qmax x z) | by apply Hall].
Qed.

Lemma In_observations (w : list float) (x : Qc) :
  In x (observations w) <-> In (Some x) w.
Proof.
  unfold observations. rewrite <- !list_elem_of_In, list_elem_of_omap.
  split.
  - intros (y & Hy & Hid). simpl in Hid. by subst y.
  - intros H. by exists (Some x).
Qed.

Lemma window_min_least (w : list float) :
  least_of w (reduce qmin (observations w)).
Proof.
  unfold reduce, least_of.
  destruct (observations w) as [|x r] eqn:E.
  - intros x Hx. apply In_observations in Hx. rewrite E in Hx. done.
  - destruct (foldl_qmin_spec x r) as (Hin & Hle & Hall). split.
    + apply In_observations. rewrite E. destruct Hin as [-> | Hin]; [by left | by right].
    + intros y Hy. apply In_observations in Hy. rewrite E in Hy.
      destruct Hy as [<- | Hy]; [done | by apply Hall].
Qed.

Lemma window_max_greatest (w : list float) :
  greatest_of w (reduce qmax (observations w)).
Proof.
  unfold reduce, greatest_of.
  destruct (observations w) as [|x r] eqn:E.
  - intros x Hx. apply In_observations in Hx. rewrite E in Hx. done.
  - destruct (foldl_qmax_spec x r) as (Hin & Hle & Hall). split.
    + apply In_observations. rewrite E. destruct Hin as [-> | Hin]; [by left | by right].
    + intros y Hy. apply In_observations in Hy. rewrite E in Hy.
      destruct Hy as [<- | Hy]; [done | by apply Hall].
Qed.

Lemma rsv_series_length (df : DataFrame) (k_period : positive) :
  length (rsv_series df k_period) = length df.
Proof.
  unfold rsv_series, scale_r, div, sub, replace_0_1, column.
  rewrite !length_fmap, !length_zip_with, !length_fmap, !length_zip_with.
  rewrite rolling_min_length, rolling_max_length, !length_fmap. lia.
Qed.

Lemma rsv_series_lookup (df : DataFrame) (k_period : positive) (i : nat) (row : Bar) :
  df !! i = Some row ->
  rsv_series df k_period !! i
  = Some (rsv_of (Close row)
            (reduce qmin (observations
               (trailing (Pos.to_nat k_period) (column Low df) i)))
            (reduce qmax (observations
               (trailing (Pos.to_nat k_period) (column High df) i)))).
Proof.
  intros Hrow.
  assert (Hi : (i < length df)%nat) by (by eapply lookup_lt_Some).
  unfold rsv_series, scale_r, div, sub, replace_0_1, rolling_min, rolling_max, column.
  rewrite list_lookup_fmap, !lookup_zip_with, list_lookup_fmap, lookup_zip_with.
  rewrite !list_lookup_fmap, Hrow, !length_fmap.
  rewrite lookup_seq_lt by done. simpl. done.
Qed.

Lemma first_valid_index_spec (s : list float) :
  match first_valid_index s with
  | Some f =>
      (exists q, s !! f = Some (Some q))
      /\ forall i, (i < f)%nat -> s !! i = Some NaN
  | None => forall i, (i < length s)%nat -> s !! i = Some NaN
  end.
Proof.
  induction s as [|x s IH]; simpl; [intros; lia|].
  destruct x as [q|]; simpl.
  - split; [by exists q | intros; lia].
  - destruct (first_valid_index s) as [f|]; simpl.
    + destruct IH as [Hq Hnan]. split; [done|].
      intros [|i] Hi; [done|]. simpl. apply Hnan. lia.
    + intros [|i] Hi; [done|]. simpl. apply IH. lia.
Qed.

Section Smoothing.
Context (rsv : list float) (f : nat).
Hypothesis f_in_range : (f < length rsv)%nat.

Let seeded : list float * list float :=
  (<[f := fz 50]> (replicate (length rsv) (fz 0)),
   <[f := fz 50]> (replicate (length rsv) (fz 0))).

(** What [m] rounds of the smoothing loop have established. *)
Lemma smoothing_rounds (m : nat) :
  (f + m < length rsv)%nat ->
  let kd := foldl (smooth rsv) seeded (seq (S f) m) in
  length kd.1 = length rsv /\ length kd.2 = length rsv
  /\ kd.1 !! f = Some (fz 50) /\ kd.2 !! f = Some (fz 50)
  /\ (forall i, (i < f \/ f + m < i)%nat -> (i < length rsv)%nat ->
        kd.1 !! i = Some (fz 0) /\ kd.2 !! i = Some (fz 0))
  /\ (forall i, (f < i <= f + m)%nat ->
        exists kp dp x,
          kd.1 !! (i - 1)%nat = Some kp /\ kd.2 !! (i - 1)%nat = Some dp
          /\ rsv !! i = Some x
          /\ kd.1 !! i = Some (smoothed kp x)
          /\ kd.2 !! i = Some (smoothed dp (smoothed kp x))).
Proof.
  induction m as [|m IH]; intros Hm.
  - simpl. rewrite !length_insert, !length_replicate.
    rewrite !list_lookup_insert_eq by (rewrite length_replicate; lia).
    repeat split; try done.
    + rewrite list_lookup_insert_ne by lia. by apply lookup_replicate_2.
    + rewrite list_lookup_insert_ne by lia. by apply lookup_replicate_2.
    + intros; lia.
  - rewrite seq_S, foldl_app. cbn [foldl].
    destruct IH as (Hlk & Hld & Hsk & Hsd & Hzero & Hrec); [lia|].
    set (kd := foldl (smooth rsv) seeded (seq (S f) m)) in *.
    set (i := (S f + m)%nat).
    assert (Hprev : exists kp dp, kd.1 !! (f + m)%nat = Some kp
                                  /\ kd.2 !! (f + m)%nat = Some dp).
    { destruct m as [|m]; [rewrite Nat.add_0_r; eauto|].
      destruct (Hrec (f + S m)%nat ltac:(lia)) as (? & ? & ? & _ & _ & _ & ? & ?).
      eauto. }
    destruct Hprev as (kp & dp & Hkp & Hdp).
    destruct (lookup_lt_is_Some_2 rsv i ltac:(unfold i; lia)) as [x Hx].
    unfold smooth. replace (i - 1)%nat with (f + m)%nat by (unfold i; lia).
    rewrite (list_lookup_total_correct _ _ _ Hkp).
    rewrite (list_lookup_total_correct _ _ _ Hdp).
    rewrite (list_lookup_total_correct _ _ _ Hx).
    rewrite (list_lookup_total_correct (<[i:=_]> kd.1) i (smoothed kp x))
      by (apply list_lookup_insert_eq; unfold i; lia).
    cbn [fst snd]. rewrite !length_insert.
    split; [done|]. split; [done|].
    split; [rewrite list_lookup_insert_ne by (unfold i; lia); done|].
    split; [rewrite list_lookup_insert_ne by (unfold i; lia); done|].
    split.
    + intros j Hj Hlen.
      rewrite !list_lookup_insert_ne by (unfold i; lia).
      apply Hzero; lia.
    + intros j Hj.
      destruct (decide (j = i)) as [-> | Hne].
      * exists kp, dp, x.
        replace (i - 1)%nat with (f + m)%nat by (unfold i; lia).
        rewrite !list_lookup_insert_ne by (unfold i; lia).
        rewrite !list_lookup_insert_eq by (unfold i; lia). done.
      * destruct (Hrec j ltac:(unfold i in *; lia)) as (kp' & dp' & x' & ? & ? & ? & ? & ?).
        exists kp', dp', x'.
        rewrite !list_lookup_insert_ne by (unfold i in *; lia). done.
Qed.
End Smoothing.

Lemma kd_series_unseeded (rsv : list float) :
  first_valid_index rsv = None ->
  kd_series rsv = (replicate (length rsv) (fz 0), replicate (length rsv) (fz 0)).
Proof. intros H. unfold kd_series. by rewrite H. Qed.

Lemma kd_series_seeded (rsv : list float) (f : nat) :
  first_valid_index rsv = Some f ->
  (f < length rsv)%nat ->
  kd_series rsv
  = foldl (smooth rsv)
      (<[f := fz 50]> (replicate (length rsv) (fz 0)),
       <[f := fz 50]> (replicate (length rsv) (fz 0)))
      (seq (S f) (length rsv - S f)).
Proof. intros H _. unfold kd_series. by rewrite H. Qed.

Lemma j_of_zero : fsub (fmul (fz 3) (fz 0)) (fmul (fz 2) (fz 0)) = fz 0.
Proof. unfold fz. cbn [fmul fsub lift2]. f_equal; by apply Qc_is_canon. Qed.

Lemma j_lookup (ks ds : list float) (i : nat) (kv dv : float) :
  ks !! i = Some kv -> ds !! i = Some dv ->
  sub (scale_l (fz 3) ks) (scale_l (fz 2) ds) !! i
  = Some (fsub (fmul (fz 3) kv) (fmul (fz 2) dv)).
Proof.
  intros Hk Hd. unfold sub, scale_l.
  rewrite lookup_zip_with, !list_lookup_fmap, Hk, Hd. done.
Qed.

Lemma calculate_kdj_enough (df : DataFrame)
    (k_period d_period j_period : positive) :
  (Pos.to_nat k_period <= length df)%nat ->
  exists r,
    calculate_kdj df k_period d_period j_period = Result r
    /\ length (kdj_k r) = length df /\ length (kdj_d r) = length df.
Proof.
  intros Hlen.
  unfold calculate_kdj. rewrite enough_rows by lia.
  eexists. split; [reflexivity|]. cbn [kdj_k kdj_d].
  set (rsv := rsv_series df k_period).
  assert (Hrsv : length rsv = length df) by apply rsv_series_length.
  pose proof (first_valid_index_spec rsv) as Hfirst.
  destruct (first_valid_index rsv) as [f|] eqn:Ef.
  - destruct Hfirst as [[q Hq] _].
    assert (Hf : (f < length rsv)%nat) by (by eapply lookup_lt_Some).
    rewrite (kd_series_seeded rsv f Ef Hf).
    destruct (smoothing_rounds rsv f Hf (length rsv - S f) ltac:(lia))
      as (? & ? & _). lia.
  - rewrite (kd_series_unseeded rsv Ef). simpl. rewrite length_replicate. lia.
Qed.

(** C4, amended: for at least [k_period] rows [calculate_kdj] returns K,
    D and J series over all rows with
    RSV = (close - least low) / (greatest high - least low) * 100 over the
    trailing window, a zero denominator replaced by 1; K = D = 50 at the
    first row whose RSV is defined and, after it,
    K = 2/3 K' + 1/3 RSV and D = 2/3 D' + 1/3 K; J = 3 K - 2 D at
    every row; before that first row K, D and J are 0, not undefined. *)
Theorem kdj_series_follow_smoothing (df : DataFrame)
    (k_period d_period j_period : positive) :
  (Pos.to_nat k_period <= length df)%nat ->
  exists r,
    calculate_kdj df k_period d_period j_period = Result r
    /\ let rsv := rsv_series df k_period in
       let window := Pos.to_nat k_period in
       length rsv = length df
       /\ length (kdj_k r) = length df /\ length (kdj_d r) = length df
       /\ length (kdj_j r) = length df
       /\ (forall i row, df !! i = Some row ->
             exists lo hi,
               least_of (trailing window (column Low df) i) lo
               /\ greatest_of (trailing window (column High df) i) hi
               /\ rsv !! i = Some (rsv_of (Close row) lo hi))
       /\ (forall i kv dv,
             kdj_k r !! i = Some kv -> kdj_d r !! i = Some dv ->
             kdj_j r !! i = Some (fsub (fmul (fz 3) kv) (fmul (fz 2) dv)))
       /\ match first_valid_index rsv with
          | Some f =>
              (exists q, rsv !! f = Some (Some q))
              /\ kdj_k r !! f = Some (fz 50) /\ kdj_d r !! f = Some (fz 50)
              /\ (forall i, (f < i < length df)%nat ->
                    exists kp dp x,
                      kdj_k r !! (i - 1)%nat = Some kp
                      /\ kdj_d r !! (i - 1)%nat = Some dp
                      /\ rsv !! i = Some x
                      /\ kdj_k r !! i = Some (smoothed kp x)
                      /\ kdj_d r !! i = Some (smoothed dp (smoothed kp x)))
              /\ (forall i, (i < f)%nat ->
                    rsv !! i = Some NaN
                    /\ kdj_k r !! i = Some (fz 0) /\ kdj_d r !! i = Some (fz 0)
                    /\ kdj_j r !! i = Some (fz 0))
          | None =>
              forall i, (i < length df)%nat ->
                rsv !! i = Some NaN
                /\ kdj_k r !! i = Some (fz 0) /\ kdj_d r !! i = Some (fz 0)
                /\ kdj_j r !! i = Some (fz 0)
          end.
Proof.
  intros Hlen.
  unfold calculate_kdj. rewrite enough_rows by lia.
  eexists. split; [reflexivity|]. cbn [kdj_k kdj_d kdj_j].
  set (rsv := rsv_series df k_period).
  assert (Hrsv : length rsv = length df) by apply rsv_series_length.
  pose proof (first_valid_index_spec rsv) as Hfirst.
  assert (Hkd : length (kd_series rsv).1 = length df
                /\ length (kd_series rsv).2 = length df).
  { destruct (first_valid_index rsv) as [f|] eqn:Ef.
    - destruct Hfirst as [[q Hq] _].
      assert (Hf : (f < length rsv)%nat) by (by eapply lookup_lt_Some).
      rewrite (kd_series_seeded rsv f Ef Hf).
      destruct (smoothing_rounds rsv f Hf (length rsv - S f) ltac:(lia))
        as (? & ? & _). lia.
    - rewrite (kd_series_unseeded rsv Ef). simpl. rewrite length_replicate. lia. }
  destruct Hkd as [Hk Hd].
  split; [done|]. split; [done|]. split; [done|].
  split. { unfold sub, scale_l. rewrite length_zip_with, !length_fmap. lia. }
  split.
  { intros i row Hrow. eexists _, _.
    split; [apply window_min_least|]. split; [apply window_max_greatest|].
    by apply rsv_series_lookup. }
  split. { intros i kv dv. apply j_lookup. }
  destruct (first_valid_index rsv) as [f|] eqn:Ef.
  - destruct Hfirst as [[q Hq] Hnan].
    assert (Hf : (f < length rsv)%nat) by (by eapply lookup_lt_Some).
    rewrite (kd_series_seeded rsv f Ef Hf).
    destruct (smoothing_rounds rsv f Hf (length rsv - S f) ltac:(lia))
      as (_ & _ & Hsk & Hsd & Hzero & Hrec).
    split; [eauto|]. split; [done|]. split; [done|]. split.
    + intros i Hi. apply Hrec. lia.
    + intros i Hi. destruct (Hzero i ltac:(lia) ltac:(lia)) as [Hk0 Hd0].
      split; [by apply Hnan|]. split; [done|]. split; [done|].
      rewrite (j_lookup _ _ i _ _ Hk0 Hd0), j_of_zero. done.
  - rewrite (kd_series_unseeded rsv Ef). cbn [fst snd].
    intros i Hi.
    assert (Hz : replicate (length rsv) (fz 0) !! i = Some (fz 0))
      by (apply lookup_replicate_2; lia).
    split; [apply Hfirst; lia|]. split; [done|]. split; [done|].
    rewrite (j_lookup _ _ i _ _ Hz Hz), j_of_zero. done.
Qed.
End KdjFacts.

(** * MACD *)

Module MacdFacts.
Import Pandas TechnicalAnalysis Ewm PandasFacts EwmFacts.

Lemma sub_defined (a b : list Qc) :
  sub (Some <$> a) (Some <$> b) = Some <$> zip_with Qcminus a b.
Proof.
  revert b. induction a as [|x a IH]; intros [|y b]; simpl; try done.
  f_equal. apply IH.
Qed.

Lemma mean_series_length (alpha : Qc) (xs : list Qc) :
  length (mean_series alpha xs) = length xs.
Proof. unfold mean_series. by rewrite length_fmap, length_seq. Qed.

Lemma calculate_macd_enough (df : DataFrame) (fast slow signal : positive) :
  (Pos.to_nat slow <= length df)%nat ->
  exists r,
    calculate_macd df fast slow signal = Result r
    /\ macd_line r
       = sub (ewm_mean fast (column Close df)) (ewm_mean slow (column Close df))
    /\ signal_line r = ewm_mean signal (macd_line r)
    /\ histogram r = sub (macd_line r) (signal_line r)
    /\ length (macd_line r) = length df
    /\ length (signal_line r) = length df
    /\ length (histogram r) = length df.
Proof.
  intros Hlen.
  unfold calculate_macd. rewrite enough_rows by lia.
  eexists. split; [reflexivity|]. cbn [macd_line signal_line histogram].
  assert (Hm : length (sub (ewm_mean fast (column Close df))
                           (ewm_mean slow (column Close df))) = length df).
  { rewrite sub_length; rewrite !ewm_mean_length; unfold column;
      by rewrite length_fmap. }
  repeat split; try done.
  - by rewrite ewm_mean_length.
  - rewrite sub_length; rewrite ?ewm_mean_length; done.
Qed.

(** C3, amended: for at least [slow_period] rows [calculate_macd]
    returns three series over all rows with histogram = MACD line -
    signal line at every row; when the closes are defined, MACD line =
    EMA_fast - EMA_slow and signal line = EMA_signal (MACD line), where
    each EMA starts at its own first input and is the weighted mean
    [(x_t + (1-a) x_(t-1) + ... + (1-a)^t x_0) / (1 + (1-a) + ... + (1-a)^t)]
    with a = 2 / (span + 1). *)
Theorem macd_is_built_from_weighted_means (df : DataFrame)
    (fast slow signal : positive) :
  (Pos.to_nat slow <= length df)%nat ->
  exists r,
    calculate_macd df fast slow signal = Result r
    /\ length (histogram r) = length df
    /\ (forall i m s,
          macd_line r !! i = Some m -> signal_line r !! i = Some s ->
          histogram r !! i = Some (fsub m s))
    /\ forall closes,
       column Close df = Some <$> closes ->
       let ema := fun span => mean_series (smoothing span) in
       let line := (macd_from ema fast slow signal closes).1.1 in
       let sig := (macd_from ema fast slow signal closes).1.2 in
       let hist := (macd_from ema fast slow signal closes).2 in
       macd_line r = Some <$> line
       /\ signal_line r = Some <$> sig
       /\ histogram r = Some <$> hist
       /\ length hist = length df
       /\ (forall i, (i < length df)%nat ->
             exists m s,
               line !! i = Some m /\ sig !! i = Some s
               /\ hist !! i = Some (m - s)
               /\ m = weighted_mean (smoothing fast) closes i
                      - weighted_mean (smoothing slow) closes i
               /\ s = weighted_mean (smoothing signal) line i)
       /\ (forall span x0 rest, ema span (x0 :: rest) !! 0%nat = Some x0).
Proof.
  intros Hlen.
  destruct (calculate_macd_enough df fast slow signal Hlen)
    as (r & Hr & Hline & Hsig & Hhist & Hl1 & Hl2 & Hl3).
  exists r. split; [done|]. split; [done|].
  split.
  { intros i m s Hm Hs. rewrite Hhist. unfold sub.
    rewrite lookup_zip_with, Hm, Hs. done. }
  intros closes Hcloses. cbn zeta. unfold macd_from. cbn [fst snd].
  assert (Hn : length closes = length df).
  { rewrite <- (length_fmap Some closes), <- Hcloses. unfold column.
    by rewrite length_fmap. }
  set (line := zip_with Qcminus (mean_series (smoothing fast) closes)
                                (mean_series (smoothing slow) closes)).
  set (sig := mean_series (smoothing signal) line).
  assert (El : macd_line r = Some <$> line).
  { rewrite Hline, Hcloses, !ewm_mean_defined. apply sub_defined. }
  assert (Es : signal_line r = Some <$> sig).
  { rewrite Hsig, El. apply ewm_mean_defined. }
  assert (Eh : histogram r = Some <$> zip_with Qcminus line sig).
  { rewrite Hhist, El, Es. apply sub_defined. }
  assert (Hll : length line = length df).
  { unfold line. rewrite length_zip_with, !mean_series_length. lia. }
  assert (Hls : length sig = length df).
  { unfold sig. rewrite mean_series_length. done. }
  split; [done|]. split; [done|]. split; [done|].
  split. { rewrite length_zip_with. lia. }
  split.
  - intros i Hi.
    assert (Hmf : mean_series (smoothing fast) closes !! i
                  = Some (weighted_mean (smoothing fast) closes i)).
    { unfold mean_series. rewrite list_lookup_fmap, lookup_seq_lt by lia. done. }
    assert (Hms : mean_series (smoothing slow) closes !! i
                  = Some (weighted_mean (smoothing slow) closes i)).
    { unfold mean_series. rewrite list_lookup_fmap, lookup_seq_lt by lia. done. }
    assert (Hli : line !! i = Some (weighted_mean (smoothing fast) closes i
                                    - weighted_mean (smoothing slow) closes i)).
    { unfold line. rewrite lookup_zip_with, Hmf, Hms. done. }
    assert (Hsi : sig !! i = Some (weighted_mean (smoothing signal) line i)).
    { unfold sig, mean_series. rewrite list_lookup_fmap, lookup_seq_lt by lia. done. }
    eexists _, _. split; [exact Hli|]. split; [exact Hsi|].
    split; [|done]. rewrite lookup_zip_with, Hli, Hsi. done.
  - intros span x0 rest. unfold mean_series. simpl. f_equal.
    apply weighted_mean_0.
Qed.
End MacdFacts.

(** * Signals *)

Module SignalFacts.
Import Pandas TechnicalAnalysis SignalDetector PandasFacts KdjFacts MacdFacts.

Lemma iloc_ok (s : list float) (i : nat) :
  (i < length s)%nat -> exists x, iloc s i = Ok x /\ s !! i = Some x.
Proof.
  intros Hi. destruct (lookup_lt_is_Some_2 s i Hi) as [x Hx].
  exists x. unfold iloc. rewrite Hx. done.
Qed.

Lemma iloc_neg_ok (s : list float) (n : nat) :
  (n <= length s)%nat -> (0 < n)%nat -> exists x, iloc_neg s n = Ok x.
Proof.
  intros Hn Hpos. unfold iloc_neg.
  replace (length s <? n)%nat with false by (symmetry; apply Nat.ltb_ge; lia).
  destruct (lookup_lt_is_Some_2 s (length s - n)%nat ltac:(lia)) as [x Hx].
  exists x. rewrite Hx. done.
Qed.

Lemma check_buy_signal_ok (self : SignalDetector.t) (index : nat)
    (indicator : string) (h k d : list float) (threshold : option float) :
  (index < length h)%nat -> (index < length k)%nat -> (index < length d)%nat ->
  exists b, _check_buy_signal self index indicator h k d threshold = Ok b.
Proof.
  intros Hh Hk Hd. unfold _check_buy_signal.
  destruct (decide (lower indicator = "macd")).
  - destruct (index <? 1)%nat; [by eexists|].
    destruct (iloc_ok h (index - 1) ltac:(lia)) as (y & -> & _).
    destruct (iloc_ok h index Hh) as (x & -> & _). simpl.
    destruct (isna y || isna x); by eexists.
  - destruct (decide (lower indicator = "kdj")); [|by eexists].
    destruct (iloc_ok k index Hk) as (x & -> & _).
    destruct (iloc_ok d index Hd) as (y & -> & _). simpl.
    destruct (isna x || isna y); by eexists.
Qed.

Lemma check_sell_signal_ok (self : SignalDetector.t) (index : nat)
    (indicator : string) (h k d : list float) (threshold : option float) :
  (index < length h)%nat -> (index < length k)%nat -> (index < length d)%nat ->
  exists b, _check_sell_signal self index indicator h k d threshold = Ok b.
Proof.
  intros Hh Hk Hd. unfold _check_sell_signal.
  destruct (decide (lower indicator = "macd")).
  - destruct (index <? 2)%nat; [by eexists|].
    destruct (iloc_ok h (index - 2) ltac:(lia)) as (z & -> & _).
    destruct (iloc_ok h (index - 1) ltac:(lia)) as (y & -> & _).
    destruct (iloc_ok h index Hh) as (x & -> & _). simpl.
    destruct (isna z || isna y || isna x); by eexists.
  - destruct (decide (lower indicator = "kdj")); [|by eexists].
    destruct (iloc_ok k index Hk) as (x & -> & _).
    destruct (iloc_ok d index Hd) as (y & -> & _). simpl.
    destruct (isna x || isna y); by eexists.
Qed.

(** C5: with the MACD indicator, the sell check fires at [index] exactly
    when [index >= 2], the histogram is defined at [index - 2],
    [index - 1] and [index], and it was rising, is now falling, and the
    middle value is positive; wherever the three rows exist the check
    returns an answer. *)
Theorem macd_sell_signal_is_peak_detection (self : SignalDetector.t)
    (index : nat) (indicator : string) (h k d : list float)
    (threshold : option float) :
  lower indicator = "macd" ->
  (_check_sell_signal self index indicator h k d threshold = Ok true
   <-> (2 <= index)%nat
       /\ exists a b c : Qc,
            h !! (index - 2)%nat = Some (Some a)
            /\ h !! (index - 1)%nat = Some (Some b)
            /\ h !! index = Some (Some c)
            /\ a < b /\ c < b /\ 0 < b)
  /\ ((index < length h)%nat ->
      exists fired, _check_sell_signal self index indicator h k d threshold
                    = Ok fired).
Proof.
  intros Hmacd. split.
  - unfold _check_sell_signal. rewrite decide_True by done.
    destruct (index <? 2)%nat eqn:Hidx.
    { apply Nat.ltb_lt in Hidx. split; [done | intros [? _]; lia]. }
    apply Nat.ltb_ge in Hidx. unfold iloc.
    destruct (h !! (index - 2)%nat) as [x2|] eqn:E2; simpl;
      [|split; [done | by intros (_ & ? & ? & ? & ? & _)]].
    destruct (h !! (index - 1)%nat) as [x1|] eqn:E1; simpl;
      [|split; [done | by intros (_ & ? & ? & ? & _ & ? & _)]].
    destruct (h !! index) as [x0|] eqn:E0; simpl;
      [|split; [done | by intros (_ & ? & ? & ? & _ & _ & ? & _)]].
    destruct x2 as [a|]; simpl;
      [|split; [done | by intros (_ & ? & ? & ? & ? & _)]].
    destruct x1 as [b|]; simpl;
      [|split; [done | by intros (_ & ? & ? & ? & _ & ? & _)]].
    destruct x0 as [c|]; simpl;
      [|split; [done | by intros (_ & ? & ? & ? & _ & _ & ? & _)]].
    unfold fgtb, fltb, fz. change (qz 0) with (Q2Qc 0).
    split.
    + intros Hfire. injection Hfire as Hfire.
      apply andb_true_iff in Hfire as [Hfire Hp].
      apply andb_true_iff in Hfire as [Hr Hdcl].
      apply bool_decide_eq_true in Hp, Hr, Hdcl.
      split; [done|]. by exists a, b, c.
    + intros (_ & a' & b' & c' & Ha & Hb & Hc & Hr & Hdcl & Hp).
      injection Ha as <-. injection Hb as <-. injection Hc as <-.
      f_equal. rewrite !andb_true_iff, !bool_decide_eq_true. done.
  - intros Hlen.
    unfold _check_sell_signal. rewrite decide_True by done.
    destruct (index <? 2)%nat; [by eexists|].
    destruct (iloc_ok h (index - 2) ltac:(lia)) as (z & -> & _).
    destruct (iloc_ok h (index - 1) ltac:(lia)) as (y & -> & _).
    destruct (iloc_ok h index Hlen) as (x & -> & _). simpl.
    destruct (isna z || isna y || isna x); by eexists.
Qed.

Lemma signal_loop_ok (self : SignalDetector.t) (bi si : string)
    (h k d : list float) (bt st : option float) (rows : list nat)
    (bs ss : list Z) :
  (forall i, In i rows -> (i < length h)%nat /\ (i < length k)%nat
                          /\ (i < length d)%nat) ->
  exists bs' ss',
    signal_loop self bi si h k d bt st rows bs ss = Ok (bs', ss')
    /\ length bs' = (length bs + length rows)%nat
    /\ length ss' = (length ss + length rows)%nat.
Proof.
  revert bs ss. induction rows as [|i rows IH]; intros bs ss Hrows.
  - exists bs, ss. simpl. repeat split; lia.
  - destruct (Hrows i ltac:(by left)) as (Hh & Hk & Hd).
    destruct (check_buy_signal_ok self i bi h k d bt Hh Hk Hd) as [b Hb].
    destruct (check_sell_signal_ok self i si h k d st Hh Hk Hd) as [s Hs].
    cbn [signal_loop]. rewrite Hb. cbn [mbind result_bind Py.bind].
    rewrite Hs. cbn [mbind result_bind Py.bind].
    destruct (IH (bs ++ [if b then 1%Z else 0%Z]) (ss ++ [if s then 1%Z else 0%Z]))
      as (bs' & ss' & Hloop & Hlb & Hls).
    { intros j Hj. apply Hrows. by right. }
    exists bs', ss'. split; [exact Hloop|].
    rewrite length_app in Hlb, Hls. simpl in *. lia.
Qed.

(** [generate_signals] answers with one flag per row in both lists. *)
Lemma generate_signals_ok (self : SignalDetector.t) (df : DataFrame)
    (bi si : string) (bt st : option float) :
  exists bs ss,
    generate_signals self df bi si bt st = Ok (bs, ss)
    /\ length bs = length df /\ length ss = length df.
Proof.
  unfold generate_signals.
  set (kd := match get_kdj_series df with
             | Some (k, d, _) => (k, d)
             | None => (nan_series (length df), nan_series (length df))
             end).
  set (h := match get_macd_histogram_series df with
            | Some h => h
            | None => nan_series (length df)
            end).
  assert (Hkd : length kd.1 = length df /\ length kd.2 = length df).
  { unfold kd, get_kdj_series.
    destruct (decide (Pos.to_nat 9 <= length df)%nat) as [Hlen | Hlen].
    - destruct (calculate_kdj_enough df 9 3 3 Hlen) as (r & -> & ? & ?). done.
    - unfold calculate_kdj. rewrite too_few_rows by lia.
      cbn [fst snd]. unfold nan_series. by rewrite length_replicate. }
  assert (Hh : length h = length df).
  { unfold h, get_macd_histogram_series.
    destruct (decide (Pos.to_nat 26 <= length df)%nat) as [Hlen | Hlen].
    - destruct (calculate_macd_enough df 12 26 9 Hlen)
        as (r & -> & _ & _ & _ & _ & _ & ?). done.
    - unfold calculate_macd. rewrite too_few_rows by lia.
      unfold nan_series. by rewrite length_replicate. }
  destruct Hkd as [Hk Hd].
  destruct (signal_loop_ok self bi si h kd.1 kd.2 bt st (seq 0 (length df)) [] [])
    as (bs & ss & Hloop & Hlb & Hls).
  { intros i Hi. apply in_seq in Hi. lia. }
  exists bs, ss. split; [exact Hloop|].
  rewrite length_seq in Hlb, Hls. simpl in *. lia.
Qed.

(** C6: [get_current_signal] checks the last row only and resolves: fewer
    than 3 rows give HOLD "Insufficient data for signal detection"; a
    failed indicator calculation gives HOLD "Error calculating
    indicators"; otherwise buy and sell together give HOLD "Conflicting
    signals ...", buy alone BUY, sell alone SELL, neither HOLD. *)
Theorem current_signal_resolution (str_float : Qc -> string)
    (str_int : Z -> string) (self : SignalDetector.t) (df : DataFrame)
    (buy_indicator sell_indicator : string)
    (buy_threshold sell_threshold : option float) :
  let answer := get_current_signal str_float str_int self df
                  buy_indicator sell_indicator buy_threshold sell_threshold in
  let macd := calculate_macd df 12 26 9 in
  let kdj := calculate_kdj df 9 3 3 in
  ((length df < 3)%nat ->
     answer = Ok (HOLD, "Insufficient data for signal detection", ∅))
  /\ ((3 <= length df)%nat -> is_error macd || is_error kdj = true ->
        answer = Ok (HOLD, "Error calculating indicators", ∅))
  /\ ((3 <= length df)%nat ->
      forall m k, macd = Result m -> kdj = Result k ->
      exists is_buy is_sell values,
        _check_buy_signal self (length df - 1) buy_indicator
          (histogram m) (kdj_k k) (kdj_d k) buy_threshold = Ok is_buy
        /\ _check_sell_signal self (length df - 1) sell_indicator
             (histogram m) (kdj_k k) (kdj_d k) sell_threshold = Ok is_sell
        /\ answer
           = Ok (match is_buy, is_sell with
                 | true, true =>
                     (HOLD, "Conflicting signals from buy and sell indicators",
                      values)
                 | true, false =>
                     (BUY, _build_buy_reasoning str_float str_int self
                             buy_indicator values buy_threshold, values)
                 | false, true =>
                     (SELL, _build_sell_reasoning str_float str_int self
                              sell_indicator values sell_threshold, values)
                 | false, false =>
                     (HOLD, _build_hold_reasoning str_float buy_indicator
                              sell_indicator values, values)
                 end)).
Proof.
  cbn zeta. unfold get_current_signal. split; [|split].
  - intros Hlen. apply Nat.ltb_lt in Hlen. rewrite Hlen. done.
  - intros Hlen Herr. apply Nat.ltb_ge in Hlen. rewrite Hlen.
    destruct (calculate_macd df 12 26 9); [done|].
    destruct (calculate_kdj df 9 3 3); [done|]. done.
  - intros Hlen m k Hm Hk. pose proof Hlen as Hlen'.
    apply Nat.ltb_ge in Hlen'. rewrite Hlen', Hm, Hk.
    assert (H26 : (Pos.to_nat 26 <= length df)%nat).
    { destruct (decide (Pos.to_nat 26 <= length df)%nat) as [|Hn]; [done|].
      unfold calculate_macd in Hm. rewrite too_few_rows in Hm by lia. done. }
    destruct (calculate_macd_enough df 12 26 9 H26)
      as (m' & Hm' & _ & _ & _ & _ & _ & Hh).
    rewrite Hm in Hm'. injection Hm' as <-.
    destruct (calculate_kdj_enough df 9 3 3 ltac:(lia)) as (k' & Hk' & Hlk & Hld).
    rewrite Hk in Hk'. injection Hk' as <-.
    destruct (check_buy_signal_ok self (length df - 1) buy_indicator
                (histogram m) (kdj_k k) (kdj_d k) buy_threshold
                ltac:(lia) ltac:(lia) ltac:(lia)) as [is_buy Hbuy].
    destruct (check_sell_signal_ok self (length df - 1) sell_indicator
                (histogram m) (kdj_k k) (kdj_d k) sell_threshold
                ltac:(lia) ltac:(lia) ltac:(lia)) as [is_sell Hsell].
    destruct (iloc_neg_ok (histogram m) 1 ltac:(lia) ltac:(lia)) as [h1 Hh1].
    destruct (iloc_neg_ok (histogram m) 2 ltac:(lia) ltac:(lia)) as [h2 Hh2].
    destruct (iloc_neg_ok (histogram m) 3 ltac:(lia) ltac:(lia)) as [h3 Hh3].
    destruct (iloc_neg_ok (kdj_k k) 1 ltac:(lia) ltac:(lia)) as [k1 Hk1].
    destruct (iloc_neg_ok (kdj_d k) 1 ltac:(lia) ltac:(lia)) as [d1 Hd1].
    exists is_buy, is_sell. eexists.
    split; [done|]. split; [done|].
    rewrite Hbuy, Hsell, Hh1, Hh2, Hk1, Hd1.
    cbn [mbind result_bind Py.bind].
    replace (3 <=? length (histogram m))%nat with true
      by (symmetry; apply Nat.leb_le; lia).
    rewrite Hh3. cbn [mbind result_bind Py.bind mret result_ret].
    destruct is_buy, is_sell; reflexivity.
Qed.
End SignalFacts.

(** * The trade loop and its log *)

Module TradeLogFacts.
Import TradingSimulator TradeLog.

Lemma bind_ok {A B} (r : result A) (k : A -> result B) (b : B) :
  r ≫= k = Ok b -> exists a, r = Ok a /\ k a = Ok b.
Proof. destruct r as [a|e]; simpl; [eauto | discriminate]. Qed.

Lemma net_position_app (l1 l2 : list Trade) :
  net_position (l1 ++ l2) = (net_position l1 + net_position l2)%Z.
Proof.
  unfold net_position. rewrite !List.filter_app, !length_app. lia.
Qed.

Lemma net_position_prefix_snoc (log : list Trade) (tr : Trade) :
  (forall m, net_position (take m log) = 0%Z \/ net_position (take m log) = 1%Z) ->
  (net_position (log ++ [tr]) = 0%Z \/ net_position (log ++ [tr]) = 1%Z) ->
  forall m, net_position (take m (log ++ [tr])) = 0%Z
            \/ net_position (take m (log ++ [tr])) = 1%Z.
Proof.
  intros Hlog Hall m.
  destruct (decide (m <= length log)%nat) as [Hm|Hm].
  - rewrite take_app_le by done. apply Hlog.
  - rewrite take_ge by (rewrite length_app; simpl; lia). exact Hall.
Qed.

Section Loop.
Context (self : t) (df : DataFrame) (buy_signals sell_signals : list Z).

Lemma loop_app (st : State) (l1 l2 : list nat) :
  loop self df buy_signals sell_signals st (l1 ++ l2) =
  loop self df buy_signals sell_signals st l1
    ≫= fun st' => loop self df buy_signals sell_signals st' l2.
Proof.
  revert st. induction l1 as [|i l1 IH]; intros st; simpl; [done|].
  destruct (step self df buy_signals sell_signals st i); simpl; [apply IH | done].
Qed.

Lemma run_S (n : nat) :
  run self df buy_signals sell_signals (S n) =
  run self df buy_signals sell_signals n
    ≫= fun st => step self df buy_signals sell_signals st n.
Proof.
  unfold run. rewrite seq_S, loop_app. simpl.
  destruct (loop _ _ _ _ _ _); simpl; [|done].
  destruct (step _ _ _ _ _ _); done.
Qed.

Lemma invariant_start :
  invariant self df buy_signals sell_signals 0 (start self).
Proof.
  split; simpl; try done.
  intros m. left. by rewrite take_nil.
Qed.

Hypothesis buy_signals_cover : (length df <= length buy_signals)%nat.
Hypothesis sell_signals_cover : (length df <= length sell_signals)%nat.

Lemma closing_ok (st : State) (n : nat) (date : Timestamp) (price : float) :
  invariant self df buy_signals sell_signals n st ->
  position_open st = true ->
  exists fee c net, closing self st date price = Ok (fee, c, net).
Proof.
  intros Hinv Hopen.
  destruct (inv_entry _ _ _ _ _ _ Hinv Hopen) as [[d Hd] [tr Htr]].
  unfold closing, last_commission, days_since. rewrite Htr, Hd. simpl.
  eauto.
Qed.

(** The amounts [closing] computes. *)
Lemma closing_values (st : State) (date : Timestamp) (price fee net : float)
    (c : Closing) :
  closing self st date price = Ok (fee, c, net) ->
  let sell_value := fmul (held st) price in
  fee = fmul sell_value (commission_rate self)
  /\ net = fsub sell_value fee
  /\ proceeds c = round sell_value 2
  /\ net_proceeds c = round net 2
  /\ exists buy_fee,
       last_commission (trades st) = Ok buy_fee
       /\ profit_loss c
          = round (fsub net (fadd (fmul (held st) (buy_price st)) buy_fee)) 2.
Proof.
  unfold closing. intros H.
  destruct (last_commission (trades st)) as [buy_fee|] eqn:Hfee; [|done].
  cbn [mbind result_bind Py.bind] in H.
  destruct (days_since date (buy_date st)) as [d|]; [|done].
  cbn [mbind result_bind Py.bind mret result_ret] in H.
  injection H as <- <- <-. cbn. eauto 10.
Qed.

Lemma step_invariant (n : nat) (st : State) :
  (n < length df)%nat ->
  run self df buy_signals sell_signals n = Ok st ->
  invariant self df buy_signals sell_signals n st ->
  exists st', step self df buy_signals sell_signals st n = Ok st'
              /\ invariant self df buy_signals sell_signals (S n) st'.
Proof.
  intros Hn Hrun Hinv.
  cut (exists st', step self df buy_signals sell_signals st n = Ok st'
         /\ (run self df buy_signals sell_signals (S n) = Ok st' ->
             invariant self df buy_signals sell_signals (S n) st')).
  { intros (st' & Hstep & Hinv'). exists st'. split; [done|].
    apply Hinv'. rewrite run_S, Hrun. exact Hstep. }
  destruct (lookup_lt_is_Some_2 df n Hn) as [row Hrow].
  destruct (lookup_lt_is_Some_2 buy_signals n ltac:(lia)) as [b Hb].
  destruct (lookup_lt_is_Some_2 sell_signals n ltac:(lia)) as [s Hs].
  unfold step. rewrite Hrow, Hb. simpl.
  destruct (bool_decide (b = 1%Z) && negb (position_open st)
            && negb (pending_buy st)) eqn:Ebuy.
  { (* a buy signal is recorded *)
    apply andb_true_iff in Ebuy as [Ebuy Hnp].
    apply andb_true_iff in Ebuy as [Eb Hflat].
    apply bool_decide_eq_true in Eb. subst b.
    apply negb_true_iff in Hnp, Hflat.
    eexists; split; [reflexivity|]. intros _.
    destruct Hinv. split; simpl; try done.
    - intros _. exists n, st, row. done.
    - intros Hps. rewrite inv_sell_needs_position0 in Hflat; done. }
  rewrite Hs. simpl.
  destruct (bool_decide (s = 1%Z) && position_open st
            && negb (pending_sell st)) eqn:Esell.
  { (* a sell signal is recorded *)
    apply andb_true_iff in Esell as [Esell Hnp].
    apply andb_true_iff in Esell as [Es Hopen].
    apply bool_decide_eq_true in Es. subst s.
    apply negb_true_iff in Hnp.
    eexists; split; [reflexivity|]. intros _.
    destruct Hinv. split; simpl; try done.
    - intros Hpb. rewrite inv_buy_needs_flat0 in Hopen; done.
    - intros _. exists n, st, row. done. }
  destruct (pending_buy st) eqn:Hpb.
  { (* the pending buy is filled *)
    destruct (inv_pending_buy _ _ _ _ _ _ Hinv Hpb)
      as (i & st0 & row0 & -> & Hrun0 & Hrow0 & Hday & Hsig & Hflat0 & Hnp0).
    pose proof (inv_buy_needs_flat _ _ _ _ _ _ Hinv Hpb) as Hflat.
    simpl. rewrite Nat.sub_0_r, Hrow0. simpl.
    eexists; split; [reflexivity|]. intros Hnext. rewrite Hday in Hnext.
    destruct Hinv. split; simpl; try done.
    - intros _. split; [eauto|]. rewrite last_snoc. eauto.
    - rewrite net_position_app, inv_net0, Hflat. done.
    - apply net_position_prefix_snoc; [done|].
      rewrite net_position_app, inv_net0, Hflat. by right.
    - apply Forall_app. split; [done|]. constructor; [|constructor].
      left. exists i, st0. repeat split; try done.
      exists row0, row. simpl. rewrite Hday. do 5 (split; [done|]).
      eexists st, _. split; [exact Hrun|]. split; [exact Hnext|].
      split; [done|]. left. by repeat split.
    - intros Hps. rewrite inv_sell_needs_position0 in Hflat; done. }
  simpl.
  destruct (pending_sell st) eqn:Hps; [|simpl].
  { (* the pending sell is filled *)
    destruct (inv_pending_sell _ _ _ _ _ _ Hinv Hps)
      as (i & st0 & row0 & -> & Hrun0 & Hrow0 & Hday & Hsig & Hopen0 & Hnp0).
    pose proof (inv_sell_needs_position _ _ _ _ _ _ Hinv Hps) as Hopen.
    destruct (closing_ok st (S i) (Date row) (Open row) Hinv Hopen)
      as (fee & c & net & Hclose).
    simpl. rewrite Hclose. simpl. rewrite Nat.sub_0_r, Hrow0. simpl.
    eexists; split; [reflexivity|]. intros Hnext. rewrite Hday in Hnext.
    destruct (closing_values _ _ _ _ _ _ Hclose)
      as (Hfee & Hnet & Hproceeds & Hnp & buy_fee & Hbuy_fee & Hpl).
    destruct Hinv. split; simpl; try done.
    - rewrite net_position_app, inv_net0, Hopen. done.
    - apply net_position_prefix_snoc; [done|].
      rewrite net_position_app, inv_net0, Hopen. by left.
    - apply Forall_app. split; [done|]. constructor; [|constructor].
      right. exists i, st0. repeat split; try done.
      exists row0, row. simpl. rewrite Hday. do 5 (split; [done|]).
      eexists st, _. split; [exact Hrun|]. split; [exact Hnext|].
      split; [done|]. right. eexists _, _, buy_fee. simpl.
      split; [done|]. rewrite <- Hfee. by repeat split. }
  (* nothing happens on this row *)
  eexists; split; [reflexivity|]. intros _.
  destruct Hinv. split; try done.
  - intros Hpb'. congruence.
  - intros Hps'. congruence.
Qed.

Lemma run_invariant (n : nat) :
  (n <= length df)%nat ->
  exists st, run self df buy_signals sell_signals n = Ok st
             /\ invariant self df buy_signals sell_signals n st.
Proof.
  induction n as [|n IH]; intros Hn.
  - exists (start self). split; [done | apply invariant_start].
  - destruct IH as (st & Hrun & Hinv); [lia|].
    destruct (step_invariant n st ltac:(lia) Hrun Hinv) as (st' & Hstep & Hinv').
    exists st'. split; [|done]. rewrite run_S, Hrun. exact Hstep.
Qed.

(** The log and balance returned once the rows are exhausted. *)
Lemma close_remaining_spec (st : State) :
  run self df buy_signals sell_signals (length df) = Ok st ->
  invariant self df buy_signals sell_signals (length df) st ->
  (position_open st = false /\
   close_remaining self df st = Ok (trades st, balance st))
  \/ (position_open st = true /\
      exists tr final,
        close_remaining self df st = Ok (trades st ++ [tr], final)
        /\ forced_close self df buy_signals sell_signals tr).
Proof.
  intros Hrun Hinv. unfold close_remaining.
  destruct (position_open st) eqn:Hopen; [right | left; done].
  split; [done|].
  destruct (inv_entry _ _ _ _ _ _ Hinv Hopen) as [_ [tr0 Htr0]].
  destruct (last df) as [row|] eqn:Hlast.
  - simpl.
    destruct (closing_ok st (length df) (Date row) (Close row) Hinv Hopen)
      as (fee & c & net & Hclose).
    rewrite Hclose. simpl. eexists _, _. split; [reflexivity|].
    destruct (closing_values _ _ _ _ _ _ Hclose)
      as (Hfee & Hnet & Hproceeds & Hnp & buy_fee & Hbuy_fee & Hpl).
    exists st, row. do 7 (split; [done|]).
    exists net. split.
    + unfold _execute_trades.
      fold (run self df buy_signals sell_signals (length df)).
      rewrite Hrun. cbn [mbind result_bind Py.bind].
      unfold close_remaining. rewrite Hopen, Hlast.
      cbn [of_option mbind result_bind Py.bind]. rewrite Hclose. done.
    + eexists _, _, buy_fee. simpl.
      split; [done|]. rewrite <- Hfee. by repeat split.
  - (* an open position needs a filled buy, hence a row *)
    apply last_None in Hlast. subst df. simpl in *.
    unfold run in Hrun. simpl in Hrun. injection Hrun as <-. done.
Qed.

Lemma execute_trades_spec :
  exists st log final,
    run self df buy_signals sell_signals (length df) = Ok st
    /\ invariant self df buy_signals sell_signals (length df) st
    /\ _execute_trades self df buy_signals sell_signals = Ok (log, final)
    /\ close_remaining self df st = Ok (log, final).
Proof.
  destruct (run_invariant (length df) ltac:(lia)) as (st & Hrun & Hinv).
  unfold _execute_trades. fold (run self df buy_signals sell_signals (length df)).
  rewrite Hrun. simpl.
  destruct (close_remaining_spec st Hrun Hinv)
    as [[_ Hc] | [_ (tr & final & Hc & _)]]; rewrite Hc; eauto 10.
Qed.
End Loop.

(** The loop reads the signals only at the rows it visits. *)
Lemma loop_signals_ext (self : t) (df : DataFrame) (bs bs' ss : list Z)
    (rows : list nat) (st : State) :
  (forall i, In i rows -> bs !! i = bs' !! i) ->
  loop self df bs ss st rows = loop self df bs' ss st rows.
Proof.
  revert st. induction rows as [|i rows IH]; intros st Hext; simpl; [done|].
  assert (step self df bs ss st i = step self df bs' ss st i) as ->.
  { unfold step. rewrite (Hext i) by (by left). done. }
  destruct (step self df bs' ss st i); simpl; [|done].
  apply IH. intros j Hj. apply Hext. by right.
Qed.

(** C2, amended: the simulator returns a log in which, at every prefix,
    the BUY entries outnumber the SELL entries by 0 or by 1; every BUY
    answers a buy signal raised while flat with no buy pending; every
    SELL answers a sell signal raised while a position was open, except
    the end-of-period close of the position still open when the rows are
    exhausted, which answers no signal and is the last entry. *)
Theorem at_most_one_open_position (self : t) (df : DataFrame)
    (buy_signals sell_signals : list Z) :
  (length df <= length buy_signals)%nat ->
  (length df <= length sell_signals)%nat ->
  exists log final,
    _execute_trades self df buy_signals sell_signals = Ok (log, final)
    /\ (forall m, net_position (take m log) = 0%Z
                  \/ net_position (take m log) = 1%Z)
    /\ (forall tr, In tr log -> is_buy tr = true ->
          signalled_buy self df buy_signals sell_signals tr)
    /\ (forall k tr, log !! k = Some tr -> is_sell tr = true ->
          signalled_sell self df buy_signals sell_signals tr
          \/ (S k = length log
              /\ forced_close self df buy_signals sell_signals tr)).
Proof.
  intros Hb Hs.
  destruct (execute_trades_spec self df buy_signals sell_signals Hb Hs)
    as (st & log & final & Hrun & Hinv & Hexec & Hclose).
  exists log, final. split; [done|].
  assert (Horigin : forall tr, In tr (trades st) ->
            (is_buy tr = true -> signalled_buy self df buy_signals sell_signals tr)
            /\ (is_sell tr = true ->
                signalled_sell self df buy_signals sell_signals tr)).
  { intros tr Hin.
    pose proof (inv_origin _ _ _ _ _ _ Hinv) as Hall.
    rewrite List.Forall_forall in Hall.
    destruct (Hall tr Hin) as [Hbuy | Hsell]; split; intros Hty; try done.
    - destruct Hbuy as (i & st0 & Hty' & _). unfold is_sell in Hty.
      rewrite Hty' in Hty. done.
    - destruct Hsell as (i & st0 & Hty' & _). unfold is_sell in Hty'.
      rewrite Hty in Hty'. done. }
  assert (Hat : forall k tr, trades st !! k = Some tr -> In tr (trades st)).
  { intros k tr Hk. apply list_elem_of_In. by eapply list_elem_of_lookup_2. }
  destruct (close_remaining_spec self df buy_signals sell_signals Hb Hs st Hrun Hinv)
    as [[Hflat Hc] | [Hopen (tr & final' & Hc & Hforced)]];
    rewrite Hc in Hclose; injection Hclose as <- <-.
  - split; [apply (inv_prefix _ _ _ _ _ _ Hinv)|].
    split.
    + intros tr Hin Hty. by apply Horigin.
    + intros k tr Hk Hty. left. apply Horigin; [by apply (Hat k) | done].
  - split.
    { apply net_position_prefix_snoc; [apply (inv_prefix _ _ _ _ _ _ Hinv)|].
      rewrite net_position_app, (inv_net _ _ _ _ _ _ Hinv), Hopen.
      destruct Hforced as (? & ? & Hty & _). destruct tr; [done|]. by left. }
    split.
    + intros tr' Hin Hty. apply in_app_or in Hin as [Hin | [<- | []]].
      * by apply Horigin.
      * destruct Hforced as (? & ? & Hty' & _). unfold is_sell in Hty'.
        rewrite Hty in Hty'. done.
    + intros k tr' Hk Hty.
      destruct (decide (k < length (trades st))%nat) as [Hlt | Hge].
      * rewrite lookup_app_l in Hk by done. left.
        apply Horigin; [by apply (Hat k) | done].
      * rewrite lookup_app_r in Hk by lia.
        destruct (k - length (trades st))%nat as [|j] eqn:Hj; simpl in Hk; [|done].
        injection Hk as <-. right. split; [|done].
        rewrite length_app. simpl. lia.
Qed.

(** C1: every entry of the returned log is the fill of an order at the row
    right after its signal row, made at the open price of that row: the
    shares bought, or the proceeds and the balance of the sale, are
    computed from that open price, and the entry records it rounded to
    two decimals.  The one exception is the forced end-of-period close,
    which is the last entry and is made at the close price of the last
    row. *)
Theorem trades_fill_at_the_next_open (self : t) (df : DataFrame)
    (buy_signals sell_signals : list Z) :
  (length df <= length buy_signals)%nat ->
  (length df <= length sell_signals)%nat ->
  exists log final,
    _execute_trades self df buy_signals sell_signals = Ok (log, final)
    /\ forall k tr, log !! k = Some tr ->
         (exists i, filled_after self df buy_signals sell_signals i tr)
         \/ (S k = length log
             /\ forced_close self df buy_signals sell_signals tr).
Proof.
  intros Hb Hs.
  destruct (execute_trades_spec self df buy_signals sell_signals Hb Hs)
    as (st & log & final & Hrun & Hinv & Hexec & Hclose).
  exists log, final. split; [done|].
  assert (Horigin : forall k tr, trades st !! k = Some tr ->
            exists i, filled_after self df buy_signals sell_signals i tr).
  { intros k tr Hk.
    pose proof (inv_origin _ _ _ _ _ _ Hinv) as Hall.
    rewrite Forall_lookup in Hall.
    destruct (Hall k tr Hk) as [(i & ? & ? & ? & ? & ? & ? & ?)
                               | (i & ? & ? & ? & ? & ? & ? & ?)]; eauto. }
  destruct (close_remaining_spec self df buy_signals sell_signals Hb Hs st Hrun Hinv)
    as [[Hflat Hc] | [Hopen (tr & final' & Hc & Hforced)]];
    rewrite Hc in Hclose; injection Hclose as <- <-; intros k tr' Hk.
  - left. eauto.
  - destruct (decide (k < length (trades st))%nat) as [Hlt | Hge].
    + rewrite lookup_app_l in Hk by done. left. eauto.
    + rewrite lookup_app_r in Hk by lia.
      destruct (k - length (trades st))%nat as [|j] eqn:Hj; simpl in Hk; [|done].
      injection Hk as <-. right. split; [|done].
      rewrite length_app. simpl. lia.
Qed.

(** C10: a buy signal on the last row, raised while flat with no buy
    pending, leaves no trace: the log and balance returned are those
    reached before that row, and are the ones returned when the signal is
    absent.  A forced closing SELL is appended exactly when a position is
    open once the rows are exhausted. *)
Theorem final_bar_buy_signal_is_discarded (self : t) (df : DataFrame)
    (buy_signals sell_signals : list Z) :
  (length df <= length buy_signals)%nat ->
  (length df <= length sell_signals)%nat ->
  (forall st,
     df <> [] ->
     run self df buy_signals sell_signals (length df - 1) = Ok st ->
     buy_signals !! (length df - 1)%nat = Some 1%Z ->
     position_open st = false ->
     pending_buy st = false ->
     _execute_trades self df buy_signals sell_signals
       = Ok (trades st, balance st)
     /\ _execute_trades self df (<[(length df - 1)%nat := 0%Z]> buy_signals)
          sell_signals = Ok (trades st, balance st))
  /\ (exists st,
        run self df buy_signals sell_signals (length df) = Ok st
        /\ (position_open st = false ->
            _execute_trades self df buy_signals sell_signals
              = Ok (trades st, balance st))
        /\ (position_open st = true ->
            exists tr final,
              _execute_trades self df buy_signals sell_signals
                = Ok (trades st ++ [tr], final)
              /\ forced_close self df buy_signals sell_signals tr)).
Proof.
  intros Hb Hs. split.
  - intros st Hdf Hrun Hsig Hflat Hnp.
    assert (Hlen : (0 < length df)%nat) by (destruct df; [done | simpl; lia]).
    set (n := (length df - 1)%nat) in *.
    assert (Hn : length df = S n) by lia.
    destruct (run_invariant self df buy_signals sell_signals Hb Hs n ltac:(lia))
      as (st1 & Hrun1 & Hinv).
    rewrite Hrun in Hrun1. injection Hrun1 as <-.
    destruct (lookup_lt_is_Some_2 df n ltac:(lia)) as [row Hrow].
    destruct (lookup_lt_is_Some_2 sell_signals n ltac:(lia)) as [s Hsell].
    assert (Hps : pending_sell st = false).
    { destruct (pending_sell st) eqn:E; [|done].
      rewrite (inv_sell_needs_position _ _ _ _ _ _ Hinv E) in Hflat. done. }
    split.
    + unfold _execute_trades. rewrite Hn.
      fold (run self df buy_signals sell_signals (S n)).
      rewrite run_S, Hrun. simpl. unfold step.
      rewrite Hrow, Hsig, Hflat, Hnp. simpl.
      unfold close_remaining. simpl. done.
    + unfold _execute_trades. rewrite Hn.
      fold (run self df (<[n := 0%Z]> buy_signals) sell_signals (S n)).
      rewrite run_S. unfold run.
      rewrite <- (loop_signals_ext self df buy_signals (<[n := 0%Z]> buy_signals)).
      2:{ intros i Hi. apply in_seq in Hi.
          rewrite list_lookup_insert_ne by lia. done. }
      fold (run self df buy_signals sell_signals n). rewrite Hrun. simpl.
      unfold step. rewrite Hrow, list_lookup_insert_eq by lia. simpl.
      rewrite Hsell, Hflat, Hnp, Hps. simpl.
      rewrite andb_false_r. simpl.
      unfold close_remaining. rewrite Hflat. done.
  - destruct (execute_trades_spec self df buy_signals sell_signals Hb Hs)
      as (st & log & final & Hrun & Hinv & Hexec & Hclose).
    exists st. split; [done|].
    destruct (close_remaining_spec self df buy_signals sell_signals Hb Hs st Hrun Hinv)
      as [[Hflat Hc] | [Hopen (tr & final' & Hc & Hforced)]];
      rewrite Hc in Hclose; injection Hclose as <- <-.
    + split; [done|]. rewrite Hflat. done.
    + split; [rewrite Hopen; done|]. eauto.
Qed.
End TradeLogFacts.

(** * Simulation *)

Module SimulateFacts.
Import TradingSimulator TradeLog PandasFacts TradeLogFacts SignalFacts.

Lemma gain_ratio_ok (log : list Trade) (gain initial : float) :
  initial <> fz 0 -> gain_ratio log gain initial = Ok (fdiv gain initial).
Proof.
  intros Hne. unfold gain_ratio. destruct log; [|done].
  destruct initial as [q|]; simpl; [|done].
  case_bool_decide as E; [|done]. subst q. done.
Qed.

(** C9: [simulate] answers with the insufficient-data error exactly when
    the frame has fewer than 50 rows, and leaves the simulator as it was;
    from 50 rows on it generates the signals, runs the trades and returns
    the simulation. *)
Theorem simulate_needs_fifty_rows (self : t) (df : DataFrame)
    (buy_indicator sell_indicator : string)
    (buy_threshold sell_threshold : option float) :
  initial_balance self <> fz 0 ->
  ((length df < 50)%nat ->
     simulate self df buy_indicator sell_indicator buy_threshold sell_threshold
     = Ok (self,
           Error "Insufficient data for trading simulation (need >= 50 data points)"))
  /\ ((50 <= length df)%nat ->
      exists sim buy_signals sell_signals final,
        SignalDetector.generate_signals (signal_detector self) df
          buy_indicator sell_indicator buy_threshold sell_threshold
        = Ok (buy_signals, sell_signals)
        /\ _execute_trades self df buy_signals sell_signals
           = Ok (trade_log sim, final)
        /\ statistics sim = _calculate_statistics (trade_log sim) final
        /\ total_trades (trading_summary sim) = length (trade_log sim)
        /\ simulate self df buy_indicator sell_indicator
             buy_threshold sell_threshold
           = Ok (self, Result sim)).
Proof.
  intros Hbal. unfold simulate. split.
  - intros Hlen. by rewrite too_few_rows.
  - intros Hlen.
    rewrite enough_rows by lia.
    destruct (generate_signals_ok (signal_detector self) df buy_indicator
                sell_indicator buy_threshold sell_threshold)
      as (bs & ss & Hgen & Hlb & Hls).
    destruct (execute_trades_spec self df bs ss ltac:(lia) ltac:(lia))
      as (st & log & final & _ & _ & Hexec & _).
    rewrite Hgen. cbn [mbind result_bind Py.bind]. rewrite Hexec.
    cbn [mbind result_bind Py.bind].
    rewrite gain_ratio_ok by done. cbn [mbind result_bind Py.bind mret result_ret].
    eexists _, bs, ss, final. split; [done|].
    split; [|split; [|split; [|reflexivity]]]; done.
Qed.
End SimulateFacts.

(** * Filtering and sorting *)

Module RankingFacts.
Import MarketScanner Ranking.

(** *** The lexicographic order is a strict total order *)

Lemma lex_lt_irrefl (a : list Qc) : lex_lt a a = false.
Proof. induction a as [|x a IH]; simpl; [done|]. by rewrite decide_True. Qed.

Lemma lex_lt_trans (a b c : list Qc) :
  lex_lt a b = true -> lex_lt b c = true -> lex_lt a c = true.
Proof.
  revert b c. induction a as [|x a IH]; intros [|y b] [|z c]; simpl; try done.
  destruct (decide (x = y)) as [<- | Hxy].
  - destruct (decide (x = z)) as [<- | Hxz]; [apply IH | done].
  - destruct (decide (y = z)) as [<- | Hyz].
    + rewrite decide_False by done. done.
    + intros Hlt1 Hlt2. apply bool_decide_eq_true in Hlt1, Hlt2.
      pose proof (Qclt_trans _ _ _ Hlt1 Hlt2) as Hlt.
      rewrite decide_False by (intros ->; by apply Qclt_not_eq in Hlt).
      by apply bool_decide_eq_true.
Qed.

Lemma lex_lt_total (a b : list Qc) :
  lex_lt a b = false -> lex_lt b a = false -> a = b.
Proof.
  revert b. induction a as [|x a IH]; intros [|y b]; simpl; try done.
  destruct (decide (x = y)) as [<- | Hxy].
  - rewrite decide_True by done. intros H1 H2. f_equal. by apply IH.
  - rewrite decide_False by done. intros H1 H2.
    apply bool_decide_eq_false in H1, H2.
    apply Qcnot_lt_le in H1, H2. destruct Hxy. by apply Qcle_antisym.
Qed.

Lemma not_after_trans (a b c : list Qc) :
  not_after a b -> not_after b c -> not_after a c.
Proof.
  unfold not_after. intros Hab Hbc.
  destruct (lex_lt c a) eqn:Hca; [|done].
  destruct (lex_lt a b) eqn:Hab'.
  - pose proof (lex_lt_trans _ _ _ Hca Hab') as Hcb. congruence.
  - rewrite (lex_lt_total a b Hab' Hab) in Hca. congruence.
Qed.

(** *** Comparing keys made of numbers never raises *)

Lemma tuple_lt_numbers (a b : list Qc) :
  tuple_lt (PNum <$> a) (PNum <$> b) = Ok (lex_lt a b).
Proof.
  revert b. induction a as [|x a IH]; intros [|y b]; simpl; try done.
  destruct (decide (x = y)) as [<- | Hxy].
  - rewrite bool_decide_eq_true_2 by done. apply IH.
  - rewrite bool_decide_eq_false_2 by done. done.
Qed.

Section Sorting.
Context {A : Type} (rank : A -> list Qc).

Let keyed (x : A) : list pyval * A := (PNum <$> rank x, x).
Let ordered (l : list (list pyval * A)) : Prop :=
  StronglySorted (fun a b => not_after (rank a) (rank b)) (snd <$> l).

Lemma unkeyed (l : list A) : snd <$> (keyed <$> l) = l.
Proof. induction l as [|x l IH]; [done|]. rewrite !fmap_cons, IH. done. Qed.

Lemma insert_sorted_spec (x : A) (l : list A) :
  ordered (keyed <$> l) ->
  exists l',
    insert_sorted (keyed x) (keyed <$> l) = Ok (keyed <$> l')
    /\ Permutation (x :: l) l'
    /\ ordered (keyed <$> l').
Proof.
  unfold ordered.
  induction l as [|y l IH]; intros Hsorted.
  - exists [x]. split; [done|]. split; [done|].
    simpl. repeat constructor.
  - rewrite !fmap_cons in Hsorted. cbn [snd keyed] in Hsorted.
    apply StronglySorted_inv in Hsorted as [Hrest Hhd].
    rewrite fmap_cons. cbn [insert_sorted].
    change (tuple_lt (keyed y).1 (keyed x).1)
      with (tuple_lt (PNum <$> rank y) (PNum <$> rank x)).
    rewrite tuple_lt_numbers. cbn [mbind result_bind Py.bind].
    destruct (lex_lt (rank y) (rank x)) eqn:Hyx.
    + destruct (IH Hrest) as (l' & Hins & Hperm & Hsorted').
      rewrite Hins. cbn [mbind result_bind Py.bind mret result_ret].
      exists (y :: l'). split; [done|].
      split; [rewrite perm_swap; by constructor|].
      rewrite !fmap_cons. cbn [snd keyed]. constructor; [done|].
      rewrite List.Forall_forall in Hhd |- *. intros z Hz.
      rewrite unkeyed in Hz, Hhd.
      apply (Permutation_in _ (Permutation_sym Hperm)) in Hz as [<- | Hz].
      * unfold not_after.
        destruct (lex_lt (rank x) (rank y)) eqn:Hxy; [|done].
        pose proof (lex_lt_trans _ _ _ Hxy Hyx) as Hxx.
        by rewrite lex_lt_irrefl in Hxx.
      * by apply Hhd.
    + exists (x :: y :: l). split; [done|]. split; [done|].
      rewrite !fmap_cons. cbn [snd keyed].
      constructor; [constructor; done|].
      constructor; [done|].
      rewrite List.Forall_forall in Hhd |- *. intros z Hz.
      apply not_after_trans with (b := rank y); [done | by apply Hhd].
Qed.

Lemma sort_keyed_spec (l : list A) :
  exists l',
    sort_keyed (keyed <$> l) = Ok (keyed <$> l')
    /\ Permutation l l'
    /\ ordered (keyed <$> l').
Proof.
  induction l as [|x l IH].
  - exists []. split; [done|]. split; [done|]. constructor.
  - destruct IH as (l1 & Hsort & Hperm & Hsorted).
    destruct (insert_sorted_spec x l1 Hsorted) as (l2 & Hins & Hperm2 & Hsorted2).
    exists l2. cbn [fmap list_fmap sort_keyed]. fold (keyed <$> l).
    rewrite Hsort. cbn [mbind result_bind Py.bind].
    split; [done|]. split; [|done].
    rewrite <- Hperm2. by constructor.
Qed.

Lemma sorted_spec (key : A -> list pyval) (items : list A) :
  (forall x, In x items -> key x = PNum <$> rank x) ->
  exists out,
    sorted items key = Ok out
    /\ Permutation items out
    /\ StronglySorted (fun a b => not_after (rank a) (rank b)) out.
Proof.
  intros Hkey. unfold sorted.
  assert (Hk : (fun x => (key x, x)) <$> items = keyed <$> items).
  { apply list_fmap_ext. intros i x Hx. unfold keyed.
    rewrite Hkey; [done|]. apply list_elem_of_In. by eapply list_elem_of_lookup_2. }
  rewrite Hk.
  destruct (sort_keyed_spec items) as (out & Hsort & Hperm & Hsorted).
  exists out. rewrite Hsort. cbn [mbind result_bind Py.bind mret result_ret].
  unfold ordered in Hsorted. rewrite unkeyed in *. done.
Qed.
End Sorting.

(** *** The key of a sortable result is made of its ranks *)

Lemma sort_value_number (r : ScanResult) (field : string) :
  numeric_at r field ->
  py_or (py_or (get (section (trading_summary r)) (PStr field))
               (get (section (statistics r)) (PStr field)))
        (PNum 0)
  = PNum (rank_value r field).
Proof.
  intros (Hsum & Hstat). unfold rank_value, get.
  destruct (section (trading_summary r) !! field) as [v|] eqn:Es;
    destruct (section (statistics r) !! field) as [w|] eqn:Et; simpl.
  - destruct (Hsum v eq_refl) as [q ->]. destruct (Hstat w eq_refl) as [q' ->].
    unfold py_or. simpl.
    repeat (case_bool_decide; simpl); repeat case_decide; by simplify_eq.
  - destruct (Hsum v eq_refl) as [q ->].
    unfold py_or. simpl.
    repeat (case_bool_decide; simpl); repeat case_decide; by simplify_eq.
  - destruct (Hstat w eq_refl) as [q ->].
    unfold py_or. simpl.
    repeat (case_bool_decide; simpl); repeat case_decide; by simplify_eq.
  - done.
Qed.


Lemma get_sort_key_ranks (rules : list (gmap string string)) (r : ScanResult) :
  sortable rules r -> get_sort_key rules r = PNum <$> ranks rules r.
Proof.
  intros Hs. unfold get_sort_key, ranks. rewrite <- list_fmap_compose.
  apply list_fmap_ext. intros i rule Hrule. unfold compose. cbn beta zeta.
  fold (rule_field rule). rewrite sort_value_number.
  2:{ apply Hs. apply list_elem_of_In. by eapply list_elem_of_lookup_2. }
  unfold descending, rule_field.
  destruct (decide (lower (default "desc" (rule !! "order")) = "desc")) as [E|E].
  - by rewrite bool_decide_eq_true_2.
  - by rewrite bool_decide_eq_false_2.
Qed.

(** Not coming after, on ranks, is what the rules say. *)
Lemma not_after_precedes (rules : list (gmap string string)) (a b : ScanResult) :
  not_after (ranks rules a) (ranks rules b) <-> precedes rules a b.
Proof.
  unfold not_after, precedes.
  induction rules as [|rule rules IH]; simpl; [done|].
  set (x := rank_value a (rule_field rule)).
  set (y := rank_value b (rule_field rule)).
  destruct (descending rule).
  - destruct (decide (- y = - x)) as [E|E].
    + assert (x = y) by (rewrite <- (Qcopp_involutive x), <- E; apply Qcopp_involutive).
      rewrite IH. split; [by right|]. intros [Hlt | [_ ?]]; [|done].
      subst. by apply Qclt_not_eq in Hlt.
    + rewrite bool_decide_eq_false. split.
      * intros Hnlt. left. apply Qcnot_lt_le in Hnlt.
        apply Qcopp_le_compat in Hnlt. rewrite !Qcopp_involutive in Hnlt.
        destruct (Qcle_lt_or_eq _ _ Hnlt) as [? | ->]; done.
      * intros [Hlt | [-> _]]; [|done].
        apply Qcle_not_lt. apply Qcopp_le_compat. by apply Qclt_le_weak.
  - destruct (decide (y = x)) as [E|E].
    + rewrite IH. split; [by right|]. intros [Hlt | [_ ?]]; [|done].
      subst. by apply Qclt_not_eq in Hlt.
    + rewrite bool_decide_eq_false. split.
      * intros Hnlt. left. apply Qcnot_lt_le in Hnlt.
        destruct (Qcle_lt_or_eq _ _ Hnlt) as [? | ->]; done.
      * intros [Hlt | [-> _]]; [|done].
        apply Qcle_not_lt. by apply Qclt_le_weak.
Qed.

Lemma StronglySorted_lookup {A} (R : A -> A -> Prop) (l : list A) :
  StronglySorted R l ->
  forall i j a b, (i < j)%nat -> l !! i = Some a -> l !! j = Some b -> R a b.
Proof.
  induction 1 as [|x l Hsorted IH Hhd]; intros i j a b Hij Hi Hj; [done|].
  destruct j as [|j]; [lia|]. simpl in Hj.
  destruct i as [|i]; simpl in Hi.
  - injection Hi as <-. rewrite List.Forall_forall in Hhd. apply Hhd.
    apply list_elem_of_In. by eapply list_elem_of_lookup_2.
  - apply (IH i j); [lia | done | done].
Qed.




End RankingFacts.

(** * The statements at sample inputs *)

Module Checks.
Import Pandas TechnicalAnalysis SignalDetector TradingSimulator TradeLog.
Import MarketScanner Ranking Ewm Kdj Samples.
Import TradeLogFacts KdjFacts MacdFacts SignalFacts SimulateFacts RankingFacts.

(** Rounding goes to the nearest value, ties to the even digit. *)
Example round_ties_to_even :
  round (fd 10125 1000) 2 = fd 1012 100
  /\ round (fd 10135 1000) 2 = fd 1014 100
  /\ round (fd 10137 1000) 2 = fd 1014 100
  /\ round NaN 2 = NaN.
Proof.
  repeat split; try reflexivity; apply (f_equal Some); by apply Qc_is_canon.
Qed.

(** The mean of 0 and 13 with span 12 weighs them 11/13 to 1; a missing
    value in between only ages the earlier one. *)
Example ewm_mean_values :
  ewm_mean 12 [fz 0; fz 13] = [fz 0; fd 169 24]
  /\ ewm_mean 12 [fz 0; NaN; fz 13] = [fz 0; fz 0; fd 2197 290]
  /\ ewm_mean 12 [NaN; fz 5] = [NaN; fz 5].
Proof.
  repeat split; repeat (apply (f_equal2 cons)); try reflexivity;
    apply (f_equal Some); by apply Qc_is_canon.
Qed.

Example lower_folds_case : lower "MaCd" = "macd".
Proof. reflexivity. Qed.

Lemma quotes_lookup (n i : nat) (row : Bar) :
  quotes n !! i = Some row -> row = quote i /\ (i < n)%nat.
Proof.
  unfold quotes. rewrite list_lookup_fmap. intros H.
  destruct (seq 0 n !! i) as [j|] eqn:E; [|done].
  apply lookup_seq in E as [-> ?]. simpl in H. injection H as <-. done.
Qed.

Lemma at_most_one_open_position_witness :
  (length fifty_days <= length buy_flags)%nat
  /\ (length fifty_days <= length sell_flags)%nat
  /\ exists log final,
       _execute_trades TradingSimulator.init fifty_days
         buy_flags sell_flags = Ok (log, final)
       /\ (forall m, net_position (take m log) = 0%Z
                     \/ net_position (take m log) = 1%Z)
       /\ (forall tr, In tr log -> is_buy tr = true ->
             signalled_buy TradingSimulator.init fifty_days
               buy_flags sell_flags tr)
       /\ (forall k tr, log !! k = Some tr -> is_sell tr = true ->
             signalled_sell TradingSimulator.init fifty_days
               buy_flags sell_flags tr
             \/ (S k = length log
                 /\ forced_close TradingSimulator.init fifty_days
                      buy_flags sell_flags tr)).
Proof.
  split; [vm_compute; lia|]. split; [vm_compute; lia|].
  apply (at_most_one_open_position TradingSimulator.init fifty_days
           buy_flags sell_flags); vm_compute; lia.
Defined.

(** C2 as stated fails: on fifty sample rows with buy signals on rows 1
    and 20 and a sell signal on row 5, the second position is still open
    when the rows are exhausted, and the log ends with the SELL that
    closes it: an entry with "End of period" for a signal date, which
    answers no sell signal. *)
Lemma forced_close_answers_no_signal :
  exists log final tr,
    _execute_trades TradingSimulator.init fifty_days
      buy_flags sell_flags = Ok (log, final)
    /\ last log = Some tr
    /\ is_sell tr = true
    /\ signal_date (fill tr) = EndOfPeriod
    /\ ~ signalled_sell TradingSimulator.init fifty_days
           buy_flags sell_flags tr.
Proof.
  eexists _, _, _. split; [vm_compute; reflexivity|].
  split; [reflexivity|]. split; [reflexivity|]. split; [reflexivity|].
  intros (i & st & _ & _ & _ & _ & _ & sig_row & ex_row & _ & _ & Hdate & _).
  cbn [fill signal_date] in Hdate. discriminate.
Qed.

Lemma trades_fill_at_the_next_open_witness :
  (length fifty_days <= length buy_flags)%nat
  /\ (length fifty_days <= length sell_flags)%nat
  /\ exists log final,
       _execute_trades TradingSimulator.init fifty_days
         buy_flags sell_flags = Ok (log, final)
       /\ forall k tr, log !! k = Some tr ->
            (exists i, filled_after TradingSimulator.init fifty_days
                         buy_flags sell_flags i tr)
            \/ (S k = length log
                /\ forced_close TradingSimulator.init fifty_days
                     buy_flags sell_flags tr).
Proof.
  split; [vm_compute; lia|]. split; [vm_compute; lia|].
  apply (trades_fill_at_the_next_open TradingSimulator.init fifty_days
           buy_flags sell_flags); vm_compute; lia.
Defined.

Lemma final_bar_buy_signal_is_discarded_witness :
  (length fifty_days <= length late_buy_flags)%nat
  /\ (length fifty_days <= length no_flags)%nat
  /\ exists st,
       run TradingSimulator.init fifty_days late_buy_flags no_flags 49 = Ok st
       /\ late_buy_flags !! 49%nat = Some 1%Z
       /\ position_open st = false /\ pending_buy st = false
       /\ _execute_trades TradingSimulator.init fifty_days late_buy_flags no_flags
          = Ok (trades st, balance st)
       /\ _execute_trades TradingSimulator.init fifty_days
            (<[49%nat := 0%Z]> late_buy_flags) no_flags
          = Ok (trades st, balance st).
Proof.
  split; [vm_compute; lia|]. split; [vm_compute; lia|].
  destruct (final_bar_buy_signal_is_discarded TradingSimulator.init fifty_days
              late_buy_flags no_flags) as [Hlast _];
    [vm_compute; lia | vm_compute; lia |].
  eexists. split; [vm_compute; reflexivity|].
  split; [reflexivity|]. split; [reflexivity|]. split; [reflexivity|].
  apply Hlast; [discriminate | vm_compute; reflexivity | reflexivity
                | reflexivity | reflexivity].
Defined.

Lemma simulate_needs_fifty_rows_witness :
  initial_balance TradingSimulator.init <> fz 0
  /\ simulate TradingSimulator.init (quotes 49) "macd" "macd" None None
     = Ok (TradingSimulator.init,
           Error "Insufficient data for trading simulation (need >= 50 data points)")
  /\ exists sim,
       simulate TradingSimulator.init fifty_days "macd" "macd" None None
       = Ok (TradingSimulator.init, Result sim).
Proof.
  assert (Hbal : initial_balance TradingSimulator.init <> fz 0)
    by (vm_compute; discriminate).
  split; [exact Hbal|]. split.
  - apply (simulate_needs_fifty_rows TradingSimulator.init (quotes 49)
             "macd" "macd" None None Hbal). vm_compute. lia.
  - destruct (simulate_needs_fifty_rows TradingSimulator.init fifty_days
                "macd" "macd" None None Hbal) as [_ Hrun].
    destruct Hrun as (sim & _ & _ & _ & _ & _ & _ & _ & Hsim); [vm_compute; lia|].
    exists sim. exact Hsim.
Defined.

Lemma macd_is_built_from_weighted_means_witness :
  (Pos.to_nat 26 <= length (quotes 30))%nat
  /\ exists r,
       calculate_macd (quotes 30) 12 26 9 = Result r
       /\ length (histogram r) = length (quotes 30).
Proof.
  split; [vm_compute; lia|].
  destruct (macd_is_built_from_weighted_means (quotes 30) 12 26 9)
    as (r & Hr & Hlen & _); [vm_compute; lia|].
  exists r. split; [exact Hr | exact Hlen].
Defined.

(** C3 as stated fails: on thirty sample rows the MACD line that
    [calculate_macd] returns is not the one built from the recurrence
    seeded by the first close. *)
Lemma macd_is_not_built_from_the_recurrence :
  exists r closes,
    calculate_macd (quotes 30) 12 26 9 = Result r
    /\ column Close (quotes 30) = Some <$> closes
    /\ macd_line r
       <> Some <$> (macd_from (fun span => recurrence (smoothing span))
                      12 26 9 closes).1.1.
Proof.
  destruct (calculate_macd_enough (quotes 30) 12 26 9) as (r & Hr & Hline & _);
    [vm_compute; lia|].
  exists r, (omap Close (quotes 30)).
  split; [exact Hr|]. split; [reflexivity|].
  rewrite Hline. intros H.
  apply (f_equal (fun l => fmap this <$> l !! 1%nat)) in H.
  lazy in H. discriminate.
Qed.

Lemma kdj_series_follow_smoothing_witness :
  (Pos.to_nat 9 <= length (quotes 12))%nat
  /\ exists r,
       calculate_kdj (quotes 12) 9 3 3 = Result r
       /\ length (kdj_j r) = length (quotes 12).
Proof.
  split; [vm_compute; lia|].
  destruct (kdj_series_follow_smoothing (quotes 12) 9 3 3)
    as (r & Hr & _ & _ & _ & Hlen & _); [vm_compute; lia|].
  exists r. split; [exact Hr | exact Hlen].
Defined.

(** C4 as stated fails: with the first low missing, the RSV is first
    defined on row 1, and J on row 0 is 0, not undefined. *)
Lemma kdj_j_is_zero_before_the_first_rsv :
  exists r,
    calculate_kdj (gapped_quotes 12) 9 3 3 = Result r
    /\ first_valid_index (rsv_series (gapped_quotes 12) 9) = Some 1%nat
    /\ kdj_j r !! 0%nat = Some (fz 0)
    /\ kdj_j r !! 0%nat <> Some NaN.
Proof.
  eexists. split; [reflexivity|]. cbn [kdj_j].
  assert (Hfirst : first_valid_index (rsv_series (gapped_quotes 12) 9) = Some 1%nat)
    by (lazy; reflexivity).
  split; [exact Hfirst|].
  assert (H : (sub (scale_l (fz 3) (kd_series (rsv_series (gapped_quotes 12) 9)).1)
                   (scale_l (fz 2) (kd_series (rsv_series (gapped_quotes 12) 9)).2))
              !! 0%nat = Some (fz 0)).
  { assert (Hf : (1 < length (rsv_series (gapped_quotes 12) 9))%nat)
      by (rewrite rsv_series_length; vm_compute; lia).
    rewrite (kd_series_seeded _ 1 Hfirst Hf).
    destruct (smoothing_rounds _ 1 Hf (length (rsv_series (gapped_quotes 12) 9) - 2)
                ltac:(lia)) as (_ & _ & _ & _ & Hzero & _).
    destruct (Hzero 0%nat ltac:(lia) ltac:(lia)) as [Hk Hd].
    rewrite (j_lookup _ _ 0 _ _ Hk Hd). by rewrite j_of_zero. }
  split; [exact H|]. rewrite H. discriminate.
Qed.

Lemma macd_sell_signal_is_peak_detection_witness :
  lower "MACD" = "macd"
  /\ _check_sell_signal SignalDetector.init 2 "MACD"
       [fd 1 10; fd 3 10; fd 2 10] [] [] None = Ok true.
Proof.
  split; [reflexivity|].
  apply (macd_sell_signal_is_peak_detection SignalDetector.init 2 "MACD"
           [fd 1 10; fd 3 10; fd 2 10] [] [] None); [reflexivity|].
  split; [lia|]. exists (qd 1 10), (qd 3 10), (qd 2 10).
  repeat split; reflexivity.
Defined.

Lemma current_signal_resolution_witness :
  get_current_signal show_float show_int SignalDetector.init (quotes 2)
    "macd" "macd" None None
  = Ok (HOLD, "Insufficient data for signal detection", ∅)
  /\ get_current_signal show_float show_int SignalDetector.init (quotes 10)
       "macd" "macd" None None
     = Ok (HOLD, "Error calculating indicators", ∅).
Proof.
  split.
  - apply (current_signal_resolution show_float show_int SignalDetector.init
             (quotes 2) "macd" "macd" None None). vm_compute. lia.
  - apply (current_signal_resolution show_float show_int SignalDetector.init
             (quotes 10) "macd" "macd" None None); [vm_compute; lia|].
    reflexivity.
Defined.

Lemma scan_result_sortable (rules : list (gmap string string))
    (name : string) (gain rate : Qc) :
  sortable rules (scan_result name gain rate).
Proof.
  intros rule _. unfold numeric_at, scan_result, section.
  cbn [trading_summary statistics default from_option]. unfold id.
  set (f := rule_field rule). split.
  - intros v. rewrite !lookup_insert.
    repeat case_decide; intros; simplify_eq; eauto.
  - intros v. rewrite !lookup_insert.
    repeat case_decide; intros; simplify_eq; eauto.
Qed.




(** C7, the failing input: the rule "return_percentage < 10" removes the
    result with -3.1 and keeps the one with 15, but also keeps the one
    whose return_percentage is 0: a summary value of 0 counts as
    missing, and the statistics do not have the field. *)
Theorem exclude_rule_overlooks_zero :
  _apply_exclude_rules [losing; flat; modest; winning]
    [exclude_rule "return_percentage" "<" (qz 10)]
  = [flat; winning]
  /\ field_value flat "return_percentage" = PNum 0.
Proof. split; [vm_compute; reflexivity | reflexivity]. Qed.
End Checks.

(** * Signal rules *)

Module SignalRules.
Import Pandas TechnicalAnalysis SignalDetector Signals.
Import PandasFacts KdjFacts MacdFacts SignalFacts.

Lemma macd_buy_fires (self : SignalDetector.t)
    (index : nat) (indicator : string) (h k d : list float)
    (threshold : option float) :
  lower indicator = "macd" ->
  _check_buy_signal self index indicator h k d threshold = Ok true
  <-> (1 <= index)%nat
      /\ exists a b : Qc,
           h !! (index - 1)%nat = Some (Some a)
           /\ h !! index = Some (Some b)
           /\ a < 0 /\ 0 < b.
Proof.
  intros Hmacd. unfold _check_buy_signal. rewrite decide_True by done.
  destruct (index <? 1)%nat eqn:Hidx.
  { apply Nat.ltb_lt in Hidx. split; [done | intros [? _]; lia]. }
  apply Nat.ltb_ge in Hidx. unfold iloc.
  destruct (h !! (index - 1)%nat) as [x1|] eqn:E1; simpl;
    [|split; [done | by intros (_ & ? & ? & ? & _)]].
  destruct (h !! index) as [x0|] eqn:E0; simpl;
    [|split; [done | by intros (_ & ? & ? & _ & ? & _)]].
  destruct x1 as [a|]; simpl;
    [|split; [done | by intros (_ & ? & ? & ? & _)]].
  destruct x0 as [b|]; simpl;
    [|split; [done | by intros (_ & ? & ? & _ & ? & _)]].
  unfold fgtb, fltb, fz. change (qz 0) with (Q2Qc 0).
  split.
  - intros Hfire. injection Hfire as Hfire.
    apply andb_true_iff in Hfire as [Hlo Hhi].
    apply bool_decide_eq_true in Hlo, Hhi.
    split; [done|]. by exists a, b.
  - intros (_ & a' & b' & Ha & Hb & Hlo & Hhi).
    injection Ha as <-. injection Hb as <-.
    f_equal. rewrite andb_true_iff, !bool_decide_eq_true. done.
Qed.

(** X1: the MACD buy check fires at [index] exactly when [index >= 1], the
    histogram is defined at [index - 1] and [index], and it crossed from
    below zero to above zero between the two rows. *)
Theorem macd_buy_signal_is_zero_crossing (self : SignalDetector.t)
    (index : nat) (indicator : string) (h k d : list float)
    (threshold : option float) :
  lower indicator = "macd" ->
  _check_buy_signal self index indicator h k d threshold = Ok true
  <-> (1 <= index)%nat
      /\ exists a b : Qc,
           h !! (index - 1)%nat = Some (Some a)
           /\ h !! index = Some (Some b)
           /\ a < 0 /\ 0 < b.
Proof. apply macd_buy_fires. Qed.

(** X2: the KDJ checks compare K and D of the row with one threshold, the
    given one or else the detector's own: the buy check fires exactly
    when both are defined and below it, the sell check exactly when both
    are defined and above it; a NaN threshold never fires. *)
Theorem kdj_signals_compare_with_threshold (self : SignalDetector.t)
    (index : nat) (indicator : string) (h k d : list float)
    (threshold : option float) :
  lower indicator = "kdj" ->
  (_check_buy_signal self index indicator h k d threshold = Ok true
   <-> exists kv dv th : Qc,
         k !! index = Some (Some kv) /\ d !! index = Some (Some dv)
         /\ threshold_or threshold (kdj_buy_threshold self) = Some th
         /\ kv < th /\ dv < th)
  /\ (_check_sell_signal self index indicator h k d threshold = Ok true
      <-> exists kv dv th : Qc,
            k !! index = Some (Some kv) /\ d !! index = Some (Some dv)
            /\ threshold_or threshold (kdj_sell_threshold self) = Some th
            /\ th < kv /\ th < dv).
Proof.
  intros Hkdj.
  assert (Hnot : lower indicator <> "macd") by (rewrite Hkdj; done).
  unfold _check_buy_signal, _check_sell_signal.
  rewrite !(decide_False (P := lower indicator = "macd")) by done.
  rewrite !(decide_True (P := lower indicator = "kdj")) by done.
  unfold iloc.
  destruct (k !! index) as [kx|] eqn:Ek; simpl;
    [|split; (split; [done | by intros (? & ? & ? & ? & _)])].
  destruct (d !! index) as [dx|] eqn:Ed; simpl;
    [|split; (split; [done | by intros (? & ? & ? & _ & ? & _)])].
  destruct kx as [kv|]; simpl;
    [|split; (split; [done | by intros (? & ? & ? & ? & _)])].
  destruct dx as [dv|]; simpl;
    [|split; (split; [done | by intros (? & ? & ? & _ & ? & _)])].
  unfold fgtb, fltb. split.
  - destruct (threshold_or threshold (kdj_buy_threshold self)) as [th|];
      [|split; [by rewrite andb_false_r | by intros (? & ? & ? & _ & _ & ? & _)]].
    split.
    + intros Hfire. injection Hfire as Hfire.
      apply andb_true_iff in Hfire as [Hk Hd].
      apply bool_decide_eq_true in Hk, Hd. by exists kv, dv, th.
    + intros (kv' & dv' & th' & Hk & Hd & Hth & Hlk & Hld).
      injection Hk as <-. injection Hd as <-. injection Hth as <-.
      f_equal. rewrite andb_true_iff, !bool_decide_eq_true. done.
  - destruct (threshold_or threshold (kdj_sell_threshold self)) as [th|];
      [|split; [done | by intros (? & ? & ? & _ & _ & ? & _)]].
    split.
    + intros Hfire. injection Hfire as Hfire.
      apply andb_true_iff in Hfire as [Hk Hd].
      apply bool_decide_eq_true in Hk, Hd. by exists kv, dv, th.
    + intros (kv' & dv' & th' & Hk & Hd & Hth & Hlk & Hld).
      injection Hk as <-. injection Hd as <-. injection Hth as <-.
      f_equal. rewrite andb_true_iff, !bool_decide_eq_true. done.
Qed.

(** *** The loop of [generate_signals] *)

Lemma histogram_input_length (df : DataFrame) :
  length (histogram_input df) = length df.
Proof.
  unfold histogram_input, get_macd_histogram_series.
  destruct (decide (Pos.to_nat 26 <= length df)%nat) as [Hlen | Hlen].
  - destruct (calculate_macd_enough df 12 26 9 Hlen)
      as (r & -> & _ & _ & _ & _ & _ & ?). done.
  - unfold calculate_macd. rewrite too_few_rows by lia.
    unfold nan_series. by rewrite length_replicate.
Qed.

Lemma kd_input_length (df : DataFrame) :
  length (kd_input df).1 = length df /\ length (kd_input df).2 = length df.
Proof.
  unfold kd_input, get_kdj_series.
  destruct (decide (Pos.to_nat 9 <= length df)%nat) as [Hlen | Hlen].
  - destruct (calculate_kdj_enough df 9 3 3 Hlen) as (r & -> & ? & ?). done.
  - unfold calculate_kdj. rewrite too_few_rows by lia.
    cbn [fst snd]. unfold nan_series. by rewrite length_replicate.
Qed.

Lemma signal_loop_spec (self : SignalDetector.t) (bi si : string)
    (h k d : list float) (bt st : option float) (rows : list nat)
    (bs ss : list Z) :
  (forall i, In i rows -> (i < length h)%nat /\ (i < length k)%nat
                          /\ (i < length d)%nat) ->
  exists fb fs,
    signal_loop self bi si h k d bt st rows bs ss = Ok (bs ++ fb, ss ++ fs)
    /\ Forall2 (fun i z => exists b,
                  _check_buy_signal self i bi h k d bt = Ok b /\ z = flag b)
               rows fb
    /\ Forall2 (fun i z => exists s,
                  _check_sell_signal self i si h k d st = Ok s /\ z = flag s)
               rows fs.
Proof.
  revert bs ss. induction rows as [|i rows IH]; intros bs ss Hrows.
  - exists [], []. simpl. rewrite !app_nil_r. repeat split; constructor.
  - destruct (Hrows i ltac:(by left)) as (Hh & Hk & Hd).
    destruct (check_buy_signal_ok self i bi h k d bt Hh Hk Hd) as [b Hb].
    destruct (check_sell_signal_ok self i si h k d st Hh Hk Hd) as [s Hs].
    cbn [signal_loop]. rewrite Hb. cbn [mbind result_bind Py.bind].
    rewrite Hs. cbn [mbind result_bind Py.bind].
    destruct (IH (bs ++ [if b then 1%Z else 0%Z]) (ss ++ [if s then 1%Z else 0%Z]))
      as (fb & fs & Hloop & Hfb & Hfs).
    { intros j Hj. apply Hrows. by right. }
    exists (flag b :: fb), (flag s :: fs).
    rewrite Hloop, <- !app_assoc. split; [done|].
    split; constructor; eauto.
Qed.

Lemma generate_signals_spec (self : SignalDetector.t) (df : DataFrame)
    (bi si : string) (bt st : option float) :
  exists bs ss,
    generate_signals self df bi si bt st = Ok (bs, ss)
    /\ length bs = length df /\ length ss = length df
    /\ forall i, (i < length df)%nat ->
         exists b s,
           buy_at self df bi bt i = Ok b /\ sell_at self df si st i = Ok s
           /\ bs !! i = Some (flag b) /\ ss !! i = Some (flag s).
Proof.
  pose proof (histogram_input_length df) as Hh.
  destruct (kd_input_length df) as [Hk Hd].
  destruct (signal_loop_spec self bi si (histogram_input df)
              (kd_input df).1 (kd_input df).2 bt st (seq 0 (length df)) [] [])
    as (bs & ss & Hloop & Hbs & Hss).
  { intros i Hi. apply in_seq in Hi. lia. }
  exists bs, ss. split; [exact Hloop|].
  pose proof (Forall2_length _ _ _ Hbs) as Hlb.
  pose proof (Forall2_length _ _ _ Hss) as Hls.
  rewrite length_seq in Hlb, Hls.
  split; [done|]. split; [done|].
  intros i Hi.
  destruct (Forall2_lookup_l _ _ _ i i Hbs) as (z & Hz & b & Hb & ->).
  { by apply lookup_seq_lt. }
  destruct (Forall2_lookup_l _ _ _ i i Hss) as (z & Hz' & s & Hs & ->).
  { by apply lookup_seq_lt. }
  by exists b, s.
Qed.

(** X3: [generate_signals] never fails: for every data frame and every pair
    of indicator names it returns one buy flag and one sell flag per row,
    and the flag of row [i] is 1 exactly when the per-row check of that
    row fires on the indicator series (NaN throughout when the engine
    reports an error). *)
Theorem generate_signals_checks_every_row (self : SignalDetector.t)
    (df : DataFrame) (bi si : string) (bt st : option float) :
  exists bs ss,
    generate_signals self df bi si bt st = Ok (bs, ss)
    /\ length bs = length df /\ length ss = length df
    /\ forall i, (i < length df)%nat ->
         exists b s,
           buy_at self df bi bt i = Ok b /\ sell_at self df si st i = Ok s
           /\ bs !! i = Some (flag b) /\ ss !! i = Some (flag s)
           /\ (bs !! i = Some 1%Z <-> b = true)
           /\ (ss !! i = Some 1%Z <-> s = true).
Proof.
  destruct (generate_signals_spec self df bi si bt st)
    as (bs & ss & Hgen & Hlb & Hls & Hrows).
  exists bs, ss. do 3 (split; [done|]).
  intros i Hi. destruct (Hrows i Hi) as (b & s & Hb & Hs & Hbi & Hsi).
  exists b, s. do 4 (split; [done|]).
  rewrite Hbi, Hsi. split; [destruct b | destruct s]; simpl; split; congruence.
Qed.

(** X4: with MACD as both indicators the two checks exclude each other at
    every row: the buy check needs a negative histogram in the previous
    row, the sell check a positive one.  So no row of [generate_signals]
    carries both flags. *)
Theorem macd_signals_never_conflict (self : SignalDetector.t)
    (df : DataFrame) (bi si : string) (bt st : option float) :
  lower bi = "macd" -> lower si = "macd" ->
  (forall index h k d,
     ~ (_check_buy_signal self index bi h k d bt = Ok true
        /\ _check_sell_signal self index si h k d st = Ok true))
  /\ exists bs ss,
       generate_signals self df bi si bt st = Ok (bs, ss)
       /\ forall i, ~ (bs !! i = Some 1%Z /\ ss !! i = Some 1%Z).
Proof.
  intros Hb Hs.
  assert (Hexcl : forall index h k d,
    ~ (_check_buy_signal self index bi h k d bt = Ok true
       /\ _check_sell_signal self index si h k d st = Ok true)).
  { intros index h k d [Hbuy Hsell].
    unfold _check_buy_signal in Hbuy. unfold _check_sell_signal in Hsell.
    rewrite decide_True in Hbuy by done.
    rewrite decide_True in Hsell by done.
    destruct (index <? 2)%nat eqn:H2; [done|].
    apply Nat.ltb_ge in H2.
    replace (index <? 1)%nat with false in Hbuy
      by (symmetry; apply Nat.ltb_ge; lia).
    unfold iloc in *.
    destruct (h !! (index - 2)%nat) as [[a|]|]; simpl in Hsell; try done;
      destruct (h !! (index - 1)%nat) as [[b|]|]; simpl in Hbuy, Hsell; try done;
      destruct (h !! index) as [[c|]|]; simpl in Hbuy, Hsell; try done.
    injection Hbuy as Hbuy. injection Hsell as Hsell.
    apply andb_true_iff in Hbuy as [Hneg _].
    apply andb_true_iff in Hsell as [_ Hpos].
    unfold fgtb, fltb, fz in *. apply bool_decide_eq_true in Hneg, Hpos.
    exact (Qclt_not_eq _ _ (Qclt_trans _ _ _ Hpos Hneg) eq_refl). }
  split; [exact Hexcl|].
  destruct (generate_signals_spec self df bi si bt st)
    as (bs & ss & Hgen & Hlb & Hls & Hrows).
  exists bs, ss. split; [done|]. intros i [Hbi Hsi].
  assert (Hi : (i < length df)%nat).
  { rewrite <- Hlb. by apply lookup_lt_is_Some_1; eexists. }
  destruct (Hrows i Hi) as (b & s & Hbuy & Hsell & Hfb & Hfs).
  rewrite Hfb in Hbi. rewrite Hfs in Hsi.
  destruct b; [|done]. destruct s; [|done].
  exact (Hexcl _ _ _ _ (conj Hbuy Hsell)).
Qed.

Lemma nan_series_lookup (n i : nat) (x : float) :
  nan_series n !! i = Some x -> x = NaN.
Proof. unfold nan_series. intros H. by apply lookup_replicate in H as [-> _]. Qed.

Lemma unknown_indicator_silent (self : SignalDetector.t)
    (df : DataFrame) (bi si : string) (bt st : option float) :
  exists bs ss,
    generate_signals self df bi si bt st = Ok (bs, ss)
    /\ (lower bi <> "macd" -> lower bi <> "kdj" ->
        bs = replicate (length df) 0%Z)
    /\ (lower si <> "macd" -> lower si <> "kdj" ->
        ss = replicate (length df) 0%Z)
    /\ length ss = length df.
Proof.
  destruct (generate_signals_spec self df bi si bt st)
    as (bs & ss & Hgen & Hlb & Hls & Hrows).
  exists bs, ss. split; [done|]. split; [|split; [|done]]; intros Hm Hk.
  - apply list_eq_same_length with (length df);
      [by rewrite ?length_replicate | by rewrite ?length_replicate |].
    intros i x y Hi Hx Hy. apply lookup_replicate in Hy as [-> _].
    destruct (Hrows i Hi) as (b & s & Hbuy & _ & Hfb & _).
    unfold buy_at, _check_buy_signal in Hbuy.
    rewrite !decide_False in Hbuy by done. injection Hbuy as <-.
    rewrite Hfb in Hx. by injection Hx as <-.
  - apply list_eq_same_length with (length df);
      [by rewrite ?length_replicate | by rewrite ?length_replicate |].
    intros i x y Hi Hx Hy. apply lookup_replicate in Hy as [-> _].
    destruct (Hrows i Hi) as (b & s & _ & Hsell & _ & Hfs).
    unfold sell_at, _check_sell_signal in Hsell.
    rewrite !decide_False in Hsell by done. injection Hsell as <-.
    rewrite Hfs in Hx. by injection Hx as <-.
Qed.

(** X5: an indicator name that is neither "macd" nor "kdj" (in any letter
    case) is accepted by [generate_signals] and raises no signal: the
    flags of that side are 0 in every row. *)
Theorem unknown_indicator_raises_no_signal (self : SignalDetector.t)
    (df : DataFrame) (bi si : string) (bt st : option float) :
  exists bs ss,
    generate_signals self df bi si bt st = Ok (bs, ss)
    /\ (lower bi <> "macd" -> lower bi <> "kdj" ->
        bs = replicate (length df) 0%Z)
    /\ (lower si <> "macd" -> lower si <> "kdj" ->
        ss = replicate (length df) 0%Z).
Proof.
  destruct (unknown_indicator_silent self df bi si bt st)
    as (bs & ss & Hgen & Hb & Hs & _).
  by exists bs, ss.
Qed.

(** X6: below the period of an indicator the engine reports an error, the
    detector falls back on NaN series, and no signal is raised: with
    fewer than 26 rows a MACD side has no flag, with fewer than 9 rows a
    KDJ side has none. *)
Theorem short_history_raises_no_signal (self : SignalDetector.t)
    (df : DataFrame) (bi si : string) (bt st : option float) :
  exists bs ss,
    generate_signals self df bi si bt st = Ok (bs, ss)
    /\ (lower bi = "macd" -> (length df < 26)%nat ->
        bs = replicate (length df) 0%Z)
    /\ (lower bi = "kdj" -> (length df < 9)%nat ->
        bs = replicate (length df) 0%Z)
    /\ (lower si = "macd" -> (length df < 26)%nat ->
        ss = replicate (length df) 0%Z)
    /\ (lower si = "kdj" -> (length df < 9)%nat ->
        ss = replicate (length df) 0%Z).
Proof.
  destruct (generate_signals_spec self df bi si bt st)
    as (bs & ss & Hgen & Hlb & Hls & Hrows).
  assert (Hh : (length df < 26)%nat ->
               histogram_input df = nan_series (length df)).
  { intros Hlen. unfold histogram_input, get_macd_histogram_series, calculate_macd.
    rewrite too_few_rows; [done|]. change (Pos.to_nat 26) with 26%nat. lia. }
  assert (Hkd : (length df < 9)%nat ->
                kd_input df = (nan_series (length df), nan_series (length df))).
  { intros Hlen. unfold kd_input, get_kdj_series, calculate_kdj.
    rewrite too_few_rows; [done|]. change (Pos.to_nat 9) with 9%nat. lia. }
  assert (Hnan : forall n i, (i < n)%nat -> iloc (nan_series n) i = Ok NaN).
  { intros n i Hi. unfold iloc, nan_series.
    by rewrite lookup_replicate_2. }
  exists bs, ss. split; [done|].
  repeat split; intros Hind Hlen;
    (apply list_eq_same_length with (length df);
       [by rewrite ?length_replicate | by rewrite ?length_replicate |]);
    intros i x y Hi Hx Hy; apply lookup_replicate in Hy as [-> _];
    destruct (Hrows i Hi) as (b & s & Hbuy & Hsell & Hfb & Hfs).
  - unfold buy_at, _check_buy_signal in Hbuy.
    rewrite decide_True, (Hh Hlen) in Hbuy by done.
    destruct (i <? 1)%nat eqn:E.
    + injection Hbuy as <-. rewrite Hfb in Hx. by injection Hx as <-.
    + apply Nat.ltb_ge in E. rewrite !Hnan in Hbuy by lia.
      injection Hbuy as <-. rewrite Hfb in Hx. by injection Hx as <-.
  - unfold buy_at, _check_buy_signal in Hbuy.
    rewrite decide_False, decide_True, (Hkd Hlen) in Hbuy by (rewrite ?Hind; done).
    cbn [fst snd] in Hbuy. rewrite !Hnan in Hbuy by lia.
    injection Hbuy as <-. rewrite Hfb in Hx. by injection Hx as <-.
  - unfold sell_at, _check_sell_signal in Hsell.
    rewrite decide_True, (Hh Hlen) in Hsell by done.
    destruct (i <? 2)%nat eqn:E.
    + injection Hsell as <-. rewrite Hfs in Hx. by injection Hx as <-.
    + apply Nat.ltb_ge in E. rewrite !Hnan in Hsell by lia.
      injection Hsell as <-. rewrite Hfs in Hx. by injection Hx as <-.
  - unfold sell_at, _check_sell_signal in Hsell.
    rewrite decide_False, decide_True, (Hkd Hlen) in Hsell by (rewrite ?Hind; done).
    cbn [fst snd] in Hsell. rewrite !Hnan in Hsell by lia.
    injection Hsell as <-. rewrite Hfs in Hx. by injection Hx as <-.
Qed.

End SignalRules.

(** * Ranges of the indicators *)

Module IndicatorRanges.
Import Pandas TechnicalAnalysis Kdj Bars.
Import PandasFacts KdjFacts.

Lemma two_thirds_one_third : qd 2 3 + qd 1 3 = 1.
Proof. by apply Qc_is_canon. Qed.

Lemma convex_within (lo hi : Z) (a b : float) :
  within lo hi a -> within lo hi b -> within lo hi (smoothed a b).
Proof.
  intros (x & -> & Hx1 & Hx2) (y & -> & Hy1 & Hy2).
  exists (qd 2 3 * x + qd 1 3 * y). split; [done|].
  assert (H23 : 0 <= qd 2 3) by done.
  assert (H13 : 0 <= qd 1 3) by done.
  split.
  - rewrite <- (Qcmult_1_l (qz lo)), <- two_thirds_one_third.
    rewrite Qcmult_plus_distr_l.
    apply Qcplus_le_compat; by apply Qcmult_le_mono_nonneg_l.
  - rewrite <- (Qcmult_1_l (qz hi)), <- two_thirds_one_third.
    rewrite Qcmult_plus_distr_l.
    apply Qcplus_le_compat; by apply Qcmult_le_mono_nonneg_l.
Qed.

Lemma In_trailing {A} (window : nat) (l : list A) (i : nat) (x : A) :
  (1 <= window)%nat -> l !! i = Some x -> In x (trailing window l i).
Proof.
  intros Hw Hx. apply list_elem_of_In. unfold trailing.
  apply list_elem_of_lookup. exists (i - (S i - window))%nat.
  rewrite lookup_drop.
  replace (S i - window + (i - (S i - window)))%nat with i by lia.
  rewrite lookup_take_lt by lia. done.
Qed.

Lemma rsv_of_within (c lo hi : Qc) :
  lo <= c -> c <= hi -> within 0 100 (rsv_of (Some c) (Some lo) (Some hi)).
Proof.
  intros Hlo Hhi. unfold rsv_of, clamp, fsub, lift2, feqb, fz.
  change (qz 0) with (Q2Qc 0).
  case_bool_decide as Hz.
  - assert (c = lo) as ->.
    { apply Qcle_antisym; [|done].
      assert (hi = lo) as <-; [|done].
      rewrite <- (Qcplus_0_l lo), <- Hz. ring. }
    unfold fdiv. rewrite decide_False by (by intros H%(f_equal this)). simpl.
    exists 0. split; [f_equal; unfold Qcdiv; ring|]. done.
  - unfold fdiv. rewrite decide_False by done. simpl.
    eexists. split; [done|].
    assert (Hpos : 0 < hi - lo).
    { assert (Hle : lo <= hi) by exact (Qcle_trans _ _ _ Hlo Hhi).
      apply Qcle_lt_or_eq in Hle as [Hlt | ->].
      - apply (proj1 (Qclt_minus_iff lo hi)) in Hlt. exact Hlt.
      - destruct Hz. ring. }
    assert (Hnum : 0 <= c - lo).
    { by apply (proj1 (Qcle_minus_iff lo c)). }
    assert (Hfrac0 : 0 <= (c - lo) / (hi - lo)).
    { apply Qcmult_nonneg_nonneg; [done|].
      apply Qclt_le_weak. by apply Qcinv_pos. }
    assert (Hfrac1 : (c - lo) / (hi - lo) <= 1).
    { apply (Qcmult_le_mono_pos_r _ _ (hi - lo)); [done|].
      rewrite Qcmult_1_l. unfold Qcdiv.
      rewrite <- Qcmult_assoc, (Qcmult_comm (/ _)), Qcmult_inv_r by done.
      rewrite Qcmult_1_r.
      unfold Qcminus. by apply (proj1 (Qcplus_le_mono_r c hi (- lo))). }
    split.
    + change (qz 0) with (Q2Qc 0). apply Qcmult_nonneg_nonneg; done.
    + rewrite <- (Qcmult_1_l (qz 100)).
      apply Qcmult_le_mono_nonneg_r; done.
Qed.

Lemma rsv_series_within (df : DataFrame) (k_period : positive) :
  (forall row, In row df -> well_formed row) ->
  forall i, (i < length df)%nat ->
    exists x, rsv_series df k_period !! i = Some x /\ within 0 100 x.
Proof.
  intros Hwf i Hi.
  destruct (lookup_lt_is_Some_2 df i Hi) as [row Hrow].
  rewrite (rsv_series_lookup df k_period i row Hrow).
  eexists. split; [done|].
  destruct (Hwf row) as (lo & c & hi & Hlo & Hc & Hhi & Hlc & Hch).
  { apply list_elem_of_In. by eapply list_elem_of_lookup_2. }
  rewrite Hc.
  set (w := Pos.to_nat k_period).
  assert (Hw : (1 <= w)%nat) by (unfold w; lia).
  pose proof (window_min_least (trailing w (column Low df) i)) as Hmin.
  pose proof (window_max_greatest (trailing w (column High df) i)) as Hmax.
  assert (Hlow : In (Some lo) (trailing w (column Low df) i)).
  { apply In_trailing; [done|]. unfold column.
    rewrite list_lookup_fmap, Hrow. simpl. by rewrite Hlo. }
  assert (Hhigh : In (Some hi) (trailing w (column High df) i)).
  { apply In_trailing; [done|]. unfold column.
    rewrite list_lookup_fmap, Hrow. simpl. by rewrite Hhi. }
  destruct (reduce qmin _) as [m|]; [|by destruct (Hmin lo)].
  destruct (reduce qmax _) as [M|]; [|by destruct (Hmax hi)].
  destruct Hmin as [_ Hmin]. destruct Hmax as [_ Hmax].
  apply rsv_of_within.
  - etrans; [by apply Hmin | done].
  - etrans; [done | by apply Hmax].
Qed.

(** X7: on bars whose low, close and high are defined with
    [low <= close <= high], the raw stochastic value of every row is
    defined and lies between 0 and 100; this includes the rows where the
    window is flat and the zero denominator is replaced by 1. *)
Theorem rsv_is_a_percentage (df : DataFrame) (k_period : positive) :
  (forall row, In row df -> well_formed row) ->
  forall i, (i < length df)%nat ->
    exists q : Qc, rsv_series df k_period !! i = Some (Some q)
                   /\ 0 <= q /\ q <= qz 100.
Proof.
  intros Hwf i Hi.
  destruct (rsv_series_within df k_period Hwf i Hi) as (x & Hx & q & -> & H0 & H1).
  by exists q.
Qed.

Lemma within_0_50_100 : within 0 100 (fz 50) /\ within 0 100 (fz 0).
Proof. split; eexists; (split; [done|]); done. Qed.

Lemma kd_series_within (rsv : list float) :
  (forall i x, rsv !! i = Some x -> within 0 100 x) ->
  forall i, (i < length rsv)%nat ->
    exists kv dv, (kd_series rsv).1 !! i = Some kv
                  /\ (kd_series rsv).2 !! i = Some dv
                  /\ within 0 100 kv /\ within 0 100 dv.
Proof.
  intros Hrsv.
  destruct within_0_50_100 as [H50 H0].
  pose proof (first_valid_index_spec rsv) as Hfirst.
  destruct (first_valid_index rsv) as [f|] eqn:Ef.
  - destruct Hfirst as [[q Hq] _].
    assert (Hf : (f < length rsv)%nat) by (apply lookup_lt_is_Some_1; eauto).
    rewrite (kd_series_seeded rsv f Ef Hf).
    destruct (smoothing_rounds rsv f Hf (length rsv - S f) ltac:(lia))
      as (Hlk & Hld & Hkf & Hdf & Hout & Hin).
    set (kd := foldl (smooth rsv) _ _) in *.
    assert (Hall : forall n i, (i <= n)%nat -> (i < length rsv)%nat ->
              exists kv dv, kd.1 !! i = Some kv /\ kd.2 !! i = Some dv
                            /\ within 0 100 kv /\ within 0 100 dv).
    { induction n as [|n IH]; intros i Hle Hi.
      - assert (i = 0)%nat as -> by lia.
        destruct (decide (f = 0)%nat) as [-> | Hne].
        + by exists (fz 50), (fz 50).
        + destruct (Hout 0%nat ltac:(lia) Hi) as [Hk Hd].
          by exists (fz 0), (fz 0).
      - destruct (decide (i <= n)%nat) as [|Hn]; [by apply IH|].
        assert (i = S n) as -> by lia.
        destruct (decide (S n < f)%nat) as [Hlt | Hge].
        { destruct (Hout (S n) ltac:(lia) Hi) as [Hk Hd].
          by exists (fz 0), (fz 0). }
        destruct (decide (S n = f)) as [<- | Hne].
        { by exists (fz 50), (fz 50). }
        destruct (Hin (S n) ltac:(lia)) as (kp & dp & x & Hkp & Hdp & Hx & Hk & Hd).
        replace (S n - 1)%nat with n in Hkp, Hdp by lia.
        destruct (IH n ltac:(lia) ltac:(lia)) as (kp' & dp' & Hkp' & Hdp' & Wk & Wd).
        rewrite Hkp in Hkp'. rewrite Hdp in Hdp'.
        injection Hkp' as <-. injection Hdp' as <-.
        pose proof (Hrsv _ _ Hx) as Wx.
        eexists _, _. split; [exact Hk|]. split; [exact Hd|].
        split; [by apply convex_within|].
        apply convex_within; [done|]. by apply convex_within. }
    intros i Hi. by apply (Hall i).
  - rewrite (kd_series_unseeded rsv Ef). cbn [fst snd].
    intros i Hi. exists (fz 0), (fz 0).
    rewrite !lookup_replicate_2 by done. done.
Qed.

(** X8: on such bars K and D of every row are defined and lie between 0 and
    100, and J between -200 and 300: K and D start from 50 (or are 0)
    and each later value is a 2/3 - 1/3 mean of values in that range. *)
Theorem kdj_stays_in_range (df : DataFrame)
    (k_period d_period j_period : positive) :
  (Pos.to_nat k_period <= length df)%nat ->
  (forall row, In row df -> well_formed row) ->
  exists r,
    calculate_kdj df k_period d_period j_period = Result r
    /\ forall i, (i < length df)%nat ->
         exists kv dv jv,
           kdj_k r !! i = Some kv /\ kdj_d r !! i = Some dv
           /\ kdj_j r !! i = Some jv
           /\ within 0 100 kv /\ within 0 100 dv /\ within (-200) 300 jv.
Proof.
  intros Hlen Hwf. unfold calculate_kdj.
  rewrite enough_rows by lia.
  eexists. split; [done|]. cbn [kdj_k kdj_d kdj_j].
  intros i Hi.
  destruct (kd_series_within (rsv_series df k_period)) with (i := i)
    as (kv & dv & Hk & Hd & Wk & Wd).
  { intros j x Hx.
    assert (Hj : (j < length df)%nat).
    { rewrite <- (rsv_series_length df k_period).
      apply lookup_lt_is_Some_1. eauto. }
    destruct (rsv_series_within df k_period Hwf j Hj) as (x' & Hx' & W).
    rewrite Hx in Hx'. by injection Hx' as <-. }
  { by rewrite rsv_series_length. }
  exists kv, dv. eexists.
  split; [done|]. split; [done|].
  split; [by apply j_lookup|]. split; [done|]. split; [done|].
  destruct Wk as (a & -> & Ha0 & Ha1). destruct Wd as (b & -> & Hb0 & Hb1).
  eexists. split; [done|].
  change (qz 0) with (Q2Qc 0) in *.
  split.
  - replace (qz (-200)) with (qz 3 * 0 - qz 2 * qz 100) by (by apply Qc_is_canon).
    apply Qcplus_le_compat; [by apply Qcmult_le_mono_nonneg_l|].
    apply Qcopp_le_compat. by apply Qcmult_le_mono_nonneg_l.
  - replace (qz 300) with (qz 3 * qz 100 - qz 2 * 0) by (by apply Qc_is_canon).
    apply Qcplus_le_compat; [by apply Qcmult_le_mono_nonneg_l|].
    apply Qcopp_le_compat. by apply Qcmult_le_mono_nonneg_l.
Qed.

End IndicatorRanges.

(** * MACD on special inputs *)

Module MacdRules.
Import Pandas TechnicalAnalysis SignalDetector Signals.
Import PandasFacts MacdFacts SignalFacts SignalRules.

(** The first value of an exponentially weighted mean is the first input. *)
Lemma ewm_mean_first (span : positive) (v0 : float) (rest : list float) :
  ewm_mean span (v0 :: rest) !! 0%nat = Some v0.
Proof. simpl. unfold ewm_out. simpl. by destruct v0. Qed.

Lemma ewm_step_constant (alpha c : Qc) (st : ewm_state) :
  weighted st = Some c ->
  weighted (ewm_step alpha st (Some c)) = Some c
  /\ nobs (ewm_step alpha st (Some c)) = (nobs st + 1)%nat.
Proof.
  intros Hw. unfold ewm_step. rewrite Hw. simpl. by rewrite decide_True.
Qed.

Lemma ewm_loop_constant (alpha c : Qc) (st : ewm_state) (n : nat) :
  weighted st = Some c -> (1 <= nobs st)%nat ->
  ewm_loop alpha 1 st (replicate n (Some c)) = replicate n (Some c).
Proof.
  revert st. induction n as [|n IH]; intros st Hw Hn; [done|].
  cbn [replicate ewm_loop].
  destruct (ewm_step_constant alpha c st Hw) as [Hw' Hn'].
  rewrite IH by (rewrite ?Hn'; first [done | lia]).
  unfold ewm_out. rewrite Hw', Hn'.
  replace (1 <=? nobs st + 1)%nat with true by (symmetry; apply Nat.leb_le; lia).
  done.
Qed.

Lemma ewm_mean_constant (span : positive) (c : Qc) (n : nat) :
  ewm_mean span (replicate n (Some c)) = replicate n (Some c).
Proof.
  destruct n as [|n]; [done|]. simpl. unfold ewm_out at 1. simpl.
  f_equal. by apply ewm_loop_constant.
Qed.

Lemma sub_constant (a b : Qc) (n : nat) :
  sub (replicate n (Some a)) (replicate n (Some b)) = replicate n (Some (a - b)).
Proof. unfold sub. induction n as [|n IH]; simpl; [done|]. by rewrite IH. Qed.

Lemma fz_0_minus (a : Qc) : Some (a - a) = fz 0.
Proof. unfold fz. f_equal. change (qz 0) with (Q2Qc 0). ring. Qed.

Lemma column_constant (df : DataFrame) (c : Qc) :
  (forall row, In row df -> Close row = Some c) ->
  column Close df = replicate (length df) (Some c).
Proof.
  intros Hc. unfold column. induction df as [|row df IH]; simpl; [done|].
  rewrite (Hc row) by (by left). f_equal. apply IH.
  intros r Hr. apply Hc. by right.
Qed.

Lemma macd_of_flat_prices (df : DataFrame) (fast slow signal : positive) (c : Qc) :
  (Pos.to_nat slow <= length df)%nat ->
  (forall row, In row df -> Close row = Some c) ->
  exists r,
    calculate_macd df fast slow signal = Result r
    /\ macd_line r = replicate (length df) (fz 0)
    /\ signal_line r = replicate (length df) (fz 0)
    /\ histogram r = replicate (length df) (fz 0).
Proof.
  intros Hlen Hflat.
  destruct (calculate_macd_enough df fast slow signal Hlen)
    as (r & Hr & Hline & Hsig & Hhist & _).
  exists r. split; [done|].
  rewrite (column_constant df c Hflat), !ewm_mean_constant, sub_constant,
    fz_0_minus in Hline.
  rewrite Hline in Hsig. unfold fz in Hsig. rewrite ewm_mean_constant in Hsig.
  rewrite Hline, Hsig in Hhist. unfold fz in Hhist.
  rewrite sub_constant, fz_0_minus in Hhist.
  done.
Qed.

(** X9: when every close is the same number, the MACD line, the signal line
    and the histogram are 0 in every row (the weighted mean of a constant
    is that constant), and with MACD on both sides [generate_signals]
    raises no signal at all. *)
Theorem flat_prices_give_no_macd_signal (self : SignalDetector.t)
    (df : DataFrame) (c : Qc) (bi si : string) (bt st : option float) :
  (26 <= length df)%nat ->
  (forall row, In row df -> Close row = Some c) ->
  lower bi = "macd" -> lower si = "macd" ->
  (exists r,
     calculate_macd df 12 26 9 = Result r
     /\ macd_line r = replicate (length df) (fz 0)
     /\ signal_line r = replicate (length df) (fz 0)
     /\ histogram r = replicate (length df) (fz 0))
  /\ generate_signals self df bi si bt st
     = Ok (replicate (length df) 0%Z, replicate (length df) 0%Z).
Proof.
  intros Hlen Hflat Hb Hs.
  destruct (macd_of_flat_prices df 12 26 9 c) as (r & Hr & Hline & Hsig & Hhist);
    [change (Pos.to_nat 26) with 26%nat; lia | done |].
  split; [by exists r|].
  destruct (generate_signals_spec self df bi si bt st)
    as (bs & ss & Hgen & Hlb & Hls & Hrows).
  rewrite Hgen.
  assert (Hh : histogram_input df = replicate (length df) (fz 0)).
  { unfold histogram_input, get_macd_histogram_series. by rewrite Hr. }
  assert (Hz : forall i, (i < length df)%nat ->
            iloc (replicate (length df) (fz 0)) i = Ok (fz 0)).
  { intros i Hi. unfold iloc. by rewrite lookup_replicate_2. }
  assert (Hflags : forall i, (i < length df)%nat ->
            bs !! i = Some 0%Z /\ ss !! i = Some 0%Z).
  { intros i Hi. destruct (Hrows i Hi) as (b & s & Hbuy & Hsell & -> & ->).
    unfold buy_at, _check_buy_signal in Hbuy.
    unfold sell_at, _check_sell_signal in Hsell.
    rewrite decide_True, Hh in Hbuy by done.
    rewrite decide_True, Hh in Hsell by done.
    split.
    - destruct (i <? 1)%nat eqn:E; [by injection Hbuy as <-|].
      apply Nat.ltb_ge in E. rewrite !Hz in Hbuy by lia.
      by injection Hbuy as <-.
    - destruct (i <? 2)%nat eqn:E; [by injection Hsell as <-|].
      apply Nat.ltb_ge in E. rewrite !Hz in Hsell by lia.
      by injection Hsell as <-. }
  f_equal. f_equal.
  - apply list_eq_same_length with (length df);
      [by rewrite length_replicate | done |].
    intros i x y Hi Hx Hy. apply lookup_replicate in Hy as [-> _].
    destruct (Hflags i Hi) as [Hbi _]. congruence.
  - apply list_eq_same_length with (length df);
      [by rewrite length_replicate | done |].
    intros i x y Hi Hx Hy. apply lookup_replicate in Hy as [-> _].
    destruct (Hflags i Hi) as [_ Hsi]. congruence.
Qed.

Lemma histogram_first (df : DataFrame) (r : MACD) :
  calculate_macd df 12 26 9 = Result r ->
  histogram r !! 0%nat = Some (fz 0) \/ histogram r !! 0%nat = Some NaN.
Proof.
  intros Hr.
  assert (H26 : (Pos.to_nat 26 <= length df)%nat).
  { destruct (decide (Pos.to_nat 26 <= length df)%nat) as [|Hn]; [done|].
    unfold calculate_macd in Hr. rewrite too_few_rows in Hr by lia. done. }
  destruct (calculate_macd_enough df 12 26 9 H26)
    as (r' & Hr' & Hline & Hsig & Hhist & _).
  rewrite Hr in Hr'. injection Hr' as <-.
  destruct df as [|row df]; [simpl in H26; lia|].
  assert (Hl0 : macd_line r !! 0%nat = Some (fsub (Close row) (Close row))).
  { rewrite Hline. unfold sub, column. rewrite fmap_cons.
    rewrite lookup_zip_with, !ewm_mean_first. done. }
  assert (Hs0 : signal_line r !! 0%nat = Some (fsub (Close row) (Close row))).
  { rewrite Hsig. destruct (macd_line r) as [|m0 l]; [done|].
    rewrite ewm_mean_first. by rewrite <- Hl0. }
  assert (Hh0 : histogram r !! 0%nat
                = Some (fsub (fsub (Close row) (Close row))
                             (fsub (Close row) (Close row)))).
  { rewrite Hhist. unfold sub at 1. by rewrite lookup_zip_with, Hl0, Hs0. }
  rewrite Hh0. destruct (Close row) as [c|]; [left | right; reflexivity].
  change (Some (Some (c - c - (c - c))) = Some (Some (qz 0))).
  do 2 f_equal. change (qz 0) with (Q2Qc 0). ring.
Qed.

(** X10: the histogram starts at 0 (or NaN, when the first close is missing),
    because every exponentially weighted mean starts at its first input.
    Hence no MACD signal is raised on the first two rows: the earliest
    row that can carry a MACD buy or sell flag is row 2. *)
Theorem macd_signals_start_at_row_two (self : SignalDetector.t)
    (df : DataFrame) (bi si : string) (bt st : option float) :
  (forall r, calculate_macd df 12 26 9 = Result r ->
     histogram r !! 0%nat = Some (fz 0) \/ histogram r !! 0%nat = Some NaN)
  /\ exists bs ss,
       generate_signals self df bi si bt st = Ok (bs, ss)
       /\ (lower bi = "macd" ->
           forall i, (i < 2)%nat -> bs !! i <> Some 1%Z)
       /\ (lower si = "macd" ->
           forall i, (i < 2)%nat -> ss !! i <> Some 1%Z).
Proof.
  split; [intros r Hr; by apply (histogram_first df)|].
  destruct (generate_signals_spec self df bi si bt st)
    as (bs & ss & Hgen & Hlb & Hls & Hrows).
  exists bs, ss. split; [done|].
  split; intros Hind i Hi Hflag.
  - assert (Hlt : (i < length df)%nat).
    { rewrite <- Hlb. apply lookup_lt_is_Some_1. eauto. }
    destruct (Hrows i Hlt) as (b & s & Hbuy & _ & Hfb & _).
    rewrite Hfb in Hflag. destruct b; [|done].
    apply macd_buy_fires in Hbuy; [|done].
    destruct Hbuy as (Hge & a & b & Ha & _ & Hneg & _).
    assert (i = 1)%nat as -> by lia. change (1 - 1)%nat with 0%nat in Ha.
    unfold histogram_input, get_macd_histogram_series in Ha.
    destruct (calculate_macd df 12 26 9) as [|r] eqn:Hr.
    + by apply nan_series_lookup in Ha.
    + destruct (histogram_first df r Hr) as [H0 | H0];
        pose proof (eq_trans (eq_sym Ha) H0) as E; [|done].
      injection E as ->. by apply Qclt_not_eq in Hneg.
  - assert (Hlt : (i < length df)%nat).
    { rewrite <- Hls. apply lookup_lt_is_Some_1. eauto. }
    destruct (Hrows i Hlt) as (b & s & _ & Hsell & _ & Hfs).
    rewrite Hfs in Hflag. destruct s; [|done].
    unfold sell_at, _check_sell_signal in Hsell.
    rewrite decide_True in Hsell by done.
    replace (i <? 2)%nat with true in Hsell
      by (symmetry; apply Nat.ltb_lt; lia).
    done.
Qed.

End MacdRules.

(** * The ledger of the simulator *)

Module LedgerFacts.
Import TradingSimulator TradeLog Ledger.
Import TradeLogFacts.

(** *** BUY and SELL alternate *)

Lemma net_position_one (tr : Trade) :
  net_position [tr] = if is_buy tr then 1%Z else (-1)%Z.
Proof. by destruct tr. Qed.

Lemma prefixes_alternate (log : list Trade) :
  (forall m, net_position (take m log) = 0%Z
             \/ net_position (take m log) = 1%Z) ->
  forall k tr, log !! k = Some tr ->
    net_position (take k log) = (if Nat.even k then 0%Z else 1%Z)
    /\ is_buy tr = Nat.even k.
Proof.
  intros Hpre. induction k as [|k IH]; intros tr Hk.
  - rewrite take_0. split; [done|].
    pose proof (Hpre 1%nat) as H1.
    rewrite (take_S_r _ _ _ Hk), take_0 in H1. simpl in H1.
    rewrite net_position_one in H1. destruct (is_buy tr); [done|].
    destruct H1; done.
  - destruct (lookup_lt_is_Some_2 log k) as [tr0 Hk0].
    { apply lookup_lt_Some in Hk. lia. }
    destruct (IH tr0 Hk0) as [Hnet Hty].
    assert (Hnet' : net_position (take (S k) log)
                    = if Nat.even (S k) then 0%Z else 1%Z).
    { rewrite (take_S_r _ _ _ Hk0), net_position_app, net_position_one, Hnet, Hty.
      rewrite Nat.even_succ, <- Nat.negb_even. by destruct (Nat.even k). }
    split; [done|].
    pose proof (Hpre (S (S k))) as H2.
    rewrite (take_S_r _ _ _ Hk), net_position_app, net_position_one, Hnet' in H2.
    destruct (is_buy tr), (Nat.even (S k)); try done; destruct H2; done.
Qed.

Lemma log_is_closed (self : t) (df : DataFrame) (buy_signals sell_signals : list Z) :
  (length df <= length buy_signals)%nat ->
  (length df <= length sell_signals)%nat ->
  exists log final,
    _execute_trades self df buy_signals sell_signals = Ok (log, final)
    /\ (forall m, net_position (take m log) = 0%Z
                  \/ net_position (take m log) = 1%Z)
    /\ net_position log = 0%Z.
Proof.
  intros Hb Hs.
  destruct (execute_trades_spec self df buy_signals sell_signals Hb Hs)
    as (st & log & final & Hrun & Hinv & Hexec & Hclose).
  exists log, final. split; [done|].
  destruct (close_remaining_spec self df buy_signals sell_signals Hb Hs st Hrun Hinv)
    as [[Hflat Hc] | [Hopen (tr & final' & Hc & Hforced)]];
    rewrite Hc in Hclose; injection Hclose as <- <-.
  - split; [apply (inv_prefix _ _ _ _ _ _ Hinv)|].
    by rewrite (inv_net _ _ _ _ _ _ Hinv), Hflat.
  - assert (Hnet : net_position (trades st ++ [tr]) = 0%Z).
    { rewrite net_position_app, (inv_net _ _ _ _ _ _ Hinv), Hopen.
      destruct Hforced as (? & ? & Hty & _). by destruct tr. }
    split; [|done].
    apply net_position_prefix_snoc; [apply (inv_prefix _ _ _ _ _ _ Hinv)|].
    by left.
Qed.

(** X11: the returned log is a sequence of round trips: it has an even number
    of entries, those at even positions are BUYs and those at odd
    positions SELLs, so the simulation never ends holding a position. *)
Theorem log_alternates_buy_and_sell (self : t) (df : DataFrame)
    (buy_signals sell_signals : list Z) :
  (length df <= length buy_signals)%nat ->
  (length df <= length sell_signals)%nat ->
  exists log final,
    _execute_trades self df buy_signals sell_signals = Ok (log, final)
    /\ Nat.even (length log) = true
    /\ length (List.filter is_buy log) = length (List.filter is_sell log)
    /\ forall k tr, log !! k = Some tr -> is_buy tr = Nat.even k.
Proof.
  intros Hb Hs.
  destruct (log_is_closed self df buy_signals sell_signals Hb Hs)
    as (log & final & Hexec & Hpre & Hnet).
  exists log, final. split; [done|].
  split; [|split].
  - destruct (Nat.even (length log)) eqn:Heven; [done|].
    destruct log as [|tr0 log0] using rev_ind; [done|].
    rewrite length_app, Nat.add_1_r in Heven.
    assert (Hlast : (log0 ++ [tr0]) !! length log0 = Some tr0).
    { by rewrite lookup_app_r, Nat.sub_diag by lia. }
    destruct (prefixes_alternate _ Hpre _ _ Hlast) as [Hn Hty].
    rewrite take_app_length in Hn.
    rewrite net_position_app, net_position_one, Hn, Hty in Hnet.
    rewrite Nat.even_succ, <- Nat.negb_even in Heven.
    destruct (Nat.even (length log0)); done.
  - unfold net_position in Hnet. lia.
  - intros k tr Hk. by destruct (prefixes_alternate _ Hpre _ _ Hk).
Qed.

(** *** Without a buy signal nothing happens *)

Lemma run_idle (self : t) (df : DataFrame) (buy_signals sell_signals : list Z)
    (n : nat) :
  (length df <= length buy_signals)%nat ->
  (length df <= length sell_signals)%nat ->
  (forall i, (i < length df)%nat -> buy_signals !! i <> Some 1%Z) ->
  (n <= length df)%nat ->
  run self df buy_signals sell_signals n = Ok (start self).
Proof.
  intros Hb Hs Hnone. induction n as [|n IH]; intros Hn; [done|].
  rewrite run_S, IH by lia. cbn [mbind result_bind Py.bind].
  destruct (lookup_lt_is_Some_2 df n ltac:(lia)) as [row Hrow].
  destruct (lookup_lt_is_Some_2 buy_signals n ltac:(lia)) as [b Hbn].
  destruct (lookup_lt_is_Some_2 sell_signals n ltac:(lia)) as [s Hsn].
  unfold step. rewrite Hrow, Hbn. simpl.
  rewrite bool_decide_eq_false_2.
  2:{ intros ->. by apply (Hnone n ltac:(lia)). }
  simpl. rewrite Hsn. simpl. by rewrite andb_false_r.
Qed.

Lemma execute_idle (self : t) (df : DataFrame) (buy_signals sell_signals : list Z) :
  (length df <= length buy_signals)%nat ->
  (length df <= length sell_signals)%nat ->
  (forall i, (i < length df)%nat -> buy_signals !! i <> Some 1%Z) ->
  _execute_trades self df buy_signals sell_signals
  = Ok ([], initial_balance self).
Proof.
  intros Hb Hs Hnone. unfold _execute_trades.
  fold (run self df buy_signals sell_signals (length df)).
  by rewrite (run_idle self df buy_signals sell_signals (length df) Hb Hs Hnone).
Qed.

(** X12: when no row carries a buy signal, whatever the sell signals are, the
    simulator makes no trade and hands back the initial balance
    untouched. *)
Theorem no_buy_signal_no_trade (self : t) (df : DataFrame)
    (buy_signals sell_signals : list Z) :
  (length df <= length buy_signals)%nat ->
  (length df <= length sell_signals)%nat ->
  (forall i, (i < length df)%nat -> buy_signals !! i <> Some 1%Z) ->
  _execute_trades self df buy_signals sell_signals
  = Ok ([], initial_balance self).
Proof. apply execute_idle. Qed.

(** *** The balance handed back *)

Lemma closing_net_proceeds (self : t) (st : State) (date : Timestamp)
    (price fee net : float) (c : Closing) :
  closing self st date price = Ok (fee, c, net) ->
  net_proceeds c = round net 2.
Proof.
  unfold closing. intros H.
  destruct (last_commission (trades st)); [|done].
  destruct (days_since date (buy_date st)); [|done].
  simpl in H. by injection H as <- <- <-.
Qed.

Lemma consistent_start (self : t) : consistent self (start self).
Proof. done. Qed.

Lemma step_consistent (self : t) (df : DataFrame)
    (buy_signals sell_signals : list Z) (st st' : State) (i : nat) :
  (pending_buy st = true -> position_open st = false) ->
  (pending_sell st = true -> position_open st = true) ->
  consistent self st ->
  step self df buy_signals sell_signals st i = Ok st' ->
  consistent self st'.
Proof.
  intros Hpb Hps Hcons Hstep. unfold step in Hstep.
  destruct (df !! i) as [row|]; [|done].
  destruct (buy_signals !! i) as [b|]; [|done]. simpl in Hstep.
  destruct (bool_decide (b = 1%Z) && negb (position_open st)
            && negb (pending_buy st)).
  { by injection Hstep as <-. }
  destruct (sell_signals !! i) as [s|]; [|done]. simpl in Hstep.
  destruct (bool_decide (s = 1%Z) && position_open st
            && negb (pending_sell st)).
  { by injection Hstep as <-. }
  destruct (pending_buy st && (0 <? i)%nat) eqn:Ebuy.
  { destruct (df !! (i - 1)%nat); [|done]. simpl in Hstep.
    injection Hstep as <-. unfold consistent. simpl.
    rewrite last_snoc. eauto. }
  destruct (pending_sell st && (0 <? i)%nat) eqn:Esell; [|by injection Hstep as <-].
  apply andb_true_iff in Esell as [Hsell _].
  destruct (closing self st (Date row) (Open row)) as [[[fee c] net]|] eqn:Hc;
    [|done].
  simpl in Hstep. destruct (df !! (i - 1)%nat); [|done]. simpl in Hstep.
  injection Hstep as <-. unfold consistent, settled. simpl.
  rewrite last_snoc. simpl. split; [done|].
  by apply (closing_net_proceeds self st (Date row) (Open row) fee).
Qed.

Lemma run_consistent (self : t) (df : DataFrame)
    (buy_signals sell_signals : list Z) (n : nat) :
  (length df <= length buy_signals)%nat ->
  (length df <= length sell_signals)%nat ->
  (n <= length df)%nat ->
  exists st, run self df buy_signals sell_signals n = Ok st
             /\ invariant self df buy_signals sell_signals n st
             /\ consistent self st.
Proof.
  intros Hb Hs. induction n as [|n IH]; intros Hn.
  - exists (start self). split; [done|].
    split; [apply invariant_start | apply consistent_start].
  - destruct IH as (st & Hrun & Hinv & Hcons); [lia|].
    destruct (step_invariant self df buy_signals sell_signals Hb Hs n st
                ltac:(lia) Hrun Hinv) as (st' & Hstep & Hinv').
    exists st'. split; [by rewrite run_S, Hrun|]. split; [done|].
    apply (step_consistent self df buy_signals sell_signals st st' n); try done.
    + apply (inv_buy_needs_flat _ _ _ _ _ _ Hinv).
    + apply (inv_sell_needs_position _ _ _ _ _ _ Hinv).
Qed.

(** X13: the balance handed back is the initial balance when the log is
    empty; otherwise the log ends with a SELL, and the balance that SELL
    records, like its net proceeds, is the balance handed back, rounded
    to two decimals. *)
Theorem final_balance_is_the_last_sale (self : t) (df : DataFrame)
    (buy_signals sell_signals : list Z) :
  (length df <= length buy_signals)%nat ->
  (length df <= length sell_signals)%nat ->
  exists log final,
    _execute_trades self df buy_signals sell_signals = Ok (log, final)
    /\ match last log with
       | None => final = initial_balance self
       | Some (Buy _) => False
       | Some (Sell f c) =>
           balance_after f = round final 2 /\ net_proceeds c = round final 2
       end.
Proof.
  intros Hb Hs.
  destruct (run_consistent self df buy_signals sell_signals (length df) Hb Hs)
    as (st & Hrun & Hinv & Hcons); [done|].
  unfold _execute_trades.
  fold (run self df buy_signals sell_signals (length df)).
  rewrite Hrun. cbn [mbind result_bind Py.bind].
  unfold consistent in Hcons. unfold close_remaining.
  destruct (position_open st) eqn:Hopen.
  - destruct (last df) as [row|] eqn:Hlast.
    + cbn [of_option mbind result_bind Py.bind].
      destruct (closing_ok self df buy_signals sell_signals st (length df)
                  (Date row) (Close row) Hinv Hopen) as (fee & c & net & Hc).
      rewrite Hc. cbn [mbind result_bind Py.bind mret result_ret].
      eexists _, _. split; [done|]. rewrite last_snoc. simpl.
      split; [done|].
      by apply (closing_net_proceeds self st (Date row) (Close row) fee).
    + apply last_None in Hlast. subst df.
      unfold run in Hrun. simpl in Hrun. injection Hrun as <-. done.
  - eexists _, _. split; [done|]. exact Hcons.
Qed.

End LedgerFacts.

(** * Rounding and the statistics *)

Module StatisticsFacts.
Import TradingSimulator.

(** *** Rounding keeps whole bounds *)

Lemma qz_le (a : Z) (q : Qc) :
  qz a <= q <-> (a * Z.pos (Qden q) <= Qnum q)%Z.
Proof.
  unfold Qcle, qz. simpl. rewrite Qred_correct. unfold Qle. simpl.
  by rewrite Z.mul_1_r.
Qed.

Lemma le_qz (q : Qc) (b : Z) :
  q <= qz b <-> (Qnum q <= b * Z.pos (Qden q))%Z.
Proof.
  unfold Qcle, qz. simpl. rewrite Qred_correct. unfold Qle. simpl.
  by rewrite Z.mul_1_r.
Qed.

Lemma round_half_even_lower (q : Qc) (a : Z) :
  qz a <= q -> (a <= round_half_even q)%Z.
Proof.
  rewrite qz_le. intros H. unfold round_half_even.
  assert (Hf : (a <= Qnum q / Z.pos (Qden q))%Z).
  { apply Z.div_le_lower_bound; lia. }
  destruct (2 * (Qnum q mod Z.pos (Qden q)) ?= Z.pos (Qden q))%Z;
    [destruct (Z.even _) | |]; lia.
Qed.

Lemma round_half_even_upper (q : Qc) (b : Z) :
  q <= qz b -> (round_half_even q <= b)%Z.
Proof.
  rewrite le_qz. intros H. unfold round_half_even.
  set (n := Qnum q) in *. set (d := Z.pos (Qden q)) in *.
  assert (Hd : (0 < d)%Z) by (unfold d; lia).
  pose proof (Z.div_mod n d ltac:(lia)) as Hdm.
  pose proof (Z.mod_pos_bound n d Hd) as Hm.
  assert (Hf : (n / d <= b)%Z) by (apply Z.div_le_upper_bound; lia).
  destruct (decide (n / d = b)%Z) as [Heq | Hne].
  - assert (Hz : (n mod d = 0)%Z) by nia.
    rewrite Hz. simpl.
    replace (0 ?= d)%Z with Lt by (symmetry; by apply Z.compare_lt_iff).
    lia.
  - destruct (2 * (n mod d) ?= d)%Z; [destruct (Z.even _) | |]; lia.
Qed.

Lemma qz_of_Z (n : Z) : qz n = Qc_of_Z n.
Proof. apply Qc_is_canon. simpl. by rewrite Qred_correct. Qed.

Lemma qz_lt (a b : Z) : (a < b)%Z <-> qz a < qz b.
Proof. rewrite !qz_of_Z. apply Z2Qc_inj_lt. Qed.

Lemma qz_mono (a b : Z) : (a <= b)%Z <-> qz a <= qz b.
Proof. rewrite !qz_of_Z. apply Z2Qc_inj_le. Qed.

Lemma qz_mul (a b : Z) : qz (a * b) = qz a * qz b.
Proof. rewrite !qz_of_Z. apply Z2Qc_inj_mul. Qed.

Lemma scale_pos (ndigits : nat) : 0 < qz (10 ^ Z.of_nat ndigits).
Proof.
  change 0 with (qz 0). apply (proj1 (qz_lt _ _)).
  apply Z.pow_pos_nonneg; lia.
Qed.

Lemma round_q_lower (q : Qc) (ndigits : nat) (a : Z) :
  qz a <= q -> qz a <= round_q q ndigits.
Proof.
  intros H. unfold round_q. set (s := qz (10 ^ Z.of_nat ndigits)).
  pose proof (scale_pos ndigits) as Hs. fold s in Hs.
  assert (Hr : (a * 10 ^ Z.of_nat ndigits <= round_half_even (q * s))%Z).
  { apply round_half_even_lower.
    rewrite qz_mul. apply Qcmult_le_mono_nonneg_r; [by apply Qclt_le_weak | done]. }
  apply (proj1 (qz_mono _ _)) in Hr. rewrite qz_mul in Hr.
  apply (Qcmult_le_mono_pos_r _ _ s); [done|].
  unfold Qcdiv. rewrite <- Qcmult_assoc, (Qcmult_comm (/ s)), Qcmult_inv_r.
  - by rewrite Qcmult_1_r.
  - intros E. rewrite E in Hs. by apply Qclt_not_eq in Hs.
Qed.

Lemma round_q_upper (q : Qc) (ndigits : nat) (b : Z) :
  q <= qz b -> round_q q ndigits <= qz b.
Proof.
  intros H. unfold round_q. set (s := qz (10 ^ Z.of_nat ndigits)).
  pose proof (scale_pos ndigits) as Hs. fold s in Hs.
  assert (Hr : (round_half_even (q * s) <= b * 10 ^ Z.of_nat ndigits)%Z).
  { apply round_half_even_upper.
    rewrite qz_mul. apply Qcmult_le_mono_nonneg_r; [by apply Qclt_le_weak | done]. }
  apply (proj1 (qz_mono _ _)) in Hr. rewrite qz_mul in Hr.
  apply (Qcmult_le_mono_pos_r _ _ s); [done|].
  unfold Qcdiv. rewrite <- Qcmult_assoc, (Qcmult_comm (/ s)), Qcmult_inv_r.
  - by rewrite Qcmult_1_r.
  - intros E. rewrite E in Hs. by apply Qclt_not_eq in Hs.
Qed.

Lemma round_bounds (q : Qc) (ndigits : nat) (a b : Z) :
  qz a <= q -> q <= qz b ->
  exists r : Qc, round (Some q) ndigits = Some r /\ qz a <= r /\ r <= qz b.
Proof.
  intros Ha Hb. exists (round_q q ndigits). split; [done|].
  split; [by apply round_q_lower | by apply round_q_upper].
Qed.

(** *** The statistics *)

Lemma positive_sum (l : list float) (acc : Qc) :
  0 <= acc -> Forall (fun x => fgtb x (fz 0) = true) l ->
  exists total : Qc, foldl fadd (Some acc) l = Some total /\ 0 <= total.
Proof.
  revert acc. induction l as [|x l IH]; intros acc Hacc Hall; simpl; [eauto|].
  apply Forall_cons in Hall as [Hx Hall].
  destruct x as [v|]; [|done]. simpl.
  apply IH; [|done]. unfold fgtb, fltb, fz in Hx.
  apply bool_decide_eq_true in Hx. change (qz 0) with (Q2Qc 0) in Hx.
  apply Qcplus_nonneg_nonneg; [done | by apply Qclt_le_weak].
Qed.

Lemma negative_sum (l : list float) (acc : Qc) :
  acc <= 0 -> Forall (fun x => fltb x (fz 0) = true) l ->
  exists total : Qc, foldl fadd (Some acc) l = Some total /\ total <= 0.
Proof.
  revert acc. induction l as [|x l IH]; intros acc Hacc Hall; simpl; [eauto|].
  apply Forall_cons in Hall as [Hx Hall].
  destruct x as [v|]; [|done]. simpl.
  apply IH; [|done]. unfold fltb, fz in Hx.
  apply bool_decide_eq_true in Hx. change (qz 0) with (Q2Qc 0) in Hx.
  apply Qcplus_nonpos_nonpos; [done | by apply Qclt_le_weak].
Qed.

Lemma fsum_positive (l : list float) :
  Forall (fun x => fgtb x (fz 0) = true) l ->
  exists total : Qc, fsum l = Some total /\ 0 <= total.
Proof. intros Hall. by apply (positive_sum l 0). Qed.

Lemma fsum_negative (l : list float) :
  Forall (fun x => fltb x (fz 0) = true) l ->
  exists total : Qc, fsum l = Some total /\ total <= 0.
Proof. intros Hall. by apply (negative_sum l 0). Qed.

Lemma filter_Forall {A} (P : A -> Prop) `{!forall x, Decision (P x)} (l : list A) :
  Forall P (filter P l).
Proof.
  apply Forall_forall. intros x Hx. by apply list_elem_of_filter in Hx as [? _].
Qed.

Lemma ratio_is_a_fraction (p s : nat) :
  (p <= s)%nat -> (0 < s)%nat ->
  exists x : Qc,
    fmul (fdiv (fz (Z.of_nat p)) (fz (Z.of_nat s))) (fz 100) = Some x
    /\ qz 0 <= x /\ x <= qz 100.
Proof.
  intros Hps Hs. unfold fdiv, fmul, fz, lift2.
  assert (Hpos : 0 < qz (Z.of_nat s)).
  { change 0 with (qz 0). apply (proj1 (qz_lt _ _)). lia. }
  rewrite decide_False by (intros E; rewrite E in Hpos; by apply Qclt_not_eq in Hpos).
  eexists. split; [done|].
  assert (H0 : 0 <= qz (Z.of_nat p)).
  { change 0 with (qz 0). apply (proj1 (qz_mono _ _)). lia. }
  assert (Hle : qz (Z.of_nat p) <= qz (Z.of_nat s)).
  { apply (proj1 (qz_mono _ _)). lia. }
  assert (Hfrac0 : 0 <= qz (Z.of_nat p) / qz (Z.of_nat s)).
  { apply Qcmult_nonneg_nonneg; [done|].
    apply Qclt_le_weak. by apply Qcinv_pos. }
  assert (Hfrac1 : qz (Z.of_nat p) / qz (Z.of_nat s) <= 1).
  { apply (Qcmult_le_mono_pos_r _ _ (qz (Z.of_nat s))); [done|].
    rewrite Qcmult_1_l. unfold Qcdiv.
    rewrite <- Qcmult_assoc, (Qcmult_comm (/ _)), Qcmult_inv_r.
    - by rewrite Qcmult_1_r.
    - intros E. rewrite E in Hpos. by apply Qclt_not_eq in Hpos. }
  split.
  - change (qz 0) with (Q2Qc 0). by apply Qcmult_nonneg_nonneg.
  - rewrite <- (Qcmult_1_l (qz 100)). by apply Qcmult_le_mono_nonneg_r.
Qed.

(** X14: for every trade log the success rate is a defined number between 0
    and 100, the total profit is not negative and the total loss is not
    positive: profits are the SELLs with a positive profit/loss, losses
    those with a negative one, and rounding does not cross 0 or 100. *)
Theorem statistics_have_their_range (log : list Trade) (final_balance : float) :
  let stats := _calculate_statistics log final_balance in
  (exists q : Qc, success_rate stats = Some q /\ 0 <= q /\ q <= qz 100)
  /\ (exists q : Qc, total_profit stats = Some q /\ 0 <= q)
  /\ (exists q : Qc, total_loss stats = Some q /\ q <= 0).
Proof.
  cbn zeta. unfold _calculate_statistics.
  assert (Hzero : exists q : Qc, fz 0 = Some q /\ 0 <= q /\ q <= qz 100 /\ q <= 0).
  { exists 0. done. }
  destruct Hzero as (z & Hz & Hz0 & Hz100 & Hz0').
  destruct log as [|first log]; [simpl; rewrite Hz; eauto 10|].
  destruct (sell_trades (first :: log)) as [|fc sells] eqn:Hsells;
    [simpl; rewrite Hz; eauto 10|].
  cbn [success_rate total_profit total_loss].
  set (pls := (fun fc0 : Fill * Closing => profit_loss fc0.2) <$> fc :: sells).
  split; [|split].
  - destruct (ratio_is_a_fraction
                (length (filter (fun x => fgtb x (fz 0) = true) pls))
                (length (fc :: sells))) as (x & Hx & Hx0 & Hx1).
    { etrans; [apply length_filter|]. unfold pls. by rewrite length_fmap. }
    { simpl. lia. }
    unfold flen. rewrite Hx.
    destruct (round_bounds x 2 0 100 Hx0 Hx1) as (r & Hr & Hr0 & Hr1).
    exists r. done.
  - destruct (fsum_positive (filter (fun x => fgtb x (fz 0) = true) pls))
      as (total & Ht & Ht0); [apply filter_Forall|].
    rewrite Ht.
    exists (round_q total 2). split; [done|].
    by apply (round_q_lower total 2 0).
  - destruct (fsum_negative (filter (fun x => fltb x (fz 0) = true) pls))
      as (total & Ht & Ht0); [apply filter_Forall|].
    rewrite Ht.
    exists (round_q total 2). split; [done|].
    by apply (round_q_upper total 2 0).
Qed.

End StatisticsFacts.

(** * Simulations that do not trade *)

Module SimulateRules.
Import TradingSimulator TradeLog.
Import PandasFacts SignalRules LedgerFacts SimulateFacts.

(** X15: a buy indicator that is neither "macd" nor "kdj" is not rejected by
    [simulate]: on 50 rows or more the simulation runs and makes no
    trade, so the log is empty, the final balance is the initial balance
    (rounded) and all statistics are zero. *)
Theorem unknown_buy_indicator_never_trades (self : t) (df : DataFrame)
    (buy_indicator sell_indicator : string)
    (buy_threshold sell_threshold : option float) :
  lower buy_indicator <> "macd" -> lower buy_indicator <> "kdj" ->
  initial_balance self <> fz 0 ->
  (50 <= length df)%nat ->
  exists sim,
    simulate self df buy_indicator sell_indicator buy_threshold sell_threshold
      = Ok (self, Result sim)
    /\ trade_log sim = []
    /\ total_trades (trading_summary sim) = 0%nat
    /\ final_balance (trading_summary sim) = round (initial_balance self) 2
    /\ statistics sim = _empty_statistics.
Proof.
  intros Hm Hk Hinit Hlen. unfold simulate. rewrite enough_rows by lia.
  destruct (unknown_indicator_silent (signal_detector self) df buy_indicator
              sell_indicator buy_threshold sell_threshold)
    as (bs & ss & Hgen & Hbs & _ & Hls).
  rewrite Hgen. cbn [mbind result_bind Py.bind].
  rewrite (execute_idle self df bs ss).
  - cbn [mbind result_bind Py.bind]. rewrite gain_ratio_ok by done.
    cbn [mbind result_bind Py.bind mret result_ret].
    eexists. split; [done|]. done.
  - rewrite (Hbs Hm Hk). by rewrite length_replicate.
  - lia.
  - intros i Hi. rewrite (Hbs Hm Hk). rewrite lookup_replicate_2 by done. done.
Qed.

End SimulateRules.

(** * Exclusion rules and ties *)

Module FilteringFacts.
Import MarketScanner Ranking Filtering.
Import RankingFacts.

Lemma excluded_fires (r : ScanResult) (rules : list (gmap string pyval)) :
  excluded (section (trading_summary r)) (section (statistics r)) rules
  = existsb (fun rule => fires rule r) rules.
Proof.
  induction rules as [|rule rules IH]; simpl; [done|].
  rewrite IH. unfold fires, seen.
  destruct (py_or _ _); simpl; try done;
    by destruct (_evaluate_condition _ _ _).
Qed.

Lemma apply_exclude_rules_filter (results : list ScanResult)
    (rules : list (gmap string pyval)) :
  _apply_exclude_rules results rules
  = List.filter (fun r => negb (existsb (fun rule => fires rule r) rules)) results.
Proof.
  unfold _apply_exclude_rules. apply List.filter_ext.
  intros r. by rewrite excluded_fires.
Qed.

Lemma existsb_Permutation {A} (f : A -> bool) (l1 l2 : list A) :
  Permutation l1 l2 -> existsb f l1 = existsb f l2.
Proof.
  induction 1 as [|x l1 l2 _ IH|x y l|l1 l2 l3 _ IH1 _ IH2]; simpl.
  - done.
  - by rewrite IH.
  - by destruct (f x), (f y).
  - by rewrite IH1.
Qed.

Lemma filter_sublist {A} (f : A -> bool) (l : list A) :
  sublist (List.filter f l) l.
Proof.
  induction l as [|x l IH]; simpl; [constructor|].
  destruct (f x); by constructor.
Qed.

(** X16: a result is removed exactly when some rule fires on it, so the kept
    results are those of the input, in their order, on which no rule
    fires; the order of the rules is immaterial, and filtering by two
    rule lists one after the other is filtering by both at once. *)
Theorem exclude_rules_are_a_disjunction (results : list ScanResult)
    (rules rules' : list (gmap string pyval)) :
  _apply_exclude_rules results rules
    = List.filter (fun r => negb (existsb (fun rule => fires rule r) rules))
        results
  /\ sublist (_apply_exclude_rules results rules) results
  /\ _apply_exclude_rules (_apply_exclude_rules results rules) rules'
     = _apply_exclude_rules results (rules ++ rules')
  /\ (Permutation rules rules' ->
      _apply_exclude_rules results rules = _apply_exclude_rules results rules').
Proof.
  split; [apply apply_exclude_rules_filter|].
  split; [apply filter_sublist|].
  split.
  - rewrite !apply_exclude_rules_filter.
    induction results as [|r results IH]; simpl; [done|].
    rewrite existsb_app.
    destruct (existsb (fun rule => fires rule r) rules); simpl; [done|].
    destruct (existsb (fun rule => fires rule r) rules'); simpl; [done|].
    by rewrite IH.
  - intros Hperm. rewrite !apply_exclude_rules_filter.
    apply List.filter_ext. intros r.
    by rewrite (existsb_Permutation _ _ _ Hperm).
Qed.

Lemma fires_exclude_rule (r : ScanResult) (field operator : string) (value : Qc) :
  fires (exclude_rule field operator value) r
  = match seen r (PStr field) with
    | PNone => false
    | fv => _evaluate_condition fv (PStr operator) (PNum value)
    end.
Proof.
  unfold fires, exclude_rule, get_or.
  rewrite lookup_insert_eq.
  rewrite !(lookup_insert_ne _ "field") by done. rewrite lookup_insert_eq.
  rewrite !(lookup_insert_ne _ "operator") by done. rewrite lookup_insert_eq.
  cbn [default]. unfold id. by destruct (seen r (PStr field)).
Qed.

(** One link of the [if] / [elif] chain over the operators. *)
Ltac operator_is operator sym :=
  destruct (decide (operator = sym)) as [-> | ?];
  [ rewrite (bool_decide_eq_true_2 (sym = sym)) by done; cbv beta iota
  | rewrite (bool_decide_eq_false_2 (operator = sym)) by done ].

(** A value that is not a number is only ever unequal to a number. *)
Lemma not_a_number_fires (fv : pyval) (operator : string) (value : Qc) :
  (fv = PNaN \/ exists s, fv = PStr s) ->
  _evaluate_condition fv (PStr operator) (PNum value) = true
  <-> operator = "!=".
Proof.
  intros Hfv. unfold _evaluate_condition. cbn [py_eq].
  operator_is operator "<".
  { destruct Hfv as [-> | [s ->]]; by cbn. }
  operator_is operator ">".
  { destruct Hfv as [-> | [s ->]]; by cbn. }
  operator_is operator "<=".
  { destruct Hfv as [-> | [s ->]]; by cbn. }
  operator_is operator ">=".
  { destruct Hfv as [-> | [s ->]]; by cbn. }
  operator_is operator "==".
  { destruct Hfv as [-> | [s ->]]; by cbn. }
  operator_is operator "!=".
  { destruct Hfv as [-> | [s ->]]; by cbn. }
  done.
Qed.

(** X17: what a rule with a numeric bound does is decided by the value it
    reads: the entry of the summary unless that is missing, zero or
    empty, else the entry of the statistics.  On a number the rule fires
    exactly when the comparison named by its operator holds between that
    number and the bound; on nothing it never fires; on a text or on NaN
    it fires exactly when the operator is [!=] (the ordering of a text
    with a number raises [TypeError], which counts as no).  An operator
    outside [<], [>], [<=], [>=], [==], [!=] never fires. *)
Theorem numeric_rule_fires_on_comparison (r : ScanResult)
    (field operator : string) (value : Qc) :
  let rule := exclude_rule field operator value in
  match seen r (PStr field) with
  | PNum x => fires rule r = true <-> compares operator x value
  | PNone => fires rule r = false
  | PStr _ | PNaN => fires rule r = true <-> operator = "!="
  end.
Proof.
  cbv zeta. rewrite fires_exclude_rule.
  destruct (seen r (PStr field)) as [|x|s|]; [done | |
    apply not_a_number_fires; eauto | apply not_a_number_fires; eauto].
  unfold _evaluate_condition, compares. cbn [py_eq py_lt py_le].
  operator_is operator "<".
  { rewrite bool_decide_eq_true.
    split; [by left | intros H; by destruct_or!; destruct_and!]. }
  operator_is operator ">".
  { rewrite bool_decide_eq_true.
    split; [by right; left | intros H; by destruct_or!; destruct_and!]. }
  operator_is operator "<=".
  { rewrite bool_decide_eq_true.
    split; [by right; right; left | intros H; by destruct_or!; destruct_and!]. }
  operator_is operator ">=".
  { rewrite bool_decide_eq_true.
    split; [by right; right; right; left
           | intros H; by destruct_or!; destruct_and!]. }
  operator_is operator "==".
  { rewrite bool_decide_eq_true.
    split; [by right; right; right; right; left
           | intros H; by destruct_or!; destruct_and!]. }
  operator_is operator "!=".
  { rewrite negb_true_iff, bool_decide_eq_false.
    split; [by right; right; right; right; right
           | intros H; by destruct_or!; destruct_and!]. }
  split; [done | intros H; by destruct_or!; destruct_and!].
Qed.

(** *** Ties keep their order *)

Section Stability.
Context {A : Type} (rank : A -> list Qc).

Let keyed (x : A) : list pyval * A := (PNum <$> rank x, x).

Lemma keyed_inj (l l' : list A) : keyed <$> l = keyed <$> l' -> l = l'.
Proof.
  intros H. apply (f_equal (fmap snd)) in H.
  rewrite <- !list_fmap_compose in H.
  by rewrite !list_fmap_id in H.
Qed.

Lemma insert_sorted_ties (x : A) (l l' : list A) (k : list Qc) :
  insert_sorted (keyed x) (keyed <$> l) = Ok (keyed <$> l') ->
  filter (fun z => rank z = k) l' = filter (fun z => rank z = k) (x :: l).
Proof.
  revert l'. induction l as [|y l IH]; intros l' Hins.
  - simpl in Hins. injection Hins as Hins.
    by rewrite (keyed_inj [x] l' Hins).
  - rewrite fmap_cons in Hins. cbn [insert_sorted] in Hins.
    change (tuple_lt (keyed y).1 (keyed x).1)
      with (tuple_lt (PNum <$> rank y) (PNum <$> rank x)) in Hins.
    rewrite tuple_lt_numbers in Hins. cbn [mbind result_bind Py.bind] in Hins.
    destruct (lex_lt (rank y) (rank x)) eqn:Hyx.
    + destruct (insert_sorted (keyed x) (keyed <$> l)) as [rest|] eqn:Hrest;
        [|done].
      cbn [mbind result_bind Py.bind mret result_ret] in Hins.
      injection Hins as Hins.
      destruct l' as [|y' l']; [done|].
      rewrite fmap_cons in Hins. injection Hins as _ <- Hl'. subst rest.
      specialize (IH l' eq_refl).
      rewrite !filter_cons in *.
      destruct (decide (rank y = k)) as [Ey|Ey];
        destruct (decide (rank x = k)) as [Ex|Ex]; rewrite IH; try done.
      rewrite Ey, Ex, lex_lt_irrefl in Hyx. done.
    + cbn [mret result_ret] in Hins. injection Hins as Hins.
      rewrite <- !fmap_cons in Hins. by rewrite <- (keyed_inj _ _ Hins).
Qed.

Lemma sort_keyed_ties (l l' : list A) (k : list Qc) :
  sort_keyed (keyed <$> l) = Ok (keyed <$> l') ->
  filter (fun z => rank z = k) l' = filter (fun z => rank z = k) l.
Proof.
  revert l'. induction l as [|x l IH]; intros l' Hsort.
  - simpl in Hsort. injection Hsort as Hsort.
    by rewrite (keyed_inj [] l' Hsort).
  - rewrite fmap_cons in Hsort. cbn [sort_keyed] in Hsort.
    destruct (sort_keyed_spec rank l) as (l1 & Hl1 & _ & _).
    fold keyed in Hl1. rewrite Hl1 in Hsort.
    cbn [mbind result_bind Py.bind] in Hsort.
    rewrite (insert_sorted_ties x l1 l' k Hsort).
    rewrite !filter_cons. rewrite (IH l1 Hl1). done.
Qed.
End Stability.

(** X18: [_apply_sorting] is stable.  On results whose ranked fields hold
    numbers wherever they are present, the key [get_sort_key] gives a
    result is the list of its ranks (per rule the entry of the summary
    unless missing or zero, else that of the statistics, else 0, negated
    for a descending rule), and among the results with the same key the
    order of the input is kept. *)
Theorem sorting_keeps_the_order_of_ties (results : list ScanResult)
    (sort_rules : option (list (gmap string string))) (k : list Qc) :
  (forall r, In r results -> sortable (rules_in_force sort_rules) r) ->
  exists out,
    _apply_sorting results sort_rules = Ok out
    /\ (forall r, In r results ->
          get_sort_key (rules_in_force sort_rules) r
          = PNum <$> ranks (rules_in_force sort_rules) r)
    /\ filter (fun r => ranks (rules_in_force sort_rules) r = k) out
       = filter (fun r => ranks (rules_in_force sort_rules) r = k) results.
Proof.
  intros Hsortable.
  assert (Hkey : forall r, In r results ->
            get_sort_key (rules_in_force sort_rules) r
            = PNum <$> ranks (rules_in_force sort_rules) r).
  { intros r Hr. apply get_sort_key_ranks. by apply Hsortable. }
  destruct results as [|r0 results].
  { by exists []. }
  unfold _apply_sorting. fold (rules_in_force sort_rules).
  set (rules := rules_in_force sort_rules) in *.
  unfold sorted.
  assert (Hk : (fun x => (get_sort_key rules x, x)) <$> (r0 :: results)
               = (fun x => (PNum <$> ranks rules x, x)) <$> (r0 :: results)).
  { apply list_fmap_ext. intros i x Hx.
    rewrite get_sort_key_ranks; [done|]. apply Hsortable.
    apply list_elem_of_In. by eapply list_elem_of_lookup_2. }
  rewrite Hk.
  destruct (sort_keyed_spec (ranks rules) (r0 :: results)) as (out & Hsort & _ & _).
  cbv zeta in Hsort. rewrite Hsort.
  cbn [mbind result_bind Py.bind mret result_ret].
  exists out. split; [by rewrite unkeyed|]. split; [done|].
  by apply (sort_keyed_ties (ranks rules) (r0 :: results) out k).
Qed.

End FilteringFacts.

(** * The stock lists *)

Module StockFetcherFacts.
Import StockFetcher Buckets.


(** *** Market-cap classes *)

Lemma category_is_required (market_cap : float) :
  get_market_cap_category market_cap ∈ required_categories.
Proof.
  unfold get_market_cap_category, required_categories.
  repeat (destruct (fgeb _ _); [set_solver|]). set_solver.
Qed.

Lemma fgeb_trans (q1 q2 : Qc) (bound : Z) :
  q1 <= q2 -> fgeb (Some q1) (fz bound) = true -> fgeb (Some q2) (fz bound) = true.
Proof.
  unfold fgeb, fleb, fz. rewrite !bool_decide_eq_true.
  intros H12 H1. by etrans.
Qed.

Lemma cap_classes_monotone (q1 q2 : Qc) :
  q1 <= q2 ->
  (size_class (get_market_cap_category (Some q1))
   <= size_class (get_market_cap_category (Some q2)))%nat.
Proof.
  intros Hle. unfold get_market_cap_category.
  destruct (fgeb (Some q1) (fz 200000000000)) eqn:E1.
  { by rewrite (fgeb_trans q1 q2 _ Hle E1). }
  destruct (fgeb (Some q1) (fz 10000000000)) eqn:E2.
  { rewrite (fgeb_trans q1 q2 _ Hle E2).
    destruct (fgeb (Some q2) _); unfold size_class; simpl; lia. }
  destruct (fgeb (Some q1) (fz 2000000000)) eqn:E3.
  { rewrite (fgeb_trans q1 q2 _ Hle E3).
    repeat (destruct (fgeb (Some q2) _)); unfold size_class; simpl; lia. }
  destruct (fgeb (Some q1) (fz 300000000)) eqn:E4.
  { rewrite (fgeb_trans q1 q2 _ Hle E4).
    repeat (destruct (fgeb (Some q2) _)); unfold size_class; simpl; lia. }
  repeat (destruct (fgeb (Some q2) _)); unfold size_class; simpl; lia.
Qed.

Lemma category_intervals (q : Qc) :
  let category := get_market_cap_category (Some q) in
  (category = "mega_cap" <-> qz 200000000000 <= q)
  /\ (category = "large_cap" <-> qz 10000000000 <= q /\ q < qz 200000000000)
  /\ (category = "mid_cap" <-> qz 2000000000 <= q /\ q < qz 10000000000)
  /\ (category = "small_cap" <-> qz 300000000 <= q /\ q < qz 2000000000)
  /\ (category = "micro_cap" <-> q < qz 300000000).
Proof.
  cbn zeta. unfold get_market_cap_category, fgeb, fleb, fz.
  repeat case_bool_decide;
    unfold Qcle, Qclt in *; cbn [this qz Q2Qc] in *;
    rewrite ?Qred_correct in *; unfold inject_Z in *;
    repeat split; try done; intros; destruct_and?; try lra.
Qed.

(** X19: the five classes are the intervals of the class table, each lower
    bound belonging to its class (a cap of exactly 10 billion is
    "large_cap"); a cap that is not a number is "micro_cap"; and of two
    market caps the larger one is never put in a smaller class. *)
Theorem larger_cap_never_in_smaller_class (q1 q2 : Qc) :
  (q1 <= q2 ->
   (size_class (get_market_cap_category (Some q1))
    <= size_class (get_market_cap_category (Some q2)))%nat)
  /\ (let category := get_market_cap_category (Some q1) in
      (category = "mega_cap" <-> qz 200000000000 <= q1)
      /\ (category = "large_cap"
          <-> qz 10000000000 <= q1 /\ q1 < qz 200000000000)
      /\ (category = "mid_cap"
          <-> qz 2000000000 <= q1 /\ q1 < qz 10000000000)
      /\ (category = "small_cap"
          <-> qz 300000000 <= q1 /\ q1 < qz 2000000000)
      /\ (category = "micro_cap" <-> q1 < qz 300000000))
  /\ get_market_cap_category NaN = "micro_cap".
Proof.
  split; [apply cap_classes_monotone|].
  split; [apply category_intervals | done].
Qed.

(** *** Filing the checked stocks *)

Lemma bucket_insert (c : gmap string (list entry)) (key k : string) (l : list entry) :
  bucket (<[key := l]> c) k = if decide (k = key) then l else bucket c k.
Proof.
  unfold bucket. destruct (decide (k = key)) as [-> | Hne].
  - by rewrite lookup_insert_eq.
  - by rewrite lookup_insert_ne.
Qed.

Lemma filed_cons (c : gmap string (list entry)) (k : string) (keys : list string) :
  filed c (k :: keys) = bucket c k ++ filed c keys.
Proof. done. Qed.

Lemma filed_app (c : gmap string (list entry)) (keys1 keys2 : list string) :
  filed c (keys1 ++ keys2) = filed c keys1 ++ filed c keys2.
Proof. unfold filed. by rewrite fmap_app, concat_app. Qed.

Lemma filed_insert_other (c : gmap string (list entry)) (key : string)
    (l : list entry) (keys : list string) :
  key ∉ keys -> filed (<[key := l]> c) keys = filed c keys.
Proof.
  induction keys as [|k keys IH]; intros Hnot; [done|].
  rewrite !filed_cons, bucket_insert, decide_False by set_solver.
  rewrite IH by set_solver. done.
Qed.

Lemma filed_insert (c : gmap string (list entry)) (key : string)
    (x : entry) (keys : list string) :
  NoDup keys -> key ∈ keys ->
  filed (<[key := bucket c key ++ [x]]> c) keys ≡ₚ filed c keys ++ [x].
Proof.
  induction keys as [|k keys IH]; intros Hnd Hin; [set_solver|].
  apply NoDup_cons in Hnd as [Hk Hnd].
  rewrite !filed_cons, bucket_insert.
  destruct (decide (k = key)) as [-> | Hne].
  - rewrite filed_insert_other by done.
    rewrite <- !app_assoc. apply Permutation_app_head. apply Permutation_app_comm.
  - rewrite <- app_assoc. apply Permutation_app_head. apply IH; [done|].
    set_solver.
Qed.

Lemma NoDup_all_categories : NoDup all_categories.
Proof. unfold all_categories, required_categories. simpl. by apply NoDup_ListNoDup; repeat constructor; set_solver. Qed.

Lemma NoDup_required_categories : NoDup required_categories.
Proof. unfold required_categories. by apply NoDup_ListNoDup; repeat constructor; set_solver. Qed.

Lemma filing_start : filing no_stocks 0 0 [].
Proof.
  split; try done.
  - intros k. unfold no_stocks, all_categories, required_categories. simpl.
    rewrite !lookup_insert_is_Some', lookup_empty, is_Some_alt.
    set_solver.
  - intros k e Hk. unfold required_categories in Hk.
    assert (bucket no_stocks k = []) as ->; [|set_solver].
    unfold bucket, no_stocks.
    repeat (apply elem_of_cons in Hk as [-> | Hk]; [done|]). set_solver.
  - intros e. unfold bucket, no_stocks. simpl. set_solver.
  - intros k. unfold bucket, no_stocks. rewrite !lookup_insert, lookup_empty.
    by repeat case_decide.
Qed.

Lemma placed_snoc (k : string) (processed : list (string * option TickerInfo))
    (job : string * option TickerInfo) :
  placed k (processed ++ [job])
  = placed k processed
    ++ (if decide ((filed_as job).1 = k) then [(filed_as job).2] else []).
Proof.
  unfold placed. rewrite omap_app. f_equal. cbn [omap list_omap].
  by case_decide.
Qed.

Lemma symbols_of_app (l1 l2 : list entry) :
  symbols_of (l1 ++ l2) = symbols_of l1 ++ symbols_of l2.
Proof. unfold symbols_of. apply omap_app. Qed.

Lemma symbols_of_Permutation (l1 l2 : list entry) :
  l1 ≡ₚ l2 -> symbols_of l1 ≡ₚ symbols_of l2.
Proof. unfold symbols_of. by intros ->. Qed.

Lemma append_filing (c : gmap string (list entry)) (successful failed : nat)
    (processed : list (string * option TickerInfo)) (key : string) (x : entry) :
  filing c successful failed processed ->
  key ∈ all_categories ->
  exists c',
    append key x c = Some c'
    /\ c' = <[key := bucket c key ++ [x]]> c
    /\ (forall k, is_Some (c' !! k) <-> k ∈ all_categories)
    /\ filed c' all_categories ≡ₚ filed c all_categories ++ [x].
Proof.
  intros Hf Hkey.
  destruct (proj2 (filing_keys _ _ _ _ Hf key) Hkey) as [l Hl].
  unfold append. rewrite Hl. simpl. eexists. split; [done|].
  assert (Hb : bucket c key = l) by (unfold bucket; by rewrite Hl).
  rewrite Hb. split; [done|]. split.
  - intros k. rewrite lookup_insert_is_Some'.
    rewrite (filing_keys _ _ _ _ Hf k).
    split; [intros [-> | ?]; done | by right].
  - rewrite <- Hb. apply filed_insert; [apply NoDup_all_categories | done].
Qed.

Lemma record_future_filing (c : gmap string (list entry)) (successful failed : nat)
    (processed : list (string * option TickerInfo))
    (job : string * option TickerInfo) :
  filing c successful failed processed ->
  exists c' successful' failed',
    record_future (c, successful, failed) job = Some (c', successful', failed')
    /\ filing c' successful' failed' (processed ++ [job]).
Proof.
  intros Hf. unfold record_future.
  destruct (check_market_cap job.1 job.2) as [result|] eqn:Hcheck.
  - pose proof (category_is_required (market_cap result)) as Hreq.
    assert (Hcat : category result = get_market_cap_category (market_cap result)
                   /\ symbol result = job.1
                   /\ fgtb (market_cap result) (fz 0) = true).
    { unfold check_market_cap in Hcheck.
      destruct job.2 as [info|]; [|done].
      destruct (default _ (marketCap info)) as [cap|]; [|done].
      destruct (nonzero _ && fgtb _ _) eqn:Hpos; [|done].
      injection Hcheck as <-. simpl.
      by apply andb_true_iff in Hpos as [_ ?]. }
    destruct Hcat as (Hcat & Hsym & Hpos). rewrite <- Hcat in Hreq.
    assert (Hkey : category result ∈ all_categories).
    { unfold all_categories. set_solver. }
    assert (Hnot : category result <> "uncategorized").
    { intros E. rewrite E in Hreq. unfold required_categories in Hreq.
      set_solver. }
    destruct (append_filing c successful failed processed (category result)
                (Checked result) Hf Hkey) as (c' & -> & Hc' & Hkeys & Hperm).
    simpl. eexists _, _, _. split; [done|].
    assert (Hfiled : filed_as job = (category result, Checked result)).
    { unfold filed_as. by rewrite Hcheck, Hcat. }
    destruct Hf as [Hk Hs Hsucc Hfail Hchk Hunc Hplaced]. split.
    + done.
    + rewrite (symbols_of_Permutation _ _ Hperm), symbols_of_app, Hs.
      rewrite fmap_app. simpl. by rewrite Hsym.
    + rewrite Hsucc, Hc'.
      pose proof (filed_insert c (category result) (Checked result)
                    required_categories NoDup_required_categories Hreq) as Hp.
      rewrite Hp, length_app. simpl. lia.
    + rewrite Hc', bucket_insert, decide_False by done. done.
    + intros k e Hkr He. rewrite Hc', bucket_insert in He.
      destruct (decide (k = category result)) as [-> | Hne]; [|by apply Hchk].
      apply elem_of_app in He as [He | He]; [by apply Hchk|].
      apply list_elem_of_singleton in He as ->. by exists result.
    + intros e He. rewrite Hc', bucket_insert, decide_False in He by done.
      by apply Hunc.
    + intros k. rewrite Hc', bucket_insert, placed_snoc, Hfiled. cbn [fst snd].
      destruct (decide (k = category result)) as [-> | Hne].
      * by rewrite decide_True, Hplaced.
      * by rewrite decide_False, app_nil_r.
  - assert (Hkey : "uncategorized" ∈ all_categories).
    { unfold all_categories, required_categories. set_solver. }
    assert (Hnot : "uncategorized" ∉ required_categories).
    { unfold required_categories. set_solver. }
    destruct (append_filing c successful failed processed "uncategorized"
                (Unchecked job.1) Hf Hkey) as (c' & -> & Hc' & Hkeys & Hperm).
    simpl. eexists _, _, _. split; [done|].
    assert (Hfiled : filed_as job = ("uncategorized", Unchecked job.1)).
    { unfold filed_as. by rewrite Hcheck. }
    destruct Hf as [Hk Hs Hsucc Hfail Hchk Hunc Hplaced]. split.
    + done.
    + rewrite (symbols_of_Permutation _ _ Hperm), symbols_of_app, Hs.
      rewrite fmap_app. done.
    + rewrite Hsucc, Hc'. by rewrite filed_insert_other.
    + rewrite Hc', bucket_insert, decide_True by done.
      rewrite length_app, Hfail. simpl. lia.
    + intros k e Hkr He. rewrite Hc', bucket_insert in He.
      destruct (decide (k = "uncategorized")) as [-> | Hne]; [done|].
      by apply Hchk.
    + intros e He. rewrite Hc', bucket_insert, decide_True in He by done.
      apply elem_of_app in He as [He | He]; [by apply Hunc|].
      apply list_elem_of_singleton in He as ->. eauto.
    + intros k. rewrite Hc', bucket_insert, placed_snoc, Hfiled. cbn [fst snd].
      destruct (decide (k = "uncategorized")) as [-> | Hne].
      * by rewrite decide_True, Hplaced.
      * by rewrite decide_False, app_nil_r.
Qed.

Lemma record_futures_filing (c : gmap string (list entry)) (successful failed : nat)
    (processed completed : list (string * option TickerInfo)) :
  filing c successful failed processed ->
  exists c' successful' failed',
    record_futures (c, successful, failed) completed = Some (c', successful', failed')
    /\ filing c' successful' failed' (processed ++ completed).
Proof.
  revert c successful failed processed.
  induction completed as [|job completed IH]; intros c s f processed Hf.
  - exists c, s, f. by rewrite app_nil_r.
  - destruct (record_future_filing c s f processed job Hf)
      as (c1 & s1 & f1 & Hstep & Hf1).
    destruct (IH c1 s1 f1 (processed ++ [job]) Hf1) as (c2 & s2 & f2 & Hrest & Hf2).
    exists c2, s2, f2. cbn [record_futures]. rewrite Hstep. simpl.
    rewrite Hrest. by rewrite <- app_assoc in Hf2.
Qed.

(** X20: whatever the tasks see and in whatever order they complete,
    [categorize_stocks] returns (no [KeyError]: a category is always one
    of the five keys), and every symbol is filed exactly once.  The list
    kept under a key holds, in the order of completion, the futures filed
    there: the result of [check_market_cap] under the category of its
    market cap when the check gave a result (a positive market cap), the
    bare symbol under "uncategorized" otherwise.  The two counters are
    the sizes of these two parts and add up to the number of symbols,
    and the result has the structure [_validate_data] asks for. *)
Theorem categorize_stocks_files_every_symbol (symbols : list string)
    (completed : list (string * option TickerInfo)) (now : string) :
  fst <$> completed ≡ₚ symbols ->
  exists data,
    categorize_stocks symbols completed now = Some data
    /\ _validate_data data = true
    /\ symbols_of (filed (stocks data) all_categories) ≡ₚ symbols
    /\ successful_checks (summary data)
       = length (filed (stocks data) required_categories)
    /\ failed_checks (summary data) = length (bucket (stocks data) "uncategorized")
    /\ (successful_checks (summary data) + failed_checks (summary data))%nat
       = total_stocks (summary data)
    /\ (forall k e, k ∈ required_categories -> e ∈ bucket (stocks data) k ->
          exists r, e = Checked r /\ category r = k
                    /\ category r = get_market_cap_category (market_cap r)
                    /\ fgtb (market_cap r) (fz 0) = true)
    /\ (forall e, e ∈ bucket (stocks data) "uncategorized" ->
          exists s, e = Unchecked s)
    /\ (forall k, bucket (stocks data) k = placed k completed)
    /\ (forall job, job ∈ completed ->
          (filed_as job).2 ∈ bucket (stocks data) (filed_as job).1).
Proof.
  intros Hperm.
  destruct (record_futures_filing no_stocks 0 0 [] completed filing_start)
    as (c & s & f & Hrun & Hf).
  unfold categorize_stocks. rewrite Hrun. simpl.
  eexists. split; [done|].
  cbn [stocks summary successful_checks failed_checks total_stocks].
  destruct Hf as [Hk Hs Hsucc Hfail Hchk Hunc Hplaced].
  rewrite app_nil_l in Hs, Hplaced.
  split.
  { unfold _validate_data. cbn [stocks]. apply forallb_forall. intros cat Hcat.
    apply bool_decide_eq_true. apply Hk. unfold all_categories.
    apply list_elem_of_In in Hcat. set_solver. }
  split; [by rewrite Hs|].
  split; [done|]. split; [done|].
  split; [|split; [done|]; split; [done|]; split; [done|]].
  2:{ intros job Hjob. rewrite Hplaced. unfold placed.
      apply list_elem_of_omap. exists job. split; [done|].
      by rewrite decide_True. }
  rewrite Hsucc, Hfail.
  assert (Hlen : length (filed c all_categories) = length symbols).
  { rewrite <- Hperm, length_fmap.
    assert (Hall : Forall (fun e => is_Some (symbol_of e)) (filed c all_categories)).
    { unfold filed. apply Forall_concat, Forall_fmap, Forall_forall.
      intros k Hkin. simpl. apply Forall_forall. intros e He.
      unfold all_categories in Hkin. apply elem_of_app in Hkin as [Hkin | Hkin].
      - destruct (Hchk k e Hkin He) as (r & -> & _). by eexists.
      - apply list_elem_of_singleton in Hkin as ->.
        destruct (Hunc e He) as (sym & ->). by eexists. }
    pose proof (Permutation_length Hs) as Hl. rewrite length_fmap in Hl.
    rewrite <- Hl. unfold symbols_of. clear -Hall.
    induction Hall as [|e l [sym He] _ IH]; simpl; [done|].
    rewrite He. simpl. by rewrite IH. }
  rewrite <- Hlen. unfold all_categories.
  rewrite filed_app, length_app, filed_cons. unfold filed at 3. simpl.
  by rewrite app_nil_r.
Qed.

(** *** Reading the cache *)

Section Reading.
Context (load_from_json : option Data) (update_stocks_database : outcome Data).

Lemma add_unseen_spec (acc : list string) (seen : gset string) (l : list string) :
  (forall x, x ∈ seen <-> x ∈ acc) ->
  exists seen',
    foldl add_unseen (acc, seen) l
    = (acc ++ filter (fun x => x ∉ acc) (first_occurrences l), seen')
    /\ forall x, x ∈ seen' <-> x ∈ acc ++ filter (fun x => x ∉ acc) (first_occurrences l).
Proof.
  revert acc seen. induction l as [|x l IH]; intros acc seen Hseen.
  - exists seen. simpl. rewrite app_nil_r. done.
  - cbn [foldl first_occurrences]. unfold add_unseen at 2.
    destruct (decide (x ∈ seen)) as [Hin | Hnot].
    + destruct (IH acc seen Hseen) as (seen' & Hfold & Hseen').
      exists seen'. rewrite Hfold.
      assert (Hf : filter (fun y => y ∉ acc)
                     (x :: filter (fun y => y <> x) (first_occurrences l))
                   = filter (fun y => y ∉ acc) (first_occurrences l)).
      { rewrite filter_cons, decide_False by (intros ?; apply Hseen in Hin; done).
        rewrite list_filter_filter. apply list_filter_iff.
        intros y. split; [by intros [? _]|]. intros Hy. split; [done|].
        intros ->. apply Hseen in Hin. done. }
      rewrite Hf. done.
    + destruct (IH (acc ++ [x]) ({[x]} ∪ seen)) as (seen' & Hfold & Hseen').
      { intros y. rewrite elem_of_union, elem_of_singleton, elem_of_app,
          list_elem_of_singleton, Hseen. tauto. }
      exists seen'. rewrite Hfold.
      assert (Hf : acc ++ filter (fun y => y ∉ acc)
                     (x :: filter (fun y => y <> x) (first_occurrences l))
                   = (acc ++ [x]) ++ filter (fun y => y ∉ acc ++ [x])
                                       (first_occurrences l)).
      { rewrite filter_cons, decide_True by (by rewrite <- Hseen).
        rewrite <- app_assoc. simpl. do 2 f_equal.
        rewrite list_filter_filter. apply list_filter_iff.
        intros y. rewrite elem_of_app, list_elem_of_singleton. tauto. }
      rewrite Hf. done.
Qed.

Lemma filter_all (P : string -> Prop) `{!forall x, Decision (P x)} (l : list string) :
  (forall x, P x) -> filter P l = l.
Proof.
  intros HP. induction l as [|x l IH]; [done|].
  by rewrite filter_cons_True, IH.
Qed.

Lemma first_occurrences_elem (l : list string) (x : string) :
  x ∈ first_occurrences l <-> x ∈ l.
Proof.
  induction l as [|y l IH]; simpl; [done|].
  rewrite !elem_of_cons, list_elem_of_filter, IH.
  destruct (decide (x = y)); naive_solver.
Qed.

Lemma first_occurrences_NoDup (l : list string) : NoDup (first_occurrences l).
Proof.
  induction l as [|y l IH]; simpl; [constructor|].
  apply NoDup_cons. split.
  - rewrite list_elem_of_filter. naive_solver.
  - by apply NoDup_filter.
Qed.

Lemma foldl_concat {A B} (f : A -> B -> A) (a : A) (ls : list (list B)) :
  foldl (fun acc l => foldl f acc l) a ls = foldl f a (concat ls).
Proof.
  revert a. induction ls as [|l ls IH]; intros a; simpl; [done|].
  by rewrite foldl_app, IH.
Qed.

Lemma get_all_stocks_concat :
  get_all_stocks load_from_json update_stocks_database
  = concat (get_stocks_by_category load_from_json update_stocks_database
              <$> required_categories).
Proof.
  unfold get_all_stocks, get_stocks_by_category.
  destruct (database _ _) as [data|]; [|done].
  simpl. by rewrite !app_nil_r, <- !app_assoc.
Qed.

(** X21: [get_stocks_by_categories] returns the symbols of the requested
    categories, in the order of the request, each symbol once, at the
    place where it comes first; "all" stands for the five categories in
    turn and "large_cap" for the mega caps followed by the large caps. *)
Theorem stocks_by_categories_are_unique (categories : list string) :
  let requested :=
    concat (symbols_for load_from_json update_stocks_database <$> categories) in
  let out :=
    get_stocks_by_categories load_from_json update_stocks_database categories in
  out = first_occurrences requested
  /\ NoDup out
  /\ (forall s, s ∈ out <-> s ∈ requested)
  /\ symbols_for load_from_json update_stocks_database "all"
     = concat (get_stocks_by_category load_from_json update_stocks_database
                 <$> required_categories)
  /\ symbols_for load_from_json update_stocks_database "large_cap"
     = get_stocks_by_category load_from_json update_stocks_database "mega_cap"
       ++ get_stocks_by_category load_from_json update_stocks_database "large_cap".
Proof.
  cbn zeta.
  assert (Hout : get_stocks_by_categories load_from_json update_stocks_database
                   categories
                 = first_occurrences
                     (concat (symbols_for load_from_json update_stocks_database
                                <$> categories))).
  { unfold get_stocks_by_categories.
    rewrite <- (foldl_fmap (fun acc l => foldl add_unseen acc l)
                  ([], ∅) categories
                  (symbols_for load_from_json update_stocks_database)).
    rewrite foldl_concat.
    destruct (add_unseen_spec [] ∅
                (concat (symbols_for load_from_json update_stocks_database
                           <$> categories))) as (seen' & -> & _); [set_solver|].
    simpl. apply filter_all. intros x. set_solver. }
  rewrite Hout.
  split; [done|]. split; [apply first_occurrences_NoDup|].
  split; [apply first_occurrences_elem|].
  split; [|done].
  unfold symbols_for. rewrite decide_True by done. apply get_all_stocks_concat.
Qed.
End Reading.

End StockFetcherFacts.

(** * The scan *)

Module ScanFacts.
Import MarketScanner Scan Batches Ranking Filtering.
Import PandasFacts SignalFacts TradeLogFacts SimulateFacts RankingFacts FilteringFacts.

(** *** Rate limiting *)

(** X22: the settings a scan runs with depend on the number of stocks only,
    not on what an earlier scan left behind: at most 500 stocks restore
    the configured defaults, more than 500 and more than 1000 stocks
    take smaller batches, fewer workers and a longer delay.  The
    simulator, the timeout and the retry settings are never touched. *)
Theorem rate_limiting_follows_the_scan_size (self : t) (n m : nat) :
  _adjust_rate_limiting (_adjust_rate_limiting self n) m
    = _adjust_rate_limiting self m
  /\ ((n <= m)%nat ->
      (batch_size (_adjust_rate_limiting self m)
         <= batch_size (_adjust_rate_limiting self n))%positive
      /\ (max_workers (_adjust_rate_limiting self m)
            <= max_workers (_adjust_rate_limiting self n))%Z
      /\ fleb (rate_limit_delay (_adjust_rate_limiting self n))
              (rate_limit_delay (_adjust_rate_limiting self m)) = true)
  /\ (25 <= batch_size (_adjust_rate_limiting self n) <= 50)%positive
  /\ ((n <= 500)%nat ->
      batch_size (_adjust_rate_limiting self n) = settings.batch_size
      /\ max_workers (_adjust_rate_limiting self n) = settings.max_workers
      /\ rate_limit_delay (_adjust_rate_limiting self n) = settings.rate_limit_delay)
  /\ trading_simulator (_adjust_rate_limiting self n) = trading_simulator self
  /\ max_retries (_adjust_rate_limiting self n) = max_retries self
  /\ retry_delay (_adjust_rate_limiting self n) = retry_delay self
  /\ timeout (_adjust_rate_limiting self n) = timeout self.
Proof.
  unfold _adjust_rate_limiting.
  split; [by repeat case_match|].
  split.
  { intros Hle.
    destruct (Nat.ltb_spec 1000 n), (Nat.ltb_spec 500 n),
      (Nat.ltb_spec 1000 m), (Nat.ltb_spec 500 m); try lia;
      cbn [batch_size max_workers rate_limit_delay];
      (split; [by vm_compute | split; [by vm_compute | by vm_compute]]). }
  split.
  { repeat case_match; by vm_compute. }
  split.
  { intros Hn.
    replace (1000 <? n)%nat with false by (symmetry; apply Nat.ltb_ge; lia).
    replace (500 <? n)%nat with false by (symmetry; apply Nat.ltb_ge; lia).
    done. }
  by repeat case_match.
Qed.

(** *** Batches *)

Lemma range_by_0 (step : positive) : range_by 0 step = [].
Proof.
  unfold range_by. rewrite Nat.add_0_l.
  rewrite Nat.div_small by lia. done.
Qed.

Lemma range_by_pos (stop : nat) (step : positive) :
  (0 < stop)%nat ->
  range_by stop step
  = 0%nat :: ((fun i => i + Pos.to_nat step)%nat
                <$> range_by (stop - Pos.to_nat step) step).
Proof.
  intros Hpos. unfold range_by. set (b := Pos.to_nat step).
  assert (Hb : (0 < b)%nat) by (unfold b; lia).
  assert (Hk : ((stop + b - 1) / b = S ((stop - b + b - 1) / b))%nat).
  { destruct (decide (b <= stop)%nat) as [Hle | Hlt].
    - replace (stop + b - 1)%nat with ((stop - b + b - 1) + 1 * b)%nat by lia.
      rewrite Nat.div_add by lia. lia.
    - replace (stop - b)%nat with 0%nat by lia.
      rewrite (Nat.div_small (0 + b - 1)) by lia.
      replace (stop + b - 1)%nat with ((stop - 1) + 1 * b)%nat by lia.
      rewrite Nat.div_add by lia. rewrite Nat.div_small by lia. done. }
  rewrite Hk. cbn [seq fmap list_fmap]. f_equal.
  rewrite <- fmap_S_seq, <- !list_fmap_compose.
  apply list_fmap_ext. intros i x _. simpl. lia.
Qed.

Lemma slice_shift {A} (l : list A) (i n b : nat) :
  slice l (i + b) n = slice (drop b l) i n.
Proof. unfold slice. by rewrite drop_drop, Nat.add_comm. Qed.

Lemma slices_cover {A} (step : positive) (n : nat) (l : list A) :
  length l = n ->
  concat ((fun i => slice l i (Pos.to_nat step)) <$> range_by n step) = l.
Proof.
  revert l. induction (lt_wf n) as [n _ IH]. intros l Hlen.
  destruct (decide (n = 0)%nat) as [-> | Hn].
  - rewrite range_by_0. by apply nil_length_inv in Hlen as ->.
  - rewrite range_by_pos by lia. rewrite fmap_cons, <- list_fmap_compose.
    cbn [concat].
    rewrite (list_fmap_ext _ (fun i => slice (drop (Pos.to_nat step) l) i (Pos.to_nat step))
               (range_by (n - Pos.to_nat step) step)).
    2:{ intros i x _. simpl. apply slice_shift. }
    rewrite (IH (n - Pos.to_nat step)%nat); [| lia | by rewrite length_drop, Hlen].
    unfold slice. rewrite drop_0. apply take_drop.
Qed.

Lemma batches_cover (self : t) (stocks : list string) :
  concat (snd <$> batches self stocks) = stocks.
Proof.
  unfold batches. destruct (_ <? _)%nat.
  - rewrite <- list_fmap_compose. by apply (slices_cover (batch_size self)).
  - simpl. by rewrite app_nil_r.
Qed.

Lemma batches_spec (self : t) (stocks : list string) :
  concat (snd <$> batches self stocks) = stocks
  /\ (forall i batch, (i, batch) ∈ batches self stocks ->
        batch = slice stocks i (Pos.to_nat (batch_size self))
        /\ (length batch <= Pos.to_nat (batch_size self))%nat
        /\ (stocks <> [] -> batch <> []))
  /\ ((length stocks <= Pos.to_nat (batch_size self))%nat ->
      batches self stocks = [(0%nat, stocks)]).
Proof.
  unfold batches. set (b := Pos.to_nat (batch_size self)).
  assert (Hb : (0 < b)%nat) by (unfold b; lia).
  destruct (b <? length stocks)%nat eqn:Hbig.
  - apply Nat.ltb_lt in Hbig. split; [|split].
    + rewrite <- list_fmap_compose. apply (slices_cover (batch_size self)). done.
    + intros i batch Hin. apply list_elem_of_fmap in Hin as (j & Heq & Hj).
      injection Heq as -> ->. split; [done|].
      split; [unfold slice; rewrite length_take; lia|].
      intros _ Hnil. unfold range_by in Hj.
      apply list_elem_of_fmap in Hj as (q & -> & Hq).
      apply elem_of_seq in Hq. fold b in Hq, Hnil.
      assert (Hlt : (q * b < length stocks)%nat).
      { assert (q <= (length stocks + b - 1) / b - 1)%nat by lia.
        assert (((length stocks + b - 1) / b) * b <= length stocks + b - 1)%nat.
        { rewrite Nat.mul_comm. apply Nat.Div0.mul_div_le. }
        nia. }
      apply (f_equal length) in Hnil. unfold slice in Hnil.
      rewrite length_take, length_drop in Hnil. simpl in Hnil. lia.
    + intros Hle. lia.
  - apply Nat.ltb_ge in Hbig. split; [|split].
    + simpl. by rewrite app_nil_r.
    + intros i batch Hin. apply list_elem_of_singleton in Hin.
      injection Hin as -> ->. unfold slice. rewrite drop_0.
      rewrite take_ge by done. done.
    + done.
Qed.

(** *** Counting the futures *)

Lemma omap_length_le {A B} (f : A -> option B) (l : list A) :
  (length (omap f l) <= length l)%nat.
Proof.
  induction l as [|x l IH]; [done|]. cbn [omap list_omap].
  fold (omap f l). destruct (f x); cbn [length]; lia.
Qed.

Lemma collect_spec (min_trades : Z) (finished : list (string * future))
    (results : list ScanResult) (successful failed : nat) :
  foldl (collect min_trades) (results, successful, failed) finished
  = (results ++ omap (fun d => accepted min_trades d.2) finished,
     (successful + length (omap (fun d => accepted min_trades d.2) finished))%nat,
     (failed + (length finished
                - length (omap (fun d => accepted min_trades d.2) finished)))%nat).
Proof.
  revert results successful failed.
  induction finished as [|d finished IH]; intros results successful failed.
  - simpl. by rewrite app_nil_r, !Nat.add_0_r.
  - cbn [foldl].
    assert (Hstep : collect min_trades (results, successful, failed) d
                    = match accepted min_trades d.2 with
                      | Some r => (results ++ [r], S successful, failed)
                      | None => (results, successful, S failed)
                      end).
    { unfold collect, accepted.
      destruct d as [symbol [[[msg | res]|]|]]; cbn [snd]; try done.
      by destruct (enough_trades res min_trades) as [[]|]. }
    rewrite Hstep. clear Hstep.
    pose proof (omap_length_le (fun d => accepted min_trades d.2) finished) as Hle.
    cbn [omap list_omap]. fold (omap (fun d => accepted min_trades d.2) finished).
    destruct (accepted min_trades d.2) as [r|]; rewrite IH; cbn [length].
    + rewrite <- app_assoc.
      apply pair_equal_spec; split; [apply pair_equal_spec; split|];
        [done | lia | simpl; lia].
    + apply pair_equal_spec; split; [apply pair_equal_spec; split|];
        [done | lia | simpl; lia].
Qed.

Lemma scan_batch_spec (self : t) (finished : list (string * future))
    (min_trades : Z) :
  _scan_batch self finished min_trades
  = (omap (fun d => accepted min_trades d.2) finished,
     length (omap (fun d => accepted min_trades d.2) finished),
     (length finished
      - length (omap (fun d => accepted min_trades d.2) finished))%nat).
Proof. unfold _scan_batch. by rewrite collect_spec. Qed.

Section Counting.
Context (completed : nat -> list string -> list (string * future)).
Context (min_trades : Z).
Hypothesis every_future_completes :
  forall i batch, length (completed i batch) = length batch.

Let kept := Batches.kept completed min_trades.

Lemma scan_batch_counts (self : t) (i : nat) (batch : list string) :
  exists failed,
    _scan_batch self (completed i batch) min_trades
    = (kept (i, batch), length (kept (i, batch)), failed)
    /\ (length (kept (i, batch)) + failed)%nat = length batch.
Proof.
  rewrite scan_batch_spec. eexists. split; [done|].
  pose proof (omap_length_le (fun d => accepted min_trades d.2) (completed i batch)) as H1.
  unfold kept, Batches.kept. cbn [fst snd]. rewrite every_future_completes in *. lia.
Qed.

Lemma scan_rows_counts (self : t) (stocks : list string) (rows : list nat)
    (results : list ScanResult) (successful failed : nat) :
  let pairs := (fun i => (i, slice stocks i (Pos.to_nat (batch_size self)))) <$> rows in
  exists failed',
    foldl (fun acc i =>
             let '(results, successful, failed) := acc in
             let batch := slice stocks i (Pos.to_nat (batch_size self)) in
             let '(batch_results, batch_success, batch_failed) :=
               _scan_batch self (completed i batch) min_trades in
             (results ++ batch_results, (successful + batch_success)%nat,
              (failed + batch_failed)%nat))
          (results, successful, failed) rows
    = (results ++ concat (kept <$> pairs),
       (successful + length (concat (kept <$> pairs)))%nat, failed')
    /\ (length (concat (kept <$> pairs)) + failed')%nat
       = (failed + length (concat (snd <$> pairs)))%nat.
Proof.
  cbn zeta. revert results successful failed.
  induction rows as [|i rows IH]; intros results successful failed.
  - exists failed. simpl. rewrite app_nil_r, Nat.add_0_r. split; [done | lia].
  - cbn [foldl].
    destruct (scan_batch_counts self i (slice stocks i (Pos.to_nat (batch_size self))))
      as (fb & -> & Hfb).
    destruct (IH (results ++ kept (i, slice stocks i (Pos.to_nat (batch_size self))))
                 (successful + length (kept (i, slice stocks i (Pos.to_nat (batch_size self)))))%nat
                 (failed + fb)%nat) as (failed' & -> & Hf').
    exists failed'. rewrite !fmap_cons. cbn [concat snd].
    rewrite !length_app, <- app_assoc. split; [|lia].
    apply pair_equal_spec; split; [apply pair_equal_spec; split|]; [done | lia | done].
Qed.

Lemma scan_stocks_spec (self : t) (stocks : list string) :
  exists failed,
    _scan_stocks completed self stocks min_trades
    = (concat (kept <$> batches self stocks),
       length (concat (kept <$> batches self stocks)), failed)
    /\ (length (concat (kept <$> batches self stocks)) + failed)%nat
       = length stocks.
Proof.
  pose proof (batches_cover self stocks) as Hcover.
  unfold _scan_stocks, batches in *.
  destruct (Pos.to_nat (batch_size self) <? length stocks)%nat.
  - destruct (scan_rows_counts self stocks (range_by (length stocks) (batch_size self))
                [] 0%nat 0%nat) as (failed & Hfold & Hcount).
    cbn zeta in *. exists failed. rewrite Hfold. split; [done|].
    rewrite Hcover in Hcount. lia.
  - destruct (scan_batch_counts self 0%nat stocks) as (failed & -> & Hcount).
    exists failed. simpl. rewrite app_nil_r. done.
Qed.
End Counting.

Lemma accepted_enough (min_trades : Z) (f : future) (r : ScanResult) :
  accepted min_trades f = Some r ->
  f = Returned (Some (Result r)) /\ enough_trades r min_trades = Some true.
Proof.
  unfold accepted. destruct f as [[[msg | res]|]|]; try done.
  destruct (enough_trades res min_trades) as [[]|] eqn:E; try done.
  by intros [= <-].
Qed.

Lemma kept_origin (completed : nat -> list string -> list (string * future))
    (min_trades : Z) (self : t) (stocks : list string) (r : ScanResult) :
  r ∈ concat (kept completed min_trades <$> batches self stocks) ->
  exists i batch symbol,
    (i, batch) ∈ batches self stocks
    /\ (symbol, Returned (Some (Result r))) ∈ completed i batch
    /\ enough_trades r min_trades = Some true.
Proof.
  intros Hin. apply list_elem_of_In, in_concat in Hin as (l & Hl & Hr).
  apply list_elem_of_In in Hl, Hr.
  apply list_elem_of_fmap in Hl as ([i batch] & -> & Hib).
  unfold kept in Hr. apply list_elem_of_omap in Hr as ([symbol f] & Hd & Hacc).
  apply accepted_enough in Hacc as [Hf Hen]. cbn [snd] in Hf. subst f.
  by exists i, batch, symbol.
Qed.

(** X23: when every submitted task completes, [_scan_stocks] accounts for
    every stock exactly once.  The batches are consecutive slices of the
    stock list, of at most [batch_size] symbols, that together make up
    the list; the results are those of the futures that returned without
    error and with at least [min_trades] trades, batch after batch;
    there are as many of them as successful scans, and the successful
    and the failed scans add up to the number of stocks. *)
Theorem scan_counts_every_stock_once
    (completed : nat -> list string -> list (string * future))
    (min_trades : Z) (self : t) (stocks : list string) :
  (forall i batch, length (completed i batch) = length batch) ->
  exists results successful failed,
    _scan_stocks completed self stocks min_trades = (results, successful, failed)
    /\ concat (snd <$> batches self stocks) = stocks
    /\ (forall i batch, (i, batch) ∈ batches self stocks ->
          batch = slice stocks i (Pos.to_nat (batch_size self))
          /\ (length batch <= Pos.to_nat (batch_size self))%nat)
    /\ results = concat (kept completed min_trades <$> batches self stocks)
    /\ successful = length results
    /\ (successful + failed)%nat = length stocks
    /\ forall r, r ∈ results ->
         exists i batch symbol,
           (i, batch) ∈ batches self stocks
           /\ (symbol, Returned (Some (Result r))) ∈ completed i batch
           /\ enough_trades r min_trades = Some true.
Proof.
  intros Hcomplete.
  destruct (scan_stocks_spec completed min_trades Hcomplete self stocks)
    as (failed & Hscan & Hcount).
  destruct (batches_spec self stocks) as (Hcover & Hslices & _).
  eexists _, _, failed. split; [exact Hscan|].
  split; [done|].
  split; [intros i batch Hin; by destruct (Hslices i batch Hin) as (? & ? & _)|].
  split; [done|]. split; [done|]. split; [done|].
  intros r Hr. by apply (kept_origin completed min_trades self stocks).
Qed.

End ScanFacts.

(** * Scanning one stock *)

Module RetryFacts.
Import Scan Batches.
Import PandasFacts SignalFacts TradeLogFacts SimulateFacts.

Section Single.
Context (str_exn : exn -> string) (history : nat -> fetched).
Context (self : t) (symbol buy_indicator sell_indicator : string)
        (buy_threshold sell_threshold : option float).

Let attempt (k : nat) : string + outcome Scanned :=
  attempt_once str_exn history self symbol buy_indicator sell_indicator
    buy_threshold sell_threshold k.
Let error_scanning (message : string) : outcome Scanned :=
  Error ("Error scanning " +:+ symbol +:+ ": " +:+ message).

Lemma fetches_app (t1 t2 : list event) :
  fetches (t1 ++ t2) = (fetches t1 + fetches t2)%nat.
Proof. unfold fetches. by rewrite List.filter_app, length_app. Qed.

(** What the loop does from attempt [k] on, [r] attempts being left. *)
Lemma retry_spec (r k : nat) (trace0 : list event) :
  (k + S r)%nat = max_retries self ->
  exists j trace answer,
    retry str_exn history self symbol buy_indicator sell_indicator
      buy_threshold sell_threshold (seq k (S r)) trace0 = (trace, answer)
    /\ (k <= j < max_retries self)%nat
    /\ fetches trace = (fetches trace0 + S (j - k))%nat
    /\ (forall i, (k <= i < j)%nat ->
          exists message, attempt i = inl message /\ throttled message = true)
    /\ (attempt j = inr answer
        \/ exists message,
             attempt j = inl message
             /\ (throttled message = false \/ S j = max_retries self)
             /\ answer = error_scanning message).
Proof.
  revert k trace0. induction r as [|r IH]; intros k trace0 Hk.
  - cbn [seq retry]. fold (attempt k).
    destruct (attempt k) as [message | answer] eqn:Hatt.
    + replace (k <? max_retries self - 1)%nat with false
        by (symmetry; apply Nat.ltb_ge; lia).
      rewrite andb_false_r. exists k. eexists _, _. split; [done|].
      split; [lia|]. split.
      { rewrite fetches_app. unfold fetches at 2. simpl.
        replace (k - k)%nat with 0%nat by lia. done. }
      split; [intros i Hi; lia|].
      right. exists message. split; [done|]. split; [right; lia | done].
    + exists k. eexists _, _. split; [done|]. split; [lia|]. split.
      { rewrite fetches_app. unfold fetches at 2. simpl.
        replace (k - k)%nat with 0%nat by lia. done. }
      split; [intros i Hi; lia|]. by left.
  - cbn [seq retry]. fold (attempt k).
    destruct (attempt k) as [message | answer] eqn:Hatt.
    + replace (k <? max_retries self - 1)%nat with true
        by (symmetry; apply Nat.ltb_lt; lia).
      rewrite andb_true_r. fold (throttled message).
      destruct (throttled message) eqn:Hthr.
      * destruct (IH (S k) ((trace0 ++ [Sleep (rate_limit_delay self); History symbol])
                            ++ [Sleep (retry_delay self)]) ltac:(lia))
          as (j & trace & answer & Hretry & Hj & Hf & Hbefore & Hlast).
        exists j, trace, answer. split; [exact Hretry|].
        split; [lia|]. split.
        { rewrite Hf, !fetches_app. unfold fetches at 2 3. simpl. lia. }
        split; [|done].
        intros i Hi. destruct (decide (i = k)) as [-> | Hne].
        -- by exists message.
        -- apply Hbefore. lia.
      * exists k. eexists _, _. split; [done|]. split; [lia|]. split.
        { rewrite fetches_app. unfold fetches at 2. simpl.
          replace (k - k)%nat with 0%nat by lia. done. }
        split; [intros i Hi; lia|].
        right. exists message. split; [done|]. split; [by left | done].
    + exists k. eexists _, _. split; [done|]. split; [lia|]. split.
      { rewrite fetches_app. unfold fetches at 2. simpl.
        replace (k - k)%nat with 0%nat by lia. done. }
      split; [intros i Hi; lia|]. by left.
Qed.

Lemma scan_single_stock_spec :
  (1 <= max_retries self)%nat ->
  exists j trace answer,
    _scan_single_stock str_exn history self symbol buy_indicator sell_indicator
      buy_threshold sell_threshold = (trace, answer)
    /\ (j < max_retries self)%nat
    /\ fetches trace = S j
    /\ (forall i, (i < j)%nat ->
          exists message, attempt i = inl message /\ throttled message = true)
    /\ (attempt j = inr answer
        \/ exists message,
             attempt j = inl message
             /\ (throttled message = false \/ S j = max_retries self)
             /\ answer = error_scanning message).
Proof.
  intros Hpos. unfold _scan_single_stock.
  destruct (max_retries self) as [|r] eqn:Hr; [lia|].
  destruct (retry_spec r 0 []) as (j & trace & answer & Hretry & Hj & Hf & Hb & Hl);
    [lia|].
  rewrite Hr in *.
  exists j, trace, answer. split; [exact Hretry|]. split; [lia|].
  split; [rewrite Hf; unfold fetches; simpl; lia|].
  split; [|done]. intros i Hi. apply Hb. lia.
Qed.
End Single.

(** X24: with at least one attempt allowed, a scan of one stock ends inside
    the retry loop: it fetches the history at most [max_retries] times,
    every fetch but the last one having failed with a message that names
    a rate limit, and it answers with what the last attempt returned or
    with "Error scanning ..." for the exception of the last attempt.  An
    exception that is not a throttling one is never retried, and
    "Failed to scan ... after n attempts" is never the answer. *)
Theorem scan_single_stock_retries_only_throttling
    (str_exn : exn -> string) (history : nat -> fetched) (self : t)
    (symbol buy_indicator sell_indicator : string)
    (buy_threshold sell_threshold : option float) :
  (1 <= max_retries self)%nat ->
  let attempt :=
    attempt_once str_exn history self symbol buy_indicator sell_indicator
      buy_threshold sell_threshold in
  exists j trace answer,
    _scan_single_stock str_exn history self symbol buy_indicator sell_indicator
      buy_threshold sell_threshold = (trace, answer)
    /\ (j < max_retries self)%nat
    /\ fetches trace = S j
    /\ (forall i, (i < j)%nat ->
          exists message, attempt i = inl message /\ throttled message = true)
    /\ (attempt j = inr answer
        \/ exists message,
             attempt j = inl message
             /\ (throttled message = false \/ S j = max_retries self)
             /\ answer = Error ("Error scanning " +:+ symbol +:+ ": " +:+ message)).
Proof. intros Hpos. by apply scan_single_stock_spec. Qed.

Lemma simulate_returns (self : TradingSimulator.t) (df : DataFrame)
    (buy_indicator sell_indicator : string)
    (buy_threshold sell_threshold : option float) :
  TradingSimulator.initial_balance self <> fz 0 ->
  (50 <= length df)%nat ->
  exists sim,
    TradingSimulator.simulate self df buy_indicator sell_indicator
      buy_threshold sell_threshold = Ok (self, Result sim).
Proof.
  intros Hinit Hlen. unfold TradingSimulator.simulate.
  rewrite enough_rows by lia.
  destruct (generate_signals_ok (TradingSimulator.signal_detector self) df
              buy_indicator sell_indicator buy_threshold sell_threshold)
    as (bs & ss & Hgen & Hlb & Hls).
  destruct (execute_trades_spec self df bs ss ltac:(lia) ltac:(lia))
    as (st & log & final & _ & _ & Hexec & _).
  rewrite Hgen. cbn [mbind result_bind Py.bind]. rewrite Hexec.
  cbn [mbind result_bind Py.bind].
  rewrite gain_ratio_ok by done. cbn [mbind result_bind Py.bind mret result_ret].
  by eexists.
Qed.

(** X25: a history that arrives at the first attempt is fetched once and
    never again: with fewer than 50 rows the answer is "Insufficient
    data for <symbol>"; from 50 rows on (and a simulator whose initial
    balance is not zero) it is the summary and the statistics of the
    simulation of these rows, under the upper-cased symbol. *)
Theorem delivered_history_is_scanned_once
    (str_exn : exn -> string) (history : nat -> fetched) (self : t)
    (symbol buy_indicator sell_indicator : string)
    (buy_threshold sell_threshold : option float) (df : DataFrame) :
  (1 <= max_retries self)%nat ->
  history 0%nat = Frame df ->
  TradingSimulator.initial_balance (trading_simulator self) <> fz 0 ->
  let once := [Sleep (rate_limit_delay self); History symbol] in
  ((length df < 50)%nat ->
   _scan_single_stock str_exn history self symbol buy_indicator sell_indicator
     buy_threshold sell_threshold
   = (once, Error ("Insufficient data for " +:+ symbol)))
  /\ ((50 <= length df)%nat ->
      exists sim,
        TradingSimulator.simulate (trading_simulator self) df buy_indicator
          sell_indicator buy_threshold sell_threshold
          = Ok (trading_simulator self, Result sim)
        /\ _scan_single_stock str_exn history self symbol buy_indicator
             sell_indicator buy_threshold sell_threshold
           = (once,
              Result {| scanned_stock := upper symbol;
                        scanned_summary := TradingSimulator.trading_summary sim;
                        scanned_statistics := TradingSimulator.statistics sim |})).
Proof.
  intros Hpos Hhist Hinit. cbn zeta. unfold _scan_single_stock.
  destruct (max_retries self) as [|r]; [lia|].
  cbn [seq retry]. unfold attempt_once. rewrite Hhist.
  split.
  - intros Hlen. by rewrite too_few_rows.
  - intros Hlen. rewrite enough_rows by lia.
    destruct (simulate_returns (trading_simulator self) df buy_indicator
                sell_indicator buy_threshold sell_threshold Hinit Hlen)
      as (sim & Hsim).
    exists sim. split; [done|]. by rewrite Hsim.
Qed.

End RetryFacts.

(** * The report of a scan *)

Module ScanReportFacts.
Import MarketScanner Scan Batches Ranking Filtering.
Import RankingFacts FilteringFacts ScanFacts.

Lemma apply_sorting_spec (results : list ScanResult)
    (sort_rules : option (list (gmap string string))) :
  (forall r, r ∈ results -> sortable (rules_in_force sort_rules) r) ->
  exists ranked,
    _apply_sorting results sort_rules = Ok ranked
    /\ results ≡ₚ ranked
    /\ forall i j a b,
         (i < j)%nat -> ranked !! i = Some a -> ranked !! j = Some b ->
         precedes (rules_in_force sort_rules) a b.
Proof.
  intros Hsortable. destruct results as [|r0 results].
  - exists []. split; [done|]. split; [done|]. intros i j a b _ Hi. done.
  - unfold _apply_sorting. fold (rules_in_force sort_rules).
    destruct (sorted_spec (ranks (rules_in_force sort_rules))
                (get_sort_key (rules_in_force sort_rules)) (r0 :: results))
      as (out & Hout & Hperm & Hsorted).
    { intros x Hx. apply get_sort_key_ranks. apply Hsortable.
      by apply list_elem_of_In. }
    exists out. split; [done|]. split; [done|].
    intros i j a b Hij Hi Hj. apply not_after_precedes.
    by apply (StronglySorted_lookup _ out Hsorted i j).
Qed.

Lemma exclude_rules_kept (results : list ScanResult)
    (rules : list (gmap string pyval)) (r : ScanResult) :
  r ∈ _apply_exclude_rules results rules
  <-> r ∈ results /\ forall rule, rule ∈ rules -> fires rule r = false.
Proof.
  rewrite apply_exclude_rules_filter, list_elem_of_In, List.filter_In,
    <- list_elem_of_In, negb_true_iff.
  split; intros [Hin Hno]; (split; [done|]).
  - intros rule Hrule.
    destruct (fires rule r) eqn:Hf; [|done].
    rewrite <- Hno. symmetry. apply existsb_exists.
    exists rule. split; [by apply list_elem_of_In | done].
  - destruct (existsb _ rules) eqn:Hex; [|done].
    apply existsb_exists in Hex as (rule & Hrule & Hf).
    rewrite Hno in Hf; [done | by apply list_elem_of_In].
Qed.

Lemma apply_exclude_rules_nil (results : list ScanResult) :
  _apply_exclude_rules results [] = results.
Proof.
  unfold _apply_exclude_rules.
  assert (Hid : forall (f : ScanResult -> bool) l,
            (forall x, f x = true) -> List.filter f l = l).
  { intros f l Hf. induction l as [|x l IH]; [done|].
    cbn [List.filter]. by rewrite Hf, IH. }
  by apply Hid.
Qed.

Section Scan.
Context (completed : nat -> list string -> list (string * future)).
Context (load_from_json : option StockFetcher.Data)
        (update_stocks_database : outcome StockFetcher.Data).

(** X26: a scan is refused, with the scanner left as it was, when the lower
    case form of an indicator is neither "macd" nor "kdj" or when there
    is no stock to scan.  Otherwise, when every submitted task completes
    and the fields named by the sort rules hold numbers wherever the
    scanned results have them, the report is the following.  The
    successful and failed scans add up to the number of stocks scanned.
    The scanned results on which no exclude rule fires are sorted by
    [_apply_sorting]; [top_results] is the whole sorted list, or its
    first [top_n] results when [top_n] is positive; so the listed results
    are scanned results that no rule excludes, in the order of the sort
    rules.  [top_stocks] names them in the same order, and
    [stocks_after_filters] is the number of results listed. *)
Theorem scan_report_is_consistent (self : t)
    (buy_indicator sell_indicator period interval : string)
    (buy_threshold sell_threshold : option float) (min_trades : Z)
    (stock_list market_cap : option (list string)) (top_n : Z)
    (exclude_rules : option (list (gmap string pyval)))
    (sort_rules : option (list (gmap string string))) :
  let stocks :=
    _get_stocks_to_scan load_from_json update_stocks_database
      stock_list market_cap in
  let self' := _adjust_rate_limiting self (length stocks) in
  let scanned := concat (kept completed min_trades <$> batches self' stocks) in
  let rules := default [] exclude_rules in
  let answer :=
    scan completed load_from_json update_stocks_database self
      buy_indicator sell_indicator period interval buy_threshold
      sell_threshold min_trades stock_list market_cap top_n exclude_rules
      sort_rules in
  (forall i batch, length (completed i batch) = length batch) ->
  (forall r, r ∈ scanned -> sortable (rules_in_force sort_rules) r) ->
  (lower buy_indicator ∉ valid_indicators ->
   answer = Ok (self, Error "Invalid buy indicator. Must be one of: ['macd', 'kdj']"))
  /\ (lower buy_indicator ∈ valid_indicators ->
      lower sell_indicator ∉ valid_indicators ->
      answer = Ok (self, Error "Invalid sell indicator. Must be one of: ['macd', 'kdj']"))
  /\ (lower buy_indicator ∈ valid_indicators ->
      lower sell_indicator ∈ valid_indicators ->
      stocks = [] ->
      answer = Ok (self, Error "No stocks to scan"))
  /\ (lower buy_indicator ∈ valid_indicators ->
      lower sell_indicator ∈ valid_indicators ->
      stocks <> [] ->
      exists report ranked,
        answer = Ok (self', Result report)
        /\ _apply_sorting (_apply_exclude_rules scanned rules) sort_rules
           = Ok ranked
        /\ _apply_exclude_rules scanned rules ≡ₚ ranked
        /\ top_results report
           = (if (0 <? top_n)%Z then take (Z.to_nat top_n) ranked else ranked)
        /\ total_stocks_scanned (scan_summary report) = length stocks
        /\ successful_scans (scan_summary report) = length scanned
        /\ (successful_scans (scan_summary report)
            + failed_scans (scan_summary report))%nat = length stocks
        /\ stocks_after_filters (scan_summary report)
           = length (top_results report)
        /\ top_stocks report = stock <$> top_results report
        /\ (length (top_results report) <= length scanned)%nat
        /\ ((0 < top_n)%Z ->
            (length (top_results report) <= Z.to_nat top_n)%nat)
        /\ (forall r, r ∈ top_results report ->
              r ∈ scanned /\ forall rule, rule ∈ rules -> fires rule r = false)
        /\ (forall i j a b,
              (i < j)%nat -> top_results report !! i = Some a ->
              top_results report !! j = Some b ->
              precedes (rules_in_force sort_rules) a b)).
Proof.
  cbn zeta. intros Hcomplete Hsortable. unfold scan.
  split; [|split; [|split]].
  - intros Hb. by rewrite bool_decide_eq_false_2.
  - intros Hb Hs. rewrite bool_decide_eq_true_2 by done.
    by rewrite bool_decide_eq_false_2.
  - intros Hb Hs Hnil. rewrite !bool_decide_eq_true_2 by done.
    by rewrite Hnil.
  - intros Hb Hs Hstocks. rewrite !bool_decide_eq_true_2 by done.
    cbn [negb].
    set (stocks := _get_stocks_to_scan load_from_json update_stocks_database
                     stock_list market_cap) in *.
    destruct stocks as [|s0 stocks0] eqn:Es; [done|]. rewrite <- Es in *.
    set (self' := _adjust_rate_limiting self (length stocks)) in *.
    destruct (scan_stocks_spec completed min_trades Hcomplete self' stocks)
      as (failed & Hscan & Hcount).
    rewrite Hscan.
    set (scanned := concat (kept completed min_trades <$> batches self' stocks)) in *.
    set (filtered := match exclude_rules with
                     | Some (rule :: rules) =>
                         _apply_exclude_rules scanned (rule :: rules)
                     | _ => scanned
                     end).
    assert (Hfiltered : filtered = _apply_exclude_rules scanned (default [] exclude_rules)).
    { unfold filtered. destruct exclude_rules as [[|rule rules]|]; try done;
        by rewrite apply_exclude_rules_nil. }
    destruct (apply_sorting_spec filtered sort_rules) as (ranked & Hsort & Hperm & Hprec).
    { intros r Hr. apply Hsortable. rewrite Hfiltered in Hr.
      by apply exclude_rules_kept in Hr as [? _]. }
    rewrite Hsort. cbn [mbind result_bind Py.bind mret result_ret].
    eexists _, ranked. split; [done|].
    rewrite <- Hfiltered. do 3 (split; [done|]).
    cbn [scan_summary total_stocks_scanned successful_scans failed_scans
         stocks_after_filters top_stocks top_results].
    set (top := if (0 <? top_n)%Z then take (Z.to_nat top_n) ranked else ranked).
    assert (Htop : forall i a, top !! i = Some a -> ranked !! i = Some a).
    { intros i a. unfold top. destruct (0 <? top_n)%Z; [|done].
      intros H. by apply lookup_take_Some in H as [? _]. }
    assert (Hlen : (length top <= length ranked)%nat).
    { unfold top. destruct (0 <? top_n)%Z; [|done]. rewrite length_take. lia. }
    assert (Hfl : (length filtered <= length scanned)%nat).
    { rewrite Hfiltered. unfold _apply_exclude_rules. apply List.filter_length_le. }
    do 5 (split; [done|]).
    split; [rewrite <- (Permutation_length Hperm) in Hlen; lia|].
    split.
    { intros Hpos. unfold top.
      replace (0 <? top_n)%Z with true by (symmetry; by apply Z.ltb_lt).
      rewrite length_take. lia. }
    split.
    { intros r Hr. apply list_elem_of_lookup in Hr as [i Hi].
      apply Htop in Hi. apply list_elem_of_lookup_2 in Hi.
      rewrite <- Hperm, Hfiltered in Hi. by apply exclude_rules_kept in Hi. }
    intros i j a b Hij Hi Hj. apply (Hprec i j); [done | by apply Htop..].
Qed.
End Scan.

End ScanReportFacts.

(** * The signals endpoint *)

Module TradingSignalsFacts.
Import Pandas TechnicalAnalysis SignalDetector TradingSignals.
Import PandasFacts MacdFacts.

(** X27: with fewer than 26 rows the MACD cannot be calculated, and the
    current signal is HOLD with no indicator values, whichever indicators
    were asked for: "Insufficient data for signal detection" below 3
    rows, "Error calculating indicators" from 3 to 25 rows.  So a BUY or
    SELL needs at least 26 rows, also when both indicators are KDJ. *)
Theorem current_signal_needs_26_rows (str_float : Qc -> string)
    (str_int : Z -> string) (self : SignalDetector.t) (df : DataFrame)
    (buy_indicator sell_indicator : string)
    (buy_threshold sell_threshold : option float) :
  (length df < 26)%nat ->
  get_current_signal str_float str_int self df buy_indicator sell_indicator
    buy_threshold sell_threshold
  = Ok (HOLD,
        if (length df <? 3)%nat then "Insufficient data for signal detection"
        else "Error calculating indicators",
        ∅).
Proof.
  intros Hlen. unfold get_current_signal.
  destruct (length df <? 3)%nat; [done|].
  unfold calculate_macd. rewrite too_few_rows; [done|].
  change (Pos.to_nat 26) with 26%nat. lia.
Qed.

Section Endpoint.
Context (str_float : Qc -> string) (str_int : Z -> string)
        (str_exn : exn -> string)
        (signal_detector : SignalDetector.t)
        (history : nat -> string -> fetched).
Context (request : TradingSignalsRequest).

Let analyze_stock (job : nat * string) : string + SignalData :=
  _analyze_stock str_float str_int str_exn signal_detector history
    job.1 job.2 (buy_indicator request) (sell_indicator request)
    (buy_threshold request) (sell_threshold request) (period request).
Let step := analyze str_float str_int str_exn signal_detector history request.

(** How an entry of ["signals"] answers the analysis of its stock. *)
Let answers (job : nat * string) (d : SignalData) : Prop :=
  TradingSignals.stock d = job.2
  /\ match analyze_stock job with
     | inr signal_data =>
         d = signal_data
         /\ (signal d = "BUY" \/ signal d = "SELL" \/ signal d = "HOLD")
     | inl message =>
         signal d = "ERROR" /\ error d = Some message
         /\ current_price d = None
     end.

Lemma analyze_stock_returns (job : nat * string) (d : SignalData) :
  analyze_stock job = inr d ->
  TradingSignals.stock d = job.2
  /\ (signal d = "BUY" \/ signal d = "SELL" \/ signal d = "HOLD").
Proof.
  unfold analyze_stock, _analyze_stock.
  destruct (history job.1 job.2) as [df | message]; [|done].
  destruct (empty df); [done|].
  destruct (iloc_neg _ _); [|done].
  destruct (get_current_signal _ _ _ _ _ _ _ _) as [[[ty reasoning] values]|];
    [|done].
  intros [= <-]. split; [done|]. destruct ty; simpl; auto.
Qed.

Lemma count_snoc (kind : string) (l : list SignalData) (d : SignalData) :
  count kind (l ++ [d])
  = (count kind l + if decide (signal d = kind) then 1 else 0)%nat.
Proof.
  unfold count. rewrite filter_app, length_app, filter_cons, filter_nil.
  by destruct (decide (signal d = kind)).
Qed.

Lemma step_tally (signals : list SignalData) (summary : SignalsSummary)
    (job : nat * string) :
  buy_signals summary = count "BUY" signals ->
  sell_signals summary = count "SELL" signals ->
  hold_signals summary = count "HOLD" signals ->
  failed_analyses summary = count "ERROR" signals ->
  exists d summary',
    step (signals, summary) job = (signals ++ [d], summary')
    /\ answers job d
    /\ total_stocks summary' = total_stocks summary
    /\ buy_signals summary' = count "BUY" (signals ++ [d])
    /\ sell_signals summary' = count "SELL" (signals ++ [d])
    /\ hold_signals summary' = count "HOLD" (signals ++ [d])
    /\ failed_analyses summary' = count "ERROR" (signals ++ [d])
    /\ (count "BUY" [d] + count "SELL" [d] + count "HOLD" [d]
        + count "ERROR" [d])%nat = 1%nat.
Proof.
  intros Hb Hs Hh Hf. unfold step, analyze, answers.
  fold (analyze_stock job).
  destruct (analyze_stock job) as [message | d] eqn:Ha.
  - eexists _, _. split; [done|]. rewrite !count_snoc. simpl.
    repeat split; try done; lia.
  - destruct (analyze_stock_returns job d Ha) as [Hstock Hkind].
    exists d. eexists. split; [done|]. rewrite !count_snoc.
    split; [done|].
    destruct Hkind as [Hk | [Hk | Hk]]; rewrite Hk; simpl;
      unfold count in *; rewrite !filter_cons, !filter_nil, Hk; simpl;
      repeat split; try done; lia.
Qed.

Lemma fold_tally (jobs : list (nat * string)) (signals : list SignalData)
    (summary : SignalsSummary) :
  buy_signals summary = count "BUY" signals ->
  sell_signals summary = count "SELL" signals ->
  hold_signals summary = count "HOLD" signals ->
  failed_analyses summary = count "ERROR" signals ->
  exists new summary',
    foldl step (signals, summary) jobs = (signals ++ new, summary')
    /\ Forall2 answers jobs new
    /\ total_stocks summary' = total_stocks summary
    /\ buy_signals summary' = count "BUY" (signals ++ new)
    /\ sell_signals summary' = count "SELL" (signals ++ new)
    /\ hold_signals summary' = count "HOLD" (signals ++ new)
    /\ failed_analyses summary' = count "ERROR" (signals ++ new)
    /\ (count "BUY" new + count "SELL" new + count "HOLD" new
        + count "ERROR" new)%nat = length new.
Proof.
  revert signals summary.
  induction jobs as [|job jobs IH]; intros signals summary Hb Hs Hh Hf.
  - exists [], summary. rewrite app_nil_r. repeat split; done.
  - destruct (step_tally signals summary job Hb Hs Hh Hf)
      as (d & s1 & Hstep & Hans & Ht1 & Hb1 & Hs1 & Hh1 & Hf1 & Hone).
    destruct (IH (signals ++ [d]) s1 Hb1 Hs1 Hh1 Hf1)
      as (new & s2 & Hfold & Hall & Ht2 & Hb2 & Hs2 & Hh2 & Hf2 & Hsum).
    exists (d :: new), s2. cbn [foldl]. rewrite Hstep, Hfold.
    rewrite <- !app_assoc in *. simpl in *.
    split; [done|]. split; [by constructor|].
    split; [congruence|]. do 4 (split; [done|]).
    change (d :: new) with ([d] ++ new).
    unfold count in *. rewrite !filter_app, !length_app. simpl in *. lia.
Qed.

(** X28: the report of the endpoint has one entry per requested stock, in
    the order of the request: the dictionary [_analyze_stock] returned,
    whose signal is BUY, SELL or HOLD, or an ERROR entry carrying the
    message of the exception it raised.  The four counters are the
    numbers of entries of each kind, so they add up to [total_stocks],
    and [failed_analyses] counts exactly the ERROR entries. *)
Theorem signal_counters_add_up (now : string) :
  let report :=
    get_current_trading_signals str_float str_int str_exn signal_detector
      history request now in
  TradingSignals.stock <$> signals report = stocks request
  /\ total_stocks (summary report) = length (stocks request)
  /\ buy_signals (summary report) = count "BUY" (signals report)
  /\ sell_signals (summary report) = count "SELL" (signals report)
  /\ hold_signals (summary report) = count "HOLD" (signals report)
  /\ failed_analyses (summary report) = count "ERROR" (signals report)
  /\ (buy_signals (summary report) + sell_signals (summary report)
      + hold_signals (summary report) + failed_analyses (summary report))%nat
     = total_stocks (summary report)
  /\ forall k stock, stocks request !! k = Some stock ->
       exists d,
         signals report !! k = Some d
         /\ TradingSignals.stock d = stock
         /\ match _analyze_stock str_float str_int str_exn signal_detector
                    history k stock (buy_indicator request)
                    (sell_indicator request) (buy_threshold request)
                    (sell_threshold request) (period request) with
            | inr signal_data =>
                d = signal_data
                /\ (signal d = "BUY" \/ signal d = "SELL" \/ signal d = "HOLD")
            | inl message =>
                signal d = "ERROR" /\ error d = Some message
                /\ current_price d = None
            end.
Proof.
  cbn zeta. unfold get_current_trading_signals.
  set (jobs := imap (fun position stock => (position, stock)) (stocks request)).
  destruct (fold_tally jobs []
              {| total_stocks := length (stocks request); buy_signals := 0;
                 sell_signals := 0; hold_signals := 0; failed_analyses := 0 |})
    as (new & summary' & Hfold & Hall & Ht & Hb & Hs & Hh & Hf & Hsum);
    try done.
  fold step. rewrite Hfold.
  cbn [signals summary fst snd]. rewrite !app_nil_l in *. simpl in Ht.
  assert (Hlen : length new = length (stocks request)).
  { rewrite <- (Forall2_length _ _ _ Hall). unfold jobs. by rewrite length_imap. }
  assert (Hrows : forall k stock, stocks request !! k = Some stock ->
            exists d, new !! k = Some d /\ answers (k, stock) d).
  { intros k stock Hk.
    assert (Hjob : jobs !! k = Some (k, stock)).
    { unfold jobs. rewrite list_lookup_imap, Hk. done. }
    destruct (Forall2_lookup_l _ _ _ _ _ Hall Hjob) as (d & Hd & Hans).
    by exists d. }
  split.
  { apply list_eq. intros k. rewrite list_lookup_fmap.
    destruct (stocks request !! k) as [stock|] eqn:Hk.
    - destruct (Hrows k stock Hk) as (d & -> & Hstock & _). simpl.
      by rewrite Hstock.
    - apply lookup_ge_None in Hk. rewrite lookup_ge_None_2 by lia. done. }
  split; [done|]. do 4 (split; [done|]).
  split; [rewrite Hb, Hs, Hh, Hf, Ht; lia|].
  intros k stock Hk. destruct (Hrows k stock Hk) as (d & Hd & Hstock & Hans).
  exists d. split; [done|]. split; [done|]. exact Hans.
Qed.
End Endpoint.

End TradingSignalsFacts.

(** * The further statements at sample inputs *)

Module MoreChecks.
Import Pandas TechnicalAnalysis SignalDetector Signals Bars.
Import Samples Cases.

Lemma macd_buy_signal_is_zero_crossing_witness :
  lower "MACD" = "macd"
  /\ _check_buy_signal SignalDetector.init 1 "MACD" [fz (-1); fz 2] [] [] None
     = Ok true.
Proof.
  split; [reflexivity|].
  apply (SignalRules.macd_buy_signal_is_zero_crossing SignalDetector.init 1
           "MACD" [fz (-1); fz 2] [] [] None); [reflexivity|].
  split; [lia|]. exists (qz (-1)), (qz 2).
  split; [reflexivity|]. split; [reflexivity|]. split; reflexivity.
Defined.

Lemma kdj_signals_compare_with_threshold_witness :
  lower "KDJ" = "kdj"
  /\ _check_buy_signal SignalDetector.init 0 "KDJ" [] [fz 10] [fz 15] None
     = Ok true
  /\ _check_sell_signal SignalDetector.init 0 "KDJ" [] [fz 90] [fz 85] None
     = Ok true.
Proof.
  split; [reflexivity|]. split.
  - apply (proj1 (SignalRules.kdj_signals_compare_with_threshold
                    SignalDetector.init 0 "KDJ" [] [fz 10] [fz 15] None eq_refl)).
    exists (qz 10), (qz 15), (qz 20).
    split; [reflexivity|]. split; [reflexivity|]. split; [reflexivity|].
    split; reflexivity.
  - apply (proj2 (SignalRules.kdj_signals_compare_with_threshold
                    SignalDetector.init 0 "KDJ" [] [fz 90] [fz 85] None eq_refl)).
    exists (qz 90), (qz 85), (qz 80).
    split; [reflexivity|]. split; [reflexivity|]. split; [reflexivity|].
    split; reflexivity.
Defined.

Lemma generate_signals_checks_every_row_witness :
  exists bs ss b s,
    generate_signals SignalDetector.init three_days "macd" "kdj" None None
      = Ok (bs, ss)
    /\ buy_at SignalDetector.init three_days "macd" None 2 = Ok b
    /\ sell_at SignalDetector.init three_days "kdj" None 2 = Ok s
    /\ bs !! 2%nat = Some (flag b) /\ ss !! 2%nat = Some (flag s).
Proof.
  destruct (SignalRules.generate_signals_checks_every_row SignalDetector.init
              three_days "macd" "kdj" None None)
    as (bs & ss & Hgen & _ & _ & Hrows).
  destruct (Hrows 2%nat) as (b & s & Hb & Hs & Hfb & Hfs & _);
    [vm_compute; lia|].
  exists bs, ss, b, s. repeat split; assumption.
Defined.

Lemma macd_signals_never_conflict_witness :
  lower "macd" = "macd" /\ lower "MACD" = "macd"
  /\ exists bs ss,
       generate_signals SignalDetector.init three_days "macd" "MACD" None None
         = Ok (bs, ss)
       /\ forall i, ~ (bs !! i = Some 1%Z /\ ss !! i = Some 1%Z).
Proof.
  split; [reflexivity|]. split; [reflexivity|].
  apply (SignalRules.macd_signals_never_conflict SignalDetector.init three_days
           "macd" "MACD" None None); reflexivity.
Defined.

Lemma unknown_indicator_raises_no_signal_witness :
  exists bs ss,
    generate_signals SignalDetector.init three_days "rsi" "macd" None None
      = Ok (bs, ss)
    /\ bs = replicate (length three_days) 0%Z.
Proof.
  destruct (SignalRules.unknown_indicator_raises_no_signal SignalDetector.init
              three_days "rsi" "macd" None None) as (bs & ss & Hgen & Hb & _).
  exists bs, ss. split; [exact Hgen|]. apply Hb; vm_compute; discriminate.
Defined.

Lemma short_history_raises_no_signal_witness :
  exists bs ss,
    generate_signals SignalDetector.init three_days "macd" "kdj" None None
      = Ok (bs, ss)
    /\ bs = replicate (length three_days) 0%Z
    /\ ss = replicate (length three_days) 0%Z.
Proof.
  destruct (SignalRules.short_history_raises_no_signal SignalDetector.init
              three_days "macd" "kdj" None None)
    as (bs & ss & Hgen & Hb & _ & _ & Hs).
  exists bs, ss. split; [exact Hgen|]. split.
  - apply Hb; [reflexivity | vm_compute; lia].
  - apply Hs; [reflexivity | vm_compute; lia].
Defined.

Lemma quiet_day_well_formed (n : nat) (row : Bar) :
  In row (quiet_days n) -> well_formed row.
Proof.
  unfold quiet_days. intros Hin.
  apply list_elem_of_In, list_elem_of_fmap in Hin as (i & -> & _).
  exists (qz 10), (qz 10), (qz 10). repeat split; done.
Qed.

Lemma quiet_day_close (n : nat) (row : Bar) :
  In row (quiet_days n) -> Close row = Some (qz 10).
Proof.
  unfold quiet_days. intros Hin.
  by apply list_elem_of_In, list_elem_of_fmap in Hin as (i & -> & _).
Qed.

Lemma rsv_is_a_percentage_witness :
  exists q : Qc,
    rsv_series (quiet_days 9) 9 !! 3%nat = Some (Some q)
    /\ 0 <= q /\ q <= qz 100.
Proof.
  apply (IndicatorRanges.rsv_is_a_percentage (quiet_days 9) 9
           (quiet_day_well_formed 9)).
  vm_compute. lia.
Defined.

Lemma kdj_stays_in_range_witness :
  exists r,
    calculate_kdj (quiet_days 9) 9 3 3 = Result r
    /\ exists kv dv jv,
         kdj_k r !! 8%nat = Some kv /\ kdj_d r !! 8%nat = Some dv
         /\ kdj_j r !! 8%nat = Some jv
         /\ within 0 100 kv /\ within 0 100 dv /\ within (-200) 300 jv.
Proof.
  destruct (IndicatorRanges.kdj_stays_in_range (quiet_days 9) 9 3 3)
    as (r & Hr & Hrows).
  - vm_compute. lia.
  - apply quiet_day_well_formed.
  - exists r. split; [exact Hr|]. apply Hrows. vm_compute. lia.
Defined.

Lemma flat_prices_give_no_macd_signal_witness :
  generate_signals SignalDetector.init (quiet_days 26) "macd" "MACD" None None
  = Ok (replicate (length (quiet_days 26)) 0%Z,
        replicate (length (quiet_days 26)) 0%Z).
Proof.
  apply (MacdRules.flat_prices_give_no_macd_signal SignalDetector.init
           (quiet_days 26) (qz 10) "macd" "MACD" None None).
  - vm_compute. lia.
  - apply quiet_day_close.
  - reflexivity.
  - reflexivity.
Defined.

Lemma macd_signals_start_at_row_two_witness :
  exists bs ss,
    generate_signals SignalDetector.init three_days "macd" "macd" None None
      = Ok (bs, ss)
    /\ bs !! 1%nat <> Some 1%Z /\ ss !! 1%nat <> Some 1%Z.
Proof.
  destruct (MacdRules.macd_signals_start_at_row_two SignalDetector.init
              three_days "macd" "macd" None None)
    as (_ & bs & ss & Hgen & Hb & Hs).
  exists bs, ss. split; [exact Hgen|]. split.
  - apply Hb; [reflexivity | lia].
  - apply Hs; [reflexivity | lia].
Defined.

Lemma log_alternates_buy_and_sell_witness :
  exists log final,
    TradingSimulator._execute_trades TradingSimulator.init fifty_days
      buy_flags sell_flags = Ok (log, final)
    /\ Nat.even (length log) = true.
Proof.
  destruct (LedgerFacts.log_alternates_buy_and_sell TradingSimulator.init
              fifty_days buy_flags sell_flags)
    as (log & final & Hexec & Heven & _).
  - vm_compute. lia.
  - vm_compute. lia.
  - exists log, final. split; [exact Hexec | exact Heven].
Defined.

Lemma no_buy_signal_no_trade_witness :
  TradingSimulator._execute_trades TradingSimulator.init three_days
    three_zeros sell_on_day_one
  = Ok ([], TradingSimulator.initial_balance TradingSimulator.init).
Proof.
  apply (LedgerFacts.no_buy_signal_no_trade TradingSimulator.init three_days
           three_zeros sell_on_day_one).
  - vm_compute. lia.
  - vm_compute. lia.
  - intros [|[|[|i]]] Hi; vm_compute; discriminate.
Defined.

Lemma final_balance_is_the_last_sale_witness :
  exists log final,
    TradingSimulator._execute_trades TradingSimulator.init fifty_days
      buy_flags sell_flags = Ok (log, final)
    /\ match last log with
       | None => final = TradingSimulator.initial_balance TradingSimulator.init
       | Some (TradingSimulator.Buy _) => False
       | Some (TradingSimulator.Sell f c) =>
           TradingSimulator.balance_after f = round final 2
           /\ TradingSimulator.net_proceeds c = round final 2
       end.
Proof.
  apply (LedgerFacts.final_balance_is_the_last_sale TradingSimulator.init
           fifty_days buy_flags sell_flags); vm_compute; lia.
Defined.

Lemma unknown_buy_indicator_never_trades_witness :
  exists sim,
    TradingSimulator.simulate TradingSimulator.init fifty_days "rsi" "macd"
      None None = Ok (TradingSimulator.init, Result sim)
    /\ TradingSimulator.trade_log sim = [].
Proof.
  destruct (SimulateRules.unknown_buy_indicator_never_trades
              TradingSimulator.init fifty_days "rsi" "macd" None None)
    as (sim & Hsim & Hlog & _).
  - vm_compute. discriminate.
  - vm_compute. discriminate.
  - vm_compute. discriminate.
  - vm_compute. lia.
  - exists sim. split; [exact Hsim | exact Hlog].
Defined.

Lemma exclude_rules_are_a_disjunction_witness :
  MarketScanner._apply_exclude_rules [losing; flat; modest; winning]
    [Ranking.exclude_rule "return_percentage" "<" (qz 10);
     Ranking.exclude_rule "success_rate" "<" (qz 60)]
  = MarketScanner._apply_exclude_rules [losing; flat; modest; winning]
      [Ranking.exclude_rule "success_rate" "<" (qz 60);
       Ranking.exclude_rule "return_percentage" "<" (qz 10)].
Proof.
  apply (FilteringFacts.exclude_rules_are_a_disjunction
           [losing; flat; modest; winning]).
  apply perm_swap.
Defined.

Lemma numeric_rule_fires_on_comparison_witness :
  Filtering.fires (Ranking.exclude_rule "return_percentage" "<" (qz 10)) modest
    = true
  /\ Filtering.fires (Ranking.exclude_rule "buy_indicator" "!=" (qz 0)) macd_trader
     = true
  /\ Filtering.fires (Ranking.exclude_rule "buy_indicator" "<" (qz 0)) macd_trader
     = false.
Proof.
  split; [|split].
  - apply (FilteringFacts.numeric_rule_fires_on_comparison modest
             "return_percentage" "<" (qz 10)).
    left. split; reflexivity.
  - apply (FilteringFacts.numeric_rule_fires_on_comparison macd_trader
             "buy_indicator" "!=" (qz 0)).
    reflexivity.
  - apply not_true_is_false. intros Hfires.
    apply (FilteringFacts.numeric_rule_fires_on_comparison macd_trader
             "buy_indicator" "<" (qz 0)) in Hfires.
    discriminate.
Defined.

Lemma sorting_keeps_the_order_of_ties_witness :
  exists out,
    MarketScanner._apply_sorting [modest; winning; flat]
      (Some [Ranking.sort_rule "success_rate" "desc"]) = Ok out
    /\ filter (fun r => Ranking.ranks [Ranking.sort_rule "success_rate" "desc"] r
                        = [- qz 50]) out
       = filter (fun r => Ranking.ranks [Ranking.sort_rule "success_rate" "desc"] r
                          = [- qz 50]) [modest; winning; flat].
Proof.
  destruct (FilteringFacts.sorting_keeps_the_order_of_ties [modest; winning; flat]
              (Some [Ranking.sort_rule "success_rate" "desc"]) [- qz 50])
    as (out & Hout & _ & Hties).
  - intros r Hr. simpl in Hr.
    destruct Hr as [<- | [<- | [<- | []]]]; apply Checks.scan_result_sortable.
  - exists out. split; [exact Hout | exact Hties].
Defined.

Lemma larger_cap_never_in_smaller_class_witness :
  qz 5000000000 <= qz 50000000000
  /\ (Buckets.size_class (StockFetcher.get_market_cap_category (fz 5000000000))
      <= Buckets.size_class (StockFetcher.get_market_cap_category (fz 50000000000)))%nat.
Proof.
  assert (Hle : qz 5000000000 <= qz 50000000000) by (vm_compute; discriminate).
  split; [exact Hle|].
  apply (proj1 (StockFetcherFacts.larger_cap_never_in_smaller_class
                  (qz 5000000000) (qz 50000000000)) Hle).
Defined.

Lemma categorize_stocks_files_every_symbol_witness :
  exists data,
    StockFetcher.categorize_stocks two_stocks two_checks "2024-01-02 03:04:05"
      = Some data
    /\ StockFetcher._validate_data data = true
    /\ (StockFetcher.successful_checks (StockFetcher.summary data)
        + StockFetcher.failed_checks (StockFetcher.summary data))%nat
       = StockFetcher.total_stocks (StockFetcher.summary data)
    /\ StockFetcher.symbols_of (Buckets.bucket (StockFetcher.stocks data) "large_cap")
       = ["AAA"]
    /\ StockFetcher.symbols_of
         (Buckets.bucket (StockFetcher.stocks data) "uncategorized")
       = ["BBB"].
Proof.
  destruct (StockFetcherFacts.categorize_stocks_files_every_symbol two_stocks
              two_checks "2024-01-02 03:04:05")
    as (data & Hdata & Hvalid & _ & _ & _ & Hsum & _ & _ & Hplaced & _).
  - apply perm_swap.
  - exists data. split; [exact Hdata|]. split; [exact Hvalid|].
    split; [exact Hsum|]. rewrite !Hplaced. split; vm_compute; reflexivity.
Defined.

Lemma rate_limiting_follows_the_scan_size_witness :
  (Scan.batch_size (Scan._adjust_rate_limiting Scan.init 2000)
     <= Scan.batch_size (Scan._adjust_rate_limiting Scan.init 100))%positive
  /\ Scan.batch_size (Scan._adjust_rate_limiting Scan.init 100)
     = settings.batch_size.
Proof.
  destruct (ScanFacts.rate_limiting_follows_the_scan_size Scan.init 100 2000)
    as (_ & Hmono & _ & Hsmall & _).
  split.
  - apply Hmono. lia.
  - apply Hsmall. lia.
Defined.

Lemma returning_completes (i : nat) (batch : list string) :
  length (returning i batch) = length batch.
Proof. unfold returning. apply length_fmap. Qed.

Lemma scan_counts_every_stock_once_witness :
  exists results successful failed,
    Scan._scan_stocks returning Scan.init two_stocks 3
      = (results, successful, failed)
    /\ (successful + failed)%nat = length two_stocks.
Proof.
  destruct (ScanFacts.scan_counts_every_stock_once returning 3 Scan.init
              two_stocks returning_completes)
    as (results & successful & failed & Hscan & _ & _ & _ & _ & Hsum & _).
  exists results, successful, failed. split; [exact Hscan | exact Hsum].
Defined.

Lemma scan_single_stock_retries_only_throttling_witness :
  (1 <= Scan.max_retries Scan.init)%nat
  /\ exists j trace answer,
       Scan._scan_single_stock exn_text throttling Scan.init "aapl" "macd" "macd"
         None None = (trace, answer)
       /\ (j < Scan.max_retries Scan.init)%nat
       /\ Batches.fetches trace = S j.
Proof.
  assert (Hpos : (1 <= Scan.max_retries Scan.init)%nat) by (vm_compute; lia).
  split; [exact Hpos|].
  destruct (RetryFacts.scan_single_stock_retries_only_throttling exn_text
              throttling Scan.init "aapl" "macd" "macd" None None Hpos)
    as (j & trace & answer & Hscan & Hj & Hf & _).
  exists j, trace, answer. split; [exact Hscan|]. split; [exact Hj | exact Hf].
Defined.

Lemma delivered_history_is_scanned_once_witness :
  exists sim,
    Scan._scan_single_stock exn_text delivering Scan.init "aapl" "macd" "macd"
      None None
    = ([Scan.Sleep (Scan.rate_limit_delay Scan.init); Scan.History "aapl"],
       Result {| Scan.scanned_stock := Scan.upper "aapl";
                 Scan.scanned_summary := TradingSimulator.trading_summary sim;
                 Scan.scanned_statistics := TradingSimulator.statistics sim |}).
Proof.
  destruct (RetryFacts.delivered_history_is_scanned_once exn_text delivering
              Scan.init "aapl" "macd" "macd" None None fifty_days)
    as [_ Hrun].
  - vm_compute. lia.
  - reflexivity.
  - vm_compute. discriminate.
  - destruct Hrun as (sim & _ & Hscan); [vm_compute; lia|].
    exists sim. exact Hscan.
Defined.

Lemma returning_sortable (rules : list (gmap string string)) (self : Scan.t)
    (stocks : list string) (r : MarketScanner.ScanResult) :
  r ∈ concat (Batches.kept returning 3 <$> Batches.batches self stocks) ->
  Ranking.sortable rules r.
Proof.
  intros Hr.
  apply (ScanFacts.kept_origin returning 3 self stocks) in Hr
    as (i & batch & symbol & _ & Hin & _).
  unfold returning in Hin. apply list_elem_of_fmap in Hin as (s & Heq & _).
  injection Heq as _ ->. apply Checks.scan_result_sortable.
Qed.

Lemma scan_report_is_consistent_witness :
  exists report ranked,
    Scan.scan returning None (Error "No stocks available") Scan.init
      "MACD" "kdj" "6mo" "1d" None None 3 (Some two_stocks) None 1 None None
    = Ok (Scan._adjust_rate_limiting Scan.init 2, Result report)
    /\ Scan.top_results report = take 1 ranked
    /\ Scan.stocks_after_filters (Scan.scan_summary report)
       = length (Scan.top_results report)
    /\ (length (Scan.top_results report) <= 1)%nat.
Proof.
  destruct (ScanReportFacts.scan_report_is_consistent returning None
              (Error "No stocks available") Scan.init "MACD" "kdj" "6mo" "1d"
              None None 3 (Some two_stocks) None 1 None None
              returning_completes)
    as (_ & _ & _ & Hrun).
  - apply returning_sortable.
  - destruct Hrun
      as (report & ranked & Hscan & _ & _ & Htake & _ & _ & _ & Hafter
          & _ & _ & Htop & _).
    + simpl. constructor.
    + simpl. do 2 constructor.
    + discriminate.
    + exists report, ranked. split; [exact Hscan|]. split; [exact Htake|].
      split; [exact Hafter|]. apply Htop. lia.
Defined.

Lemma current_signal_needs_26_rows_witness :
  get_current_signal show_float show_int SignalDetector.init (quotes 10)
    "kdj" "kdj" None None
  = Ok (HOLD, "Error calculating indicators", ∅).
Proof.
  apply (TradingSignalsFacts.current_signal_needs_26_rows show_float show_int
           SignalDetector.init (quotes 10) "kdj" "kdj" None None).
  vm_compute. lia.
Defined.

Lemma signal_counters_add_up_witness :
  exists d,
    TradingSignals.signals
      (TradingSignals.get_current_trading_signals show_float show_int exn_text
         SignalDetector.init delivering_to two_requested "2024-01-02T03:04:05")
      !! 1%nat = Some d
    /\ TradingSignals.stock d = "BBB".
Proof.
  destruct (TradingSignalsFacts.signal_counters_add_up show_float show_int
              exn_text SignalDetector.init delivering_to two_requested
              "2024-01-02T03:04:05") as (_ & _ & _ & _ & _ & _ & _ & Hrows).
  destruct (Hrows 1%nat "BBB" eq_refl) as (d & Hd & Hstock & _).
  exists d. split; [exact Hd | exact Hstock].
Defined.

End MoreChecks.
